(** * Storage pool backend: volume lifecycle orchestration

    A shallow embedding of [internal/server/storage/backend.go] and the
    properties its specification states about it.  Go strings are byte
    sequences ([string]), Go maps are [gmap]s, errors are values of an
    inductive type with an explicit wrapping chain, and the stateful
    operations of the backend run in a state-and-error monad over an explicit
    world (metadata store, storage driver, authorizer, connection, event
    trace). *)

From Stdlib Require Import ZArith Lia List Bool String Ascii.
From stdpp Require Import base gmap strings list pretty.

Import ListNotations.
Local Open Scope string_scope.
Local Open Scope Z_scope.

(** ** Go strings and runes *)

Module GoString.

(** The value of one byte of a Go string. *)
Definition byteZ (a : ascii) : Z := Z.of_N (N_of_ascii a).

Definition bytes (s : string) : list Z := map byteZ (list_ascii_of_string s).

Fixpoint HasPrefix (s prefix : string) {struct prefix} : bool :=
  match prefix, s with
  | EmptyString, _ => true
  | String _ _, EmptyString => false
  | String p prefix', String c s' => Ascii.eqb c p && HasPrefix s' prefix'
  end.

(** [strings.Contains(s, substr)]: [substr] occurs in [s] at some byte offset. *)
Fixpoint Contains (s substr : string) : bool :=
  HasPrefix s substr ||
  match s with
  | EmptyString => false
  | String _ s' => Contains s' substr
  end.

(** *** UTF-8 decoding, as [utf8.DecodeRuneInString] does it

    A [for _, r := range s] loop yields the runes this decoder produces;
    a byte that starts no well-formed sequence yields [RuneError] and
    advances by one byte. *)

Definition RuneError : Z := 0xFFFD.
Definition MaxLatin1 : Z := 0xFF.

Definition maskx : Z := 0x3F.
Definition mask2 : Z := 0x1F.
Definition mask3 : Z := 0x0F.
Definition mask4 : Z := 0x07.
Definition locb : Z := 0x80.
Definition hicb : Z := 0xBF.

(** One entry of the [first] table: ASCII, invalid, or the size of the
    sequence with the range accepted for its second byte. *)
Inductive firstInfo :=
| as1
| xx
| sz (size : nat) (lo hi : Z).

Definition first (b : Z) : firstInfo :=
  if b <? 0x80 then as1
  else if b <? 0xC2 then xx
  else if b <? 0xE0 then sz 2 locb hicb
  else if b =? 0xE0 then sz 3 0xA0 hicb
  else if b <? 0xED then sz 3 locb hicb
  else if b =? 0xED then sz 3 locb 0x9F
  else if b <? 0xF0 then sz 3 locb hicb
  else if b =? 0xF0 then sz 4 0x90 hicb
  else if b <? 0xF4 then sz 4 locb hicb
  else if b =? 0xF4 then sz 4 locb 0x8F
  else xx.

Definition DecodeRuneInString (s : list Z) : Z * nat :=
  match s with
  | [] => (RuneError, 0%nat)
  | s0 :: t0 =>
    match first s0 with
    | as1 => (s0, 1%nat)
    | xx => (RuneError, 1%nat)
    | sz size lo hi =>
      if (length s <? size)%nat then (RuneError, 1%nat) else
      match t0 with
      | [] => (RuneError, 1%nat)
      | s1 :: t1 =>
        if (s1 <? lo) || (hi <? s1) then (RuneError, 1%nat) else
        if (size <=? 2)%nat then
          (Z.lor (Z.shiftl (Z.land s0 mask2) 6) (Z.land s1 maskx), 2%nat)
        else
        match t1 with
        | [] => (RuneError, 1%nat)
        | s2 :: t2 =>
          if (s2 <? locb) || (hicb <? s2) then (RuneError, 1%nat) else
          if (size <=? 3)%nat then
            (Z.lor (Z.lor (Z.shiftl (Z.land s0 mask3) 12)
                          (Z.shiftl (Z.land s1 maskx) 6))
                   (Z.land s2 maskx), 3%nat)
          else
          match t2 with
          | [] => (RuneError, 1%nat)
          | s3 :: _ =>
            if (s3 <? locb) || (hicb <? s3) then (RuneError, 1%nat) else
            (Z.lor (Z.lor (Z.lor (Z.shiftl (Z.land s0 mask4) 18)
                                 (Z.shiftl (Z.land s1 maskx) 12))
                          (Z.shiftl (Z.land s2 maskx) 6))
                   (Z.land s3 maskx), 4%nat)
          end
        end
      end
    end
  end.

(** The runes a [range] loop over the bytes [s] visits, in order. *)
Fixpoint rangeRunes (fuel : nat) (s : list Z) : list Z :=
  match fuel with
  | O => []
  | S fuel' =>
    match s with
    | [] => []
    | _ :: _ =>
      let '(r, size) := DecodeRuneInString s in
      r :: rangeRunes fuel' (drop size s)
    end
  end.

Definition runes (s : string) : list Z := rangeRunes (String.length s) (bytes s).

(** *** [unicode.IsSpace] *)

Record Range16 := { Lo : Z; Hi : Z; Stride : Z }.

(** The R16 part of the [unicode.White_Space] range table. *)
Definition White_Space_R16 : list Range16 :=
  [ {| Lo := 0x0009; Hi := 0x000d; Stride := 1 |};
    {| Lo := 0x0020; Hi := 0x0085; Stride := 101 |};
    {| Lo := 0x00a0; Hi := 0x1680; Stride := 5600 |};
    {| Lo := 0x2000; Hi := 0x200a; Stride := 1 |};
    {| Lo := 0x2028; Hi := 0x2029; Stride := 1 |};
    {| Lo := 0x202f; Hi := 0x205f; Stride := 48 |};
    {| Lo := 0x3000; Hi := 0x3000; Stride := 1 |} ].

(** Entries of the table that lie wholly within Latin-1. *)
Definition White_Space_LatinOffset : nat := 2.

(** [is16]: the table is short, so the search is the linear one. *)
Fixpoint is16 (ranges : list Range16) (r : Z) : bool :=
  match ranges with
  | [] => false
  | range_ :: rest =>
    if r <? Lo range_ then false
    else if r <=? Hi range_ then
      (Stride range_ =? 1) || ((r - Lo range_) mod Stride range_ =? 0)
    else is16 rest r
  end.

(** [isExcludingLatin(White_Space, r)]; the table has no 32-bit ranges. *)
Definition isExcludingLatin (r : Z) : bool :=
  if (White_Space_LatinOffset <? length White_Space_R16)%nat
     && (0 <=? r)
     && (r <=? Hi (List.last White_Space_R16 {| Lo := 0; Hi := 0; Stride := 1 |}))
  then is16 (drop White_Space_LatinOffset White_Space_R16) r
  else false.

Definition IsSpace (r : Z) : bool :=
  if (0 <=? r) && (r <=? MaxLatin1) then
    (r =? 0x09) || (r =? 0x0A) || (r =? 0x0B) || (r =? 0x0C) || (r =? 0x0D)
    || (r =? 0x20) || (r =? 0x85) || (r =? 0xA0)
  else isExcludingLatin r.

(** The code points with the Unicode property White_Space. *)
Definition WhiteSpaceCodePoint (r : Z) : Prop :=
  (0x09 <= r <= 0x0D) \/ r = 0x20 \/ r = 0x85 \/ r = 0xA0 \/ r = 0x1680
  \/ (0x2000 <= r <= 0x200A) \/ r = 0x2028 \/ r = 0x2029 \/ r = 0x202F
  \/ r = 0x205F \/ r = 0x3000.

Definition slash : Z := 0x2F.

End GoString.

(** ** Errors *)

(** Go error values.  [ErrWrap ctx e] is [fmt.Errorf(ctx + ": %w", e)]; the
    sentinel errors of the drivers package and of this package are
    constructors of their own, [ErrDeleteSnapshots] carries the names of the
    blocking snapshots, and [ErrStatus] is an [api.StatusError]. *)
Inductive error :=
| ErrNew (msg : string)
| ErrWrap (ctx : string) (inner : error)
| ErrStatus (code : Z) (msg : string)
| ErrCannotBeShrunk
| ErrNotSupported
| ErrDeleteSnapshots (snapshots : list string)
| ErrBackupSnapshotsMismatch.

(** [err.Error()]. *)
Fixpoint error_msg (e : error) : string :=
  match e with
  | ErrNew msg => msg
  | ErrWrap ctx inner => ctx +:+ ": " +:+ error_msg inner
  | ErrStatus _ msg => msg
  | ErrCannotBeShrunk => "Cannot shrink volume"
  | ErrNotSupported => "Not supported"
  | ErrDeleteSnapshots _ => "Snapshots need to be deleted"
  | ErrBackupSnapshotsMismatch => "Backup snapshots mismatch"
  end.

(** [fmt.Errorf(ctx + ": %v", errs)]: an error that wraps nothing. *)
Definition Errorf_list (ctx : string) (errs : list error) : error :=
  ErrNew (ctx +:+ ": [" +:+ String.concat " " (map error_msg errs) +:+ "]").

Definition StatusOK : Z := 200.
Definition StatusNotFound : Z := 404.
Definition StatusServiceUnavailable : Z := 503.

(** ** ValidateName *)

Definition dquote : string := String (ascii_of_nat 34) EmptyString.

Definition ErrNameSlash : error :=
  ErrNew ("Storage name cannot contain " +:+ dquote +:+ "/" +:+ dquote).
Definition ErrNameSpace : error := ErrNew "Storage name cannot contain white space".

(** The loop of [ValidateName] over the runes of the name. *)
Fixpoint ValidateName_loop (rs : list Z) : option error :=
  match rs with
  | [] => None
  | r :: rest =>
    if GoString.IsSpace r then Some ErrNameSpace else ValidateName_loop rest
  end.

(** [ValidateName]: the error returned, [None] for [nil]. *)
Definition ValidateName (value : string) : option error :=
  if GoString.Contains value "/" then Some ErrNameSlash
  else ValidateName_loop (GoString.runes value).


(** ** Results and error inspection *)

Inductive Res (A : Type) :=
| Ok (a : A)
| Err (e : error).

Arguments Ok {A} a.
Arguments Err {A} e.

(** [errors.Is(err, target)] for the sentinels: [err] or an error it wraps
    is the sentinel. *)
Fixpoint errors_Is_CannotBeShrunk (e : error) : bool :=
  match e with
  | ErrCannotBeShrunk => true
  | ErrWrap _ inner => errors_Is_CannotBeShrunk inner
  | _ => false
  end.

Fixpoint errors_Is_NotSupported (e : error) : bool :=
  match e with
  | ErrNotSupported => true
  | ErrWrap _ inner => errors_Is_NotSupported inner
  | _ => false
  end.

Fixpoint errors_Is_BackupSnapshotsMismatch (e : error) : bool :=
  match e with
  | ErrBackupSnapshotsMismatch => true
  | ErrWrap _ inner => errors_Is_BackupSnapshotsMismatch inner
  | _ => false
  end.

(** [errors.As(err, &snapErr)] for [drivers.ErrDeleteSnapshots]. *)
Fixpoint errors_As_DeleteSnapshots (e : error) : option (list string) :=
  match e with
  | ErrDeleteSnapshots snaps => Some snaps
  | ErrWrap _ inner => errors_As_DeleteSnapshots inner
  | _ => None
  end.

(** [response.IsNotFoundError]: a status error with code 404 in the chain. *)
Fixpoint IsNotFoundError (e : error) : bool :=
  match e with
  | ErrStatus code _ => code =? StatusNotFound
  | ErrWrap _ inner => IsNotFoundError inner
  | _ => false
  end.

(** ** Volumes and their names *)

Inductive VolumeType :=
| VolumeTypeBucket
| VolumeTypeContainer
| VolumeTypeCustom
| VolumeTypeImage
| VolumeTypeVM.

(** [drivers.ContentType] is a string type. *)
Abbreviation ContentType := string (only parsing).

Definition ContentTypeFS : ContentType := "filesystem".
Definition ContentTypeBlock : ContentType := "block".
Definition ContentTypeISO : ContentType := "iso".

#[global] Instance VolumeType_eq_dec : EqDecision VolumeType.
Proof. solve_decision. Defined.

(** A Go [map[string]string]; a missing key reads as the empty string. *)
Abbreviation Config := (gmap string string).

Definition cfg (m : Config) (k : string) : string := default "" (m !! k).

Definition ProjectDefaultName : string := "default".

(** [project.StorageVolume] and [project.Instance].
    Modelled from the spec: the project package is not part of the sources
    at hand; the storage-level name of a volume is the project and the name
    joined by an underscore, and instances of the default project keep their
    plain name. *)
Definition project_StorageVolume (projectName volName : string) : string :=
  projectName +:+ "_" +:+ volName.

Definition project_Instance (projectName instName : string) : string :=
  if decide (projectName = ProjectDefaultName) then instName
  else projectName +:+ "_" +:+ instName.

(** Splits at the first slash, as [strings.SplitN(name, "/", 2)] does. *)
Fixpoint splitSlash (name : string) : option (string * string) :=
  match name with
  | EmptyString => None
  | String c rest =>
    if Ascii.eqb c "/"%char then Some (EmptyString, rest)
    else match splitSlash rest with
         | Some (parent, snap) => Some (String c parent, snap)
         | None => None
         end
  end.

(** [api.GetParentAndSnapshotName]. *)
Definition GetParentAndSnapshotName (name : string) : string * string * bool :=
  match splitSlash name with
  | Some (parent, snap) => (parent, snap, true)
  | None => (name, "", false)
  end.

(** [internalInstance.IsSnapshot]. *)
Definition IsSnapshot (name : string) : bool := GoString.Contains name "/".

(** [drivers.GetSnapshotVolumeName]. *)
Definition GetSnapshotVolumeName (parentName snapshotName : string) : string :=
  parentName +:+ "/" +:+ snapshotName.

(** A [drivers.Volume]: the pool it lives in, its type, content type, name on
    storage and config. *)
Record Volume := {
  vol_pool : string;
  vol_type : VolumeType;
  vol_contentType : ContentType;
  vol_name : string;
  vol_config : Config;
}.

Definition Volume_SetConfigSize (v : Volume) (size : string) : Volume :=
  {| vol_pool := vol_pool v; vol_type := vol_type v;
     vol_contentType := vol_contentType v; vol_name := vol_name v;
     vol_config := <["size" := size]> (vol_config v) |}.

Definition Volume_SetConfigStateSize (v : Volume) (size : string) : Volume :=
  {| vol_pool := vol_pool v; vol_type := vol_type v;
     vol_contentType := vol_contentType v; vol_name := vol_name v;
     vol_config := <["size.state" := size]> (vol_config v) |}.

Definition Volume_ConfigSize (v : Volume) : string := cfg (vol_config v) "size".

(** [VolumeType.Singular]. *)
Definition Singular (t : VolumeType) : string :=
  match t with
  | VolumeTypeBucket => "bucket"
  | VolumeTypeContainer => "container"
  | VolumeTypeCustom => "custom"
  | VolumeTypeImage => "image"
  | VolumeTypeVM => "virtual-machine"
  end.

(** ** The metadata store *)

(** A volume row of the cluster database, scoped by pool and project.  The
    content type is stored by name. *)
Record StorageVolume := {
  sv_pool : string;
  sv_project : string;
  sv_name : string;
  sv_type : VolumeType;
  sv_snapshot : bool;
  sv_description : string;
  sv_config : Config;
  sv_contentType : string;
  sv_creationDate : Z;
  sv_expiryDate : Z;
}.

(** [VolumeContentTypeNameToContentType] followed by
    [VolumeDBContentTypeToContentType].
    Modelled from the spec: the conversion helpers are not part of the
    sources at hand; the content types are filesystem, block and iso, and
    any other name is an error. *)
Definition ContentTypeOfName (name : string) : Res ContentType :=
  if decide (name = ContentTypeFS) then Ok ContentTypeFS
  else if decide (name = ContentTypeBlock) then Ok ContentTypeBlock
  else if decide (name = ContentTypeISO) then Ok ContentTypeISO
  else Err (ErrNew "Invalid volume content type name").

(** ** Snapshots, backup config and migration arguments *)

(** [api.StorageVolumeSnapshot]; the name is the snapshot-only name. *)
Record StorageVolumeSnapshot := {
  snap_name : string;
  snap_description : string;
  snap_config : Config;
  snap_contentType : string;
  snap_createdAt : Z;
  snap_expiresAt : option Z;
}.

(** The part of [backupConfig.Config] that describes a custom volume. *)
Record VolumeBackupConfig := {
  bc_volume : option StorageVolume;
  bc_volumeSnapshots : list StorageVolumeSnapshot;
}.

(** [localMigration.Info] and [localMigration.InfoResponse]. *)
Record MigrationInfo := {
  info_config : option VolumeBackupConfig;
}.

Record InfoResponse := {
  resp_statusCode : Z;
  resp_error : string;
  resp_refresh : option bool;
}.

Definition InfoResponse_Err (r : InfoResponse) : option error :=
  if resp_statusCode r =? StatusOK then None
  else Some (ErrStatus (resp_statusCode r) (resp_error r)).

(** The fields of [localMigration.VolumeTargetArgs] the receiver reads; the
    snapshots are given by name ([snapshot.GetName()]). *)
Record VolumeTargetArgs := {
  ta_indexHeaderVersion : Z;
  ta_name : string;
  ta_description : string;
  ta_config : Config;
  ta_snapshots : list string;
  ta_contentType : string;
  ta_volumeSize : Z;
  ta_refresh : bool;
  ta_storagePool : string;
  ta_migrationType : string;
}.

Definition ta_with_refresh (a : VolumeTargetArgs) (r : bool) : VolumeTargetArgs :=
  {| ta_indexHeaderVersion := ta_indexHeaderVersion a; ta_name := ta_name a;
     ta_description := ta_description a; ta_config := ta_config a;
     ta_snapshots := ta_snapshots a; ta_contentType := ta_contentType a;
     ta_volumeSize := ta_volumeSize a; ta_refresh := r;
     ta_storagePool := ta_storagePool a;
     ta_migrationType := ta_migrationType a |}.

(** The fields of [localMigration.VolumeSourceArgs] the sender reads. *)
Record VolumeSourceArgs := {
  sa_indexHeaderVersion : Z;
  sa_name : string;
  sa_snapshots : list string;
  sa_contentType : string;
  sa_info : option MigrationInfo;
  sa_refresh : bool;
  sa_migrationType : string;
}.

Definition sa_with_refresh (a : VolumeSourceArgs) (r : bool) : VolumeSourceArgs :=
  {| sa_indexHeaderVersion := sa_indexHeaderVersion a; sa_name := sa_name a;
     sa_snapshots := sa_snapshots a; sa_contentType := sa_contentType a;
     sa_info := sa_info a; sa_refresh := r;
     sa_migrationType := sa_migrationType a |}.

(** ** The driver interface *)

(** The calls of [drivers.Driver] that act on the storage medium. *)
Inductive DriverCall :=
| CallCreateVolume (vol : Volume) (filler : option string)
| CallDeleteVolume (vol : Volume)
| CallDeleteVolumeSnapshot (vol : Volume)
| CallSetVolumeQuota (vol : Volume) (size : string) (allowUnsafeResize : bool)
| CallRestoreVolume (vol : Volume) (snapshotName : string)
| CallRefreshVolume (vol srcVol : Volume) (srcSnapVols : list Volume)
                    (allowInconsistent : bool)
| CallMigrateVolume (vol : Volume) (args : VolumeSourceArgs)
| CallCreateVolumeFromMigration (vol : Volume) (args : VolumeTargetArgs)
| CallCreateVolumeFromBackup (vol : Volume)
| CallRevertVolumeFromBackup (vol : Volume).

(** [drivers.Info]: the capability flags of a driver. *)
Record DriverInfo := {
  Remote : bool;
  OptimizedImages : bool;
  VolumeTypes : list VolumeType;
}.

(** A storage driver over its own state [D] (the storage medium).  The
    per-backend implementations are outside the orchestrator; it consumes
    them through this interface only. *)
Class Driver (D : Type) := {
  (** a call that acts on the medium: the new state and the error returned *)
  drv_exec : D -> DriverCall -> D * option error;
  (** [HasVolume] *)
  drv_HasVolume : D -> Volume -> Res bool;
  (** [FillVolumeConfig]: the volume with the pool defaults filled in *)
  drv_FillVolumeConfig : Volume -> Res Volume;
  (** [ValidateVolume(vol, removeUnknownKeys)] *)
  drv_ValidateVolume : Volume -> bool -> option error;
  (** [Volume.IsBlockBacked] *)
  drv_IsBlockBacked : Volume -> bool;
  (** [Volume.ConfigSizeFromSource] *)
  drv_ConfigSizeFromSource : Volume -> Volume -> Res string;
  (** [Volume.Snapshots]: the snapshot volumes found on the medium *)
  drv_Snapshots : D -> Volume -> Res (list Volume);
  (** the size the filler of the last [CreateVolume] recorded *)
  drv_FillerSize : D -> Z;
  (** the size of the block device of a volume, found by mounting it *)
  drv_BlockDiskSizeBytes : D -> Volume -> Res Z;
  (** the migration type two pools agree on, for a content type and with or
      without snapshots ([MigrationTypes] of both and [MatchTypes]) *)
  drv_MatchTypes : string -> string -> ContentType -> bool -> Res string;
}.

(** ** The backend and the world it acts on *)

(** Pool status names.
    Modelled from the spec: the api package is not part of the sources at
    hand; a pool's status is pending, created or errored, and the status of a
    cluster member is one of these, unknown or unavailable. *)
Definition StoragePoolStatusPending : string := "pending".
Definition StoragePoolStatusCreated : string := "created".
Definition StoragePoolStatusErrored : string := "errored".
Definition StoragePoolStatusUnknown : string := "unknown".
Definition StoragePoolStatusUnvailable : string := "unavailable".

(** [db.StoragePoolNode] and [db.StoragePoolStateToAPIStatus].
    Modelled from the spec: the db package is not part of the sources at
    hand; the state of a member is pending, created or errored, and anything
    else is reported as unknown. *)
Record StoragePoolNode := { node_State : Z }.

Definition StoragePoolStateToAPIStatus (state : Z) : string :=
  if state =? 0 then StoragePoolStatusPending
  else if state =? 1 then StoragePoolStatusCreated
  else if state =? 2 then StoragePoolStatusErrored
  else StoragePoolStatusUnknown.

(** The fields of [backend] (and of the server state it points to) that the
    operations below read. *)
Record backend := {
  b_name : string;
  b_status : string;
  b_nodes : gmap Z StoragePoolNode;
  b_nodeID : Z;
  b_info : DriverInfo;
  b_serverClustered : bool;
  b_serverName : string;
}.

(** The two ends of a connection between a migration sender and receiver. *)
Inductive Endpoint :=
| aEnd
| bEnd.

(** An in-memory pipe pair.
    Modelled from the spec: the memorypipe package is not part of the
    sources at hand; the pipe is a full-duplex channel between two
    concurrently running tasks, a writer closes its write side to mark the
    end of a frame, a reader reads until that mark, and once the context of
    the pipe is cancelled a blocked read returns an error.  [inbox_a] holds
    the complete frames waiting to be read at [aEnd], [wbuf_a] the bytes
    written at [aEnd] since its last [Close]. *)
Record Pipe := {
  inbox_a : list string;
  inbox_b : list string;
  wbuf_a : string;
  wbuf_b : string;
  pipe_err : option error;
}.

Definition emptyPipe : Pipe :=
  {| inbox_a := []; inbox_b := []; wbuf_a := ""; wbuf_b := ""; pipe_err := None |}.

Definition inbox (c : Endpoint) (p : Pipe) : list string :=
  match c with aEnd => inbox_a p | bEnd => inbox_b p end.

Definition pipe_pop (c : Endpoint) (p : Pipe) : Pipe :=
  match c with
  | aEnd => {| inbox_a := tail (inbox_a p); inbox_b := inbox_b p;
               wbuf_a := wbuf_a p; wbuf_b := wbuf_b p; pipe_err := pipe_err p |}
  | bEnd => {| inbox_a := inbox_a p; inbox_b := tail (inbox_b p);
               wbuf_a := wbuf_a p; wbuf_b := wbuf_b p; pipe_err := pipe_err p |}
  end.

Definition pipe_write (c : Endpoint) (bs : string) (p : Pipe) : Pipe :=
  match c with
  | aEnd => {| inbox_a := inbox_a p; inbox_b := inbox_b p;
               wbuf_a := wbuf_a p +:+ bs; wbuf_b := wbuf_b p; pipe_err := pipe_err p |}
  | bEnd => {| inbox_a := inbox_a p; inbox_b := inbox_b p;
               wbuf_a := wbuf_a p; wbuf_b := wbuf_b p +:+ bs; pipe_err := pipe_err p |}
  end.

(** Closing the write side of [c] hands the frame to the other end. *)
Definition pipe_close (c : Endpoint) (p : Pipe) : Pipe :=
  match c with
  | aEnd => {| inbox_a := inbox_a p; inbox_b := inbox_b p ++ [wbuf_a p];
               wbuf_a := ""; wbuf_b := wbuf_b p; pipe_err := pipe_err p |}
  | bEnd => {| inbox_a := inbox_a p ++ [wbuf_b p]; inbox_b := inbox_b p;
               wbuf_a := wbuf_a p; wbuf_b := ""; pipe_err := pipe_err p |}
  end.

Definition peer (c : Endpoint) : Endpoint :=
  match c with aEnd => bEnd | bEnd => aEnd end.

Definition wbuf (c : Endpoint) (p : Pipe) : string :=
  match c with aEnd => wbuf_a p | bEnd => wbuf_b p end.

Definition ErrCanceled : error := ErrNew "context canceled".

Definition pipe_cancel (p : Pipe) : Pipe :=
  {| inbox_a := inbox_a p; inbox_b := inbox_b p; wbuf_a := wbuf_a p;
     wbuf_b := wbuf_b p; pipe_err := Some ErrCanceled |}.

(** The side effects of the backend, in the order they happen.  The events
    of two goroutines that run side by side are recorded in the order the
    scheduler below runs them. *)
Inductive Event :=
| EvDBCreate (row : StorageVolume)
| EvDBDelete (pool project name : string) (t : VolumeType)
| EvDBUpdate (pool project name : string) (t : VolumeType)
             (description : string) (config : Config)
| EvDriver (call : DriverCall) (err : option error)
| EvAuthAdd (project pool type name location : string)
| EvAuthDelete (project pool type name location : string)
| EvLifecycle (action : string) (vol : Volume)
| EvConnWrite (conn : Endpoint) (bs : string)
| EvConnClose (conn : Endpoint)
| EvConnReadAll (conn : Endpoint)
| EvInstanceDelete (name : string) (err : option error)
| EvHost (action : string) (name : string) (err : option error).

Record World (D : Type) := mkWorld {
  w_db : list StorageVolume;
  w_images : gmap string string;
  w_pools : gmap string backend;
  w_drv : D;
  w_unavailablePools : gset string;
  w_pipe : Pipe;
  w_clock : Z;
  w_trace : list Event;
}.

Arguments mkWorld {D}.
Arguments w_db {D}.
Arguments w_images {D}.
Arguments w_pools {D}.
Arguments w_drv {D}.
Arguments w_unavailablePools {D}.
Arguments w_pipe {D}.
Arguments w_clock {D}.
Arguments w_trace {D}.

(** ** The state and error monad of the backend *)

Section Monad.

Context {D : Type}.

(** A compensating action: a closure that acts on the world and whose error,
    if any, is dropped. *)
Definition Hook := World D -> World D.

(** The world together with the compensating actions of the reverter of the
    function that is running. *)
Record St := mkSt {
  st_world : World D;
  st_revert : list Hook;
}.

(** What running a piece of code gives: it returns, or it blocks reading a
    frame from a connection and goes on once one is there. *)
Inductive Outcome (A : Type) :=
| Done (r : Res A) (st : St)
| Await (conn : Endpoint) (st : St) (k : Res string -> St -> Outcome A).

Arguments Done {A} r st.
Arguments Await {A} conn st k.

Definition M (A : Type) : Type := St -> Outcome A.

Definition ret {A} (a : A) : M A := fun st => Done (Ok a) st.

Definition fail {A} (e : error) : M A := fun st => Done (Err e) st.

Fixpoint bindO {A B} (o : Outcome A) (k : A -> M B) : Outcome B :=
  match o with
  | Done (Ok a) st => k a st
  | Done (Err e) st => Done (Err e) st
  | Await c st k' => Await c st (fun r st' => bindO (k' r st') k)
  end.

Definition bind {A B} (m : M A) (k : A -> M B) : M B :=
  fun st => bindO (m st) k.

(** [if err != nil { return err }] on a result that is already there. *)
Definition lift {A} (r : Res A) : M A := fun st => Done r st.

Definition check (e : option error) : M unit :=
  match e with
  | None => ret tt
  | Some e => fail e
  end.

(** The error of [m] as a value, for the callers that inspect it. *)
Fixpoint tryO {A} (o : Outcome A) : Outcome (Res A) :=
  match o with
  | Done r st => Done (Ok r) st
  | Await c st k => Await c st (fun r st' => tryO (k r st'))
  end.

Definition try {A} (m : M A) : M (Res A) := fun st => tryO (m st).

(** [fmt.Errorf(ctx + ": %w", err)] on the error of [m]. *)
Fixpoint wrapO {A} (ctx : string) (o : Outcome A) : Outcome A :=
  match o with
  | Done (Ok a) st => Done (Ok a) st
  | Done (Err e) st => Done (Err (ErrWrap ctx e)) st
  | Await c st k => Await c st (fun r st' => wrapO ctx (k r st'))
  end.

Definition wrapErr {A} (ctx : string) (m : M A) : M A := fun st => wrapO ctx (m st).

Definition gets {A} (f : World D -> A) : M A :=
  fun st => Done (Ok (f (st_world st))) st.

Definition modify (f : World D -> World D) : M unit :=
  fun st => Done (Ok tt) (mkSt (f (st_world st)) (st_revert st)).

Definition set_db (db : list StorageVolume) (w : World D) : World D :=
  mkWorld db (w_images w) (w_pools w) (w_drv w) (w_unavailablePools w)
          (w_pipe w) (w_clock w) (w_trace w).

Definition set_drv (d : D) (w : World D) : World D :=
  mkWorld (w_db w) (w_images w) (w_pools w) d (w_unavailablePools w)
          (w_pipe w) (w_clock w) (w_trace w).

Definition set_pipe (p : Pipe) (w : World D) : World D :=
  mkWorld (w_db w) (w_images w) (w_pools w) (w_drv w) (w_unavailablePools w)
          p (w_clock w) (w_trace w).

Definition add_event (ev : Event) (w : World D) : World D :=
  mkWorld (w_db w) (w_images w) (w_pools w) (w_drv w) (w_unavailablePools w)
          (w_pipe w) (w_clock w) (w_trace w ++ [ev]).

Definition emit (ev : Event) : M unit := modify (add_event ev).

(** *** The reverter

    Modelled from the spec: the revert package is not part of the sources at
    hand; a compensating-action list is opened, every side effect appends
    its inverse, on failure the list runs in reverse (LIFO) order, and on
    success it is discarded. *)

Definition run_hooks (hooks : list Hook) (w : World D) : World D :=
  fold_left (fun w h => h w) hooks w.

Definition world_of {A} (o : Outcome A) : World D :=
  match o with
  | Done _ st => st_world st
  | Await _ st _ => st_world st
  end.

(** The closure [func() { _ = m }]. *)
Definition hook {A} (m : M A) : Hook := fun w => world_of (m (mkSt w [])).

(** [reverter.Add(f)]. *)
Definition reverter_Add (h : Hook) : M unit :=
  fun st => Done (Ok tt) (mkSt (st_world st) (st_revert st ++ [h])).

(** [reverter.Success()]. *)
Definition reverter_Success : M unit :=
  fun st => Done (Ok tt) (mkSt (st_world st) []).

(** [reverter.Fail()] when the function returns, and the reverter of the
    caller back in place. *)
Fixpoint failO {A} (saved : list Hook) (o : Outcome A) : Outcome A :=
  match o with
  | Done r st =>
    Done r (mkSt (run_hooks (rev (st_revert st)) (st_world st)) saved)
  | Await c st k => Await c st (fun r st' => failO saved (k r st'))
  end.

(** [reverter := revert.New(); defer reverter.Fail()] around the rest of the
    function: whatever way the body returns, the actions still on the list
    run, last added first. *)
Definition with_reverter {A} (body : M A) : M A :=
  fun st => failO (st_revert st) (body (mkSt (st_world st) [])).

(** A loop over a slice that stops at the first error. *)
Fixpoint forM_ {A} (l : list A) (f : A -> M unit) : M unit :=
  match l with
  | [] => ret tt
  | x :: rest => bind (f x) (fun _ => forM_ rest f)
  end.

(** *** Running one goroutine on its own

    A read finds the next frame already waiting at its end of the pipe, or
    fails: with the error of the cancelled context, or else with the error
    of reading a pipe nobody writes to. *)

Definition ErrClosedPipe : error := ErrNew "io: read/write on closed pipe".

Definition deliver (c : Endpoint) (st : St) : Res string * St :=
  let w := st_world st in
  match inbox c (w_pipe w) with
  | frame :: _ => (Ok frame, mkSt (set_pipe (pipe_pop c (w_pipe w)) w) (st_revert st))
  | [] => (Err (default ErrClosedPipe (pipe_err (w_pipe w))), st)
  end.

Fixpoint drive {A} (o : Outcome A) : Res A * World D :=
  match o with
  | Done r st => (r, st_world st)
  | Await c st k => let '(r, st') := deliver c st in drive (k r st')
  end.

(** Runs an operation of the backend from a world, with no reverter open. *)
Definition run {A} (m : M A) (w : World D) : Res A * World D :=
  drive (m (mkSt w [])).

(** *** Running two goroutines side by side

    The sender and the receiver of a migration run as two goroutines joined
    by their result channels; either one cancels the context of the pipe
    when it fails.  The scheduler runs a goroutine until it returns or
    blocks on a read, and wakes a blocked one when its frame is there or the
    context is cancelled. *)

Inductive Task :=
| Finished (r : Res unit)
| Waiting (c : Endpoint) (rv : list Hook) (k : Res string -> St -> Outcome unit).

Definition task_of (o : Outcome unit) : Task * World D :=
  match o with
  | Done (Ok a) st => (Finished (Ok a), st_world st)
  | Done (Err e) st =>
    (Finished (Err e), set_pipe (pipe_cancel (w_pipe (st_world st))) (st_world st))
  | Await c st k => (Waiting c (st_revert st) k, st_world st)
  end.

Definition resume (t : Task) (w : World D) : option (Outcome unit) :=
  match t with
  | Finished _ => None
  | Waiting c rv k =>
    match inbox c (w_pipe w) with
    | frame :: _ => Some (k (Ok frame) (mkSt (set_pipe (pipe_pop c (w_pipe w)) w) rv))
    | [] =>
      match pipe_err (w_pipe w) with
      | Some e => Some (k (Err e) (mkSt w rv))
      | None => None
      end
    end
  end.

Fixpoint sched (fuel : nat) (ta tb : Task) (w : World D) : Task * Task * World D :=
  match fuel with
  | O => (ta, tb, w)
  | S fuel' =>
    match resume ta w with
    | Some o => let '(ta', w') := task_of o in sched fuel' ta' tb w'
    | None =>
      match resume tb w with
      | Some o => let '(tb', w') := task_of o in sched fuel' ta tb' w'
      | None => (ta, tb, w)
      end
    end
  end.

(** A goroutine that is still blocked when nothing can wake it never
    returns, and neither does the function that waits for it. *)
Definition ErrBlockedForever : error := ErrNew "goroutine blocked forever".

Definition task_result (t : Task) : Res unit :=
  match t with
  | Finished r => r
  | Waiting _ _ _ => Err ErrBlockedForever
  end.

Definition schedFuel : nat := 16.

(** Both goroutines are started on a fresh pipe pair and joined. *)
Definition go2 (a b : M unit) : M (Res unit * Res unit) :=
  fun st =>
    let w0 := set_pipe emptyPipe (st_world st) in
    let '(ta, w1) := task_of (a (mkSt w0 [])) in
    let '(tb, w2) := task_of (b (mkSt w1 [])) in
    let '(ta', tb', w3) := sched schedFuel ta tb w2 in
    Done (Ok (task_result ta', task_result tb')) (mkSt w3 (st_revert st)).

End Monad.

Arguments Hook : clear implicits.
Arguments St : clear implicits.
Arguments Outcome : clear implicits.
Arguments M : clear implicits.
Arguments Done {D A} r st.
Arguments Await {D A} conn st k.
Arguments Task : clear implicits.

Notation "x <- m ;; k" := (bind m (fun x => k))
  (at level 100, m at next level, right associativity).
Notation "m ;; k" := (bind m (fun _ => k))
  (at level 100, right associativity).

(** ** Instances, the host and the wire format *)

Inductive InstanceType :=
| InstanceTypeAny
| InstanceTypeContainer
| InstanceTypeVM.

#[global] Instance InstanceType_eq_dec : EqDecision InstanceType.
Proof. solve_decision. Defined.

(** What the backend reads of an [instance.Instance]: [rootDisk] is the config
    of its root disk device as [GetRootDiskDevice] finds it. *)
Record Instance := {
  inst_project : string;
  inst_name : string;
  inst_type : InstanceType;
  inst_isSnapshot : bool;
  inst_isRunning : bool;
  inst_rootDisk : Res Config;
  inst_creationDate : Z;
}.

(** [InstanceTypeToVolumeType] and [InstanceContentType].
    Modelled from the spec: these helpers are not part of the sources at
    hand; a container is backed by a container volume with a filesystem, a
    virtual machine by a virtual-machine volume with a block device. *)
Definition InstanceTypeToVolumeType (t : InstanceType) : Res VolumeType :=
  match t with
  | InstanceTypeContainer => Ok VolumeTypeContainer
  | InstanceTypeVM => Ok VolumeTypeVM
  | InstanceTypeAny => Err (ErrNew "Invalid instance type")
  end.

Definition InstanceContentType (inst : Instance) : ContentType :=
  match inst_type inst with
  | InstanceTypeVM => ContentTypeBlock
  | _ => ContentTypeFS
  end.

(** The rest of the server the backend calls into: the file system (the
    symlinks of instances, the backup file) and the instance layer. *)
Class Host (D : Type) := {
  (** a file-system action of the backend on an instance's paths *)
  host_exec : D -> string -> string -> D * option error;
  (** [inst.Snapshots()] *)
  host_Snapshots : D -> Instance -> Res (list Instance);
  (** [snap.Delete(true)], which acts on the records and on the medium *)
  host_Delete : list StorageVolume -> D -> Instance
                -> list StorageVolume * D * option error;
}.

(** [json.Marshal] and [json.Unmarshal] of the two frames of the index
    header exchange, and the version of the index header both ends of a
    local copy announce ([localMigration.IndexHeaderVersion]). *)
Class Codec := {
  IndexHeaderVersion : Z;
  Marshal_Info : option MigrationInfo -> Res string;
  Unmarshal_Info : string -> Res MigrationInfo;
  Marshal_InfoResponse : InfoResponse -> Res string;
  Unmarshal_InfoResponse : string -> Res InfoResponse;
}.

(** ** The operations of the backend *)

Section Backend.

Context {D : Type} `{Driver D} `{Host D} `{Codec}.

Implicit Types (b : backend) (w : World D).

(** [Status]. *)
Definition Status b : string := b_status b.

(** [IsAvailable]: the pool is not in the process-wide set of unavailable
    pools. *)
Definition IsAvailable (poolName : string) w : bool :=
  bool_decide (poolName ∉ w_unavailablePools w).

(** [LocalStatus]. *)
Definition LocalStatus b w : string :=
  if negb (IsAvailable (b_name b) w) then StoragePoolStatusUnvailable
  else match b_nodes b !! b_nodeID b with
       | None => StoragePoolStatusUnknown
       | Some node => StoragePoolStateToAPIStatus (node_State node)
       end.

Definition ErrPoolPending : error := ErrNew "Specified pool is not fully created".

Definition ErrPoolUnavailable : error :=
  ErrStatus StatusServiceUnavailable "Storage pool is unavailable on this server".

(** [isStatusReady]. *)
Definition isStatusReady b : M D unit :=
  if decide (Status b = StoragePoolStatusPending) then fail ErrPoolPending
  else
    localStatus <- gets (LocalStatus b) ;;
    if decide (localStatus = StoragePoolStatusUnvailable) then fail ErrPoolUnavailable
    else ret tt.

(** [GetVolume]. *)
Definition GetVolume b (volType : VolumeType) (contentType : ContentType)
    (volName : string) (volConfig : Config) : Volume :=
  {| vol_pool := b_name b; vol_type := volType; vol_contentType := contentType;
     vol_name := volName; vol_config := volConfig |}.

(** *** The metadata store: [VolumeDBGet], [VolumeDBCreate], [VolumeDBDelete],
    [VolumeDBSnapshotsGet] and the volume update of a cluster transaction.

    Modelled from the spec: these functions are not part of the sources at
    hand; the store is a transactional create/get/delete/update of volume
    records scoped by (pool, project, name, type), a record that is not there
    is reported as not found, the content type and the config of a new
    record are validated before it is inserted, and a second record for the
    same key is a conflict.  The store itself never fails spuriously. *)

Definition row_is (pool project name : string) (t : VolumeType)
    (r : StorageVolume) : bool :=
  bool_decide (sv_pool r = pool) && bool_decide (sv_project r = project)
  && bool_decide (sv_name r = name) && bool_decide (sv_type r = t).

Definition db_lookup (pool project name : string) (t : VolumeType)
    (db : list StorageVolume) : option StorageVolume :=
  List.find (row_is pool project name t) db.

Definition db_remove (pool project name : string) (t : VolumeType)
    (db : list StorageVolume) : list StorageVolume :=
  List.filter (fun r => negb (row_is pool project name t r)) db.

Definition ErrVolumeNotFound : error :=
  ErrStatus StatusNotFound "Storage volume not found".

Definition ErrVolumeExists : error :=
  ErrStatus 409 "Storage volume already exists".

Definition VolumeDBGet b (projectName volumeName : string) (volumeType : VolumeType)
    : M D StorageVolume :=
  db <- gets w_db ;;
  match db_lookup (b_name b) projectName volumeName volumeType db with
  | Some r => ret r
  | None => fail ErrVolumeNotFound
  end.

Definition VolumeDBCreate b (projectName volumeName volumeDescription : string)
    (volumeType : VolumeType) (snapshot : bool) (volumeConfig : Config)
    (creationDate expiryDate : Z) (contentType : ContentType)
    (removeUnknownKeys hasSource : bool) : M D unit :=
  _ <- lift (ContentTypeOfName contentType) ;;
  check (drv_ValidateVolume
           (GetVolume b volumeType contentType volumeName volumeConfig)
           removeUnknownKeys) ;;
  db <- gets w_db ;;
  match db_lookup (b_name b) projectName volumeName volumeType db with
  | Some _ => fail ErrVolumeExists
  | None =>
    let row := {| sv_pool := b_name b; sv_project := projectName;
                  sv_name := volumeName; sv_type := volumeType;
                  sv_snapshot := snapshot; sv_description := volumeDescription;
                  sv_config := volumeConfig;
                  sv_contentType := contentType;
                  sv_creationDate := creationDate; sv_expiryDate := expiryDate |} in
    modify (fun w => set_db (w_db w ++ [row]) w) ;;
    emit (EvDBCreate row)
  end.

Definition VolumeDBDelete b (projectName volumeName : string)
    (volumeType : VolumeType) : M D unit :=
  modify (fun w => set_db (db_remove (b_name b) projectName volumeName volumeType
                                     (w_db w)) w) ;;
  emit (EvDBDelete (b_name b) projectName volumeName volumeType).

Definition is_snapshot_of (pool project volName : string) (t : VolumeType)
    (r : StorageVolume) : bool :=
  bool_decide (sv_pool r = pool) && bool_decide (sv_project r = project)
  && bool_decide (sv_type r = t) && sv_snapshot r
  && match GetParentAndSnapshotName (sv_name r) with
     | (parent, _, isSnap) => isSnap && bool_decide (parent = volName)
     end.

Definition VolumeDBSnapshotsGet b (projectName volumeName : string)
    (volumeType : VolumeType) : M D (list StorageVolume) :=
  db <- gets w_db ;;
  ret (List.filter (is_snapshot_of (b_name b) projectName volumeName volumeType) db).

Definition sv_update (description : string) (config : Config)
    (r : StorageVolume) : StorageVolume :=
  {| sv_pool := sv_pool r; sv_project := sv_project r; sv_name := sv_name r;
     sv_type := sv_type r; sv_snapshot := sv_snapshot r;
     sv_description := description; sv_config := config;
     sv_contentType := sv_contentType r; sv_creationDate := sv_creationDate r;
     sv_expiryDate := sv_expiryDate r |}.

(** [tx.UpdateStoragePoolVolume] inside a cluster transaction. *)
Definition UpdateStoragePoolVolume b (projectName volumeName : string)
    (volumeType : VolumeType) (description : string) (config : Config)
    : M D unit :=
  db <- gets w_db ;;
  match db_lookup (b_name b) projectName volumeName volumeType db with
  | None => fail ErrVolumeNotFound
  | Some _ =>
    modify (fun w =>
      set_db (List.map (fun r =>
                if row_is (b_name b) projectName volumeName volumeType r
                then sv_update description config r else r) (w_db w)) w) ;;
    emit (EvDBUpdate (b_name b) projectName volumeName volumeType description config)
  end.

(** [tx.GetImageFromAnyProject]: the type of the image with this
    fingerprint. *)
Definition GetImageFromAnyProject (fingerprint : string) : M D string :=
  images <- gets w_images ;;
  match images !! fingerprint with
  | Some t => ret t
  | None => fail (ErrStatus StatusNotFound "Image not found")
  end.

(** [LoadByName]. *)
Definition LoadByName (poolName : string) : M D backend :=
  pools <- gets w_pools ;;
  match pools !! poolName with
  | Some p => ret p
  | None => fail (ErrStatus StatusNotFound "Storage pool not found")
  end.

(** *** Calls into the collaborators *)

(** A call of the driver that acts on the medium. *)
Definition driver_exec (call : DriverCall) : M D unit :=
  fun st =>
    let w := st_world st in
    let '(d', e) := drv_exec (w_drv w) call in
    let w' := add_event (EvDriver call e) (set_drv d' w) in
    match e with
    | None => Done (Ok tt) (mkSt w' (st_revert st))
    | Some e => Done (Err e) (mkSt w' (st_revert st))
    end.

Definition driver_HasVolume (vol : Volume) : M D bool :=
  d <- gets w_drv ;; lift (drv_HasVolume d vol).

Definition driver_Snapshots (vol : Volume) : M D (list Volume) :=
  d <- gets w_drv ;; lift (drv_Snapshots d vol).

(** A file-system action of the backend: [ensureInstanceSymlink],
    [removeInstanceSymlink] and the like act on the paths of the instance
    and on nothing else. *)
Definition host_call (action name : string) : M D unit :=
  fun st =>
    let w := st_world st in
    let '(d', e) := host_exec (w_drv w) action name in
    let w' := add_event (EvHost action name e) (set_drv d' w) in
    match e with
    | None => Done (Ok tt) (mkSt w' (st_revert st))
    | Some e => Done (Err e) (mkSt w' (st_revert st))
    end.

Definition inst_Snapshots (inst : Instance) : M D (list Instance) :=
  d <- gets w_drv ;; lift (host_Snapshots d inst).

Definition inst_Delete (snap : Instance) : M D unit :=
  fun st =>
    let w := st_world st in
    let '(db', d', e) := host_Delete (w_db w) (w_drv w) snap in
    let w' := add_event (EvInstanceDelete (inst_name snap) e)
                (set_drv d' (set_db db' w)) in
    match e with
    | None => Done (Ok tt) (mkSt w' (st_revert st))
    | Some e => Done (Err e) (mkSt w' (st_revert st))
    end.

(** The authorizer: its errors are logged and never returned. *)
Definition Authorizer_AddStoragePoolVolume (projectName poolName volType volName
    location : string) : M D unit :=
  emit (EvAuthAdd projectName poolName volType volName location).

Definition Authorizer_DeleteStoragePoolVolume (projectName poolName volType volName
    location : string) : M D unit :=
  emit (EvAuthDelete projectName poolName volType volName location).

Definition SendLifecycle (action : string) (vol : Volume) : M D unit :=
  emit (EvLifecycle action vol).

(** The location recorded with the authorizer. *)
Definition location_of b : string :=
  if b_serverClustered b && negb (Remote (b_info b)) then b_serverName b else "".

(** The world after a [Write] and after a [Close] that succeed. *)
Definition after_Write (conn : Endpoint) (bs : string) (w : World D) : World D :=
  add_event (EvConnWrite conn bs) (set_pipe (pipe_write conn bs (w_pipe w)) w).

Definition after_Close (conn : Endpoint) (w : World D) : World D :=
  add_event (EvConnClose conn) (set_pipe (pipe_close conn (w_pipe w)) w).

(** The connection: [Write], [Close] and [io.ReadAll]. *)
Definition conn_Write (conn : Endpoint) (bs : string) : M D unit :=
  p <- gets w_pipe ;;
  match pipe_err p with
  | Some e => fail e
  | None =>
    modify (fun w => set_pipe (pipe_write conn bs (w_pipe w)) w) ;;
    emit (EvConnWrite conn bs)
  end.

Definition conn_Close (conn : Endpoint) : M D unit :=
  p <- gets w_pipe ;;
  match pipe_err p with
  | Some e => fail e
  | None =>
    modify (fun w => set_pipe (pipe_close conn (w_pipe w)) w) ;;
    emit (EvConnClose conn)
  end.

Definition conn_ReadAll (conn : Endpoint) : M D string :=
  emit (EvConnReadAll conn) ;;
  fun st => Await conn st (fun r st' => Done r st').

(** *** Custom volumes and images *)

Definition ErrCustomUnsupported : error :=
  ErrNew "Storage pool does not support custom volume type".

(** [CreateCustomVolume]. *)
Definition CreateCustomVolume b (projectName volName desc : string)
    (config : Config) (contentType : ContentType) : M D unit :=
  isStatusReady b ;;
  let volStorageName := project_StorageVolume projectName volName in
  let vol := GetVolume b VolumeTypeCustom contentType volStorageName config in
  let storagePoolSupported :=
    bool_decide (VolumeTypeCustom ∈ VolumeTypes (b_info b)) in
  if negb storagePoolSupported then fail ErrCustomUnsupported else
  with_reverter (
    now <- gets w_clock ;;
    VolumeDBCreate b projectName volName desc (vol_type vol) false
      (vol_config vol) now 0 (vol_contentType vol) false false ;;
    reverter_Add (hook (VolumeDBDelete b projectName volName (vol_type vol))) ;;
    driver_exec (CallCreateVolume vol None) ;;
    Authorizer_AddStoragePoolVolume projectName (b_name b)
      (Singular (vol_type vol)) volName (location_of b) ;;
    SendLifecycle "storage-volume-created" vol ;;
    reverter_Success).

(** [DeleteImage].  The advisory lock it takes has no effect on a run that
    is not interleaved with another one. *)
Definition DeleteImage b (fingerprint : string) : M D unit :=
  imgDBVol <- VolumeDBGet b ProjectDefaultName fingerprint VolumeTypeImage ;;
  contentType <- lift (ContentTypeOfName (sv_contentType imgDBVol)) ;;
  let vol := GetVolume b VolumeTypeImage contentType fingerprint (sv_config imgDBVol) in
  volExists <- driver_HasVolume vol ;;
  (if volExists then driver_exec (CallDeleteVolume vol) else ret tt) ;;
  VolumeDBDelete b ProjectDefaultName fingerprint (vol_type vol) ;;
  Authorizer_DeleteStoragePoolVolume ProjectDefaultName (b_name b)
    (Singular (vol_type vol)) fingerprint (location_of b) ;;
  SendLifecycle "storage-volume-deleted" vol.

(** [VolumeDBGet] where a missing record is not an error:
    [if err != nil && !response.IsNotFoundError(err) { return err }]. *)
Definition VolumeDBGet_opt b (projectName volumeName : string)
    (volumeType : VolumeType) : M D (option StorageVolume) :=
  r <- try (VolumeDBGet b projectName volumeName volumeType) ;;
  match r with
  | Ok dbVol => ret (Some dbVol)
  | Err e => if IsNotFoundError e then ret None else fail e
  end.

(** The part of [EnsureImage] that creates the image volume, from
    [reverter := revert.New()] on.  The closure that deletes the new volume
    holds the volume whose config map the function goes on to write to, so
    it sees the recorded size. *)
Definition EnsureImage_create b (fingerprint : string) (contentType : ContentType)
    (imgVol : Volume) : M D unit :=
  with_reverter (
    now <- gets w_clock ;;
    VolumeDBCreate b ProjectDefaultName fingerprint "" VolumeTypeImage false
      (vol_config imgVol) now 0 contentType false false ;;
    reverter_Add (hook (VolumeDBDelete b ProjectDefaultName fingerprint VolumeTypeImage)) ;;
    let location := location_of b in
    Authorizer_AddStoragePoolVolume ProjectDefaultName (b_name b)
      (Singular VolumeTypeImage) fingerprint location ;;
    reverter_Add (hook (Authorizer_DeleteStoragePoolVolume ProjectDefaultName
                          (b_name b) (Singular VolumeTypeImage) fingerprint location)) ;;
    driver_exec (CallCreateVolume imgVol (Some fingerprint)) ;;
    size <- gets (fun w => drv_FillerSize (w_drv w)) ;;
    let imgVol' :=
      if size =? 0 then imgVol
      else GetVolume b VolumeTypeImage contentType fingerprint
             (<["volatile.rootfs.size" := pretty size]> (vol_config imgVol)) in
    reverter_Add (hook (driver_exec (CallDeleteVolume imgVol'))) ;;
    (if size =? 0 then ret tt
     else UpdateStoragePoolVolume b ProjectDefaultName fingerprint VolumeTypeImage
            "" (vol_config imgVol')) ;;
    reverter_Success).

(** [EnsureImage].  The result of the part that looks at the volume on
    storage is the image volume to create, or nothing when the cached volume
    is kept ([return nil]). *)
Definition EnsureImage b (fingerprint : string) : M D unit :=
  isStatusReady b ;;
  if negb (OptimizedImages (b_info b)) then ret tt else
  image <- GetImageFromAnyProject fingerprint ;;
  let contentType :=
    if decide (image = "virtual-machine") then ContentTypeBlock else ContentTypeFS in
  imgDBVol <- VolumeDBGet_opt b ProjectDefaultName fingerprint VolumeTypeImage ;;
  let imgVol := GetVolume b VolumeTypeImage contentType fingerprint ∅ in
  cached <-
    match imgDBVol with
    | Some dbVol =>
      tmpImgVol <- lift (drv_FillVolumeConfig imgVol) ;;
      let imgVol := GetVolume b VolumeTypeImage contentType fingerprint (sv_config dbVol) in
      let blockModeChanged :=
        negb (Bool.eqb (drv_IsBlockBacked tmpImgVol) (drv_IsBlockBacked imgVol)) in
      let blockFSChanged :=
        drv_IsBlockBacked imgVol
        && negb (bool_decide (cfg (vol_config imgVol) "block.filesystem"
                              = cfg (vol_config tmpImgVol) "block.filesystem")) in
      if blockModeChanged || blockFSChanged then
        DeleteImage b fingerprint ;;
        ret (None, GetVolume b VolumeTypeImage contentType fingerprint ∅)
      else ret (Some dbVol, imgVol)
    | None => ret (None, imgVol)
    end ;;
  let '(imgDBVol, imgVol) := cached in
  volExists <- driver_HasVolume imgVol ;;
  next <-
    (if volExists then
       match imgDBVol with
       | Some _ =>
         newVolSize <- lift (drv_ConfigSizeFromSource imgVol imgVol) ;;
         let imgVol := Volume_SetConfigSize imgVol newVolSize in
         r <- try (driver_exec (CallSetVolumeQuota imgVol (Volume_ConfigSize imgVol) false)) ;;
         match r with
         | Err e =>
           if errors_Is_CannotBeShrunk e || errors_Is_NotSupported e then
             DeleteImage b fingerprint ;;
             ret (Some (GetVolume b VolumeTypeImage contentType fingerprint ∅))
           else fail e
         | Ok _ => ret None
         end
       | None =>
         wrapErr "Failed deleting leftover/partially unpacked image volume"
           (driver_exec (CallDeleteVolume imgVol)) ;;
         ret (Some imgVol)
       end
     else ret (Some imgVol)) ;;
  match next with
  | None => ret tt
  | Some imgVol => EnsureImage_create b fingerprint contentType imgVol
  end.


(** [DeleteCustomVolumeSnapshot]. *)
Definition DeleteCustomVolumeSnapshot b (projectName volName : string) : M D unit :=
  let isSnap := IsSnapshot volName in
  if negb isSnap then fail (ErrNew "Volume name must be a snapshot") else
  volume <- VolumeDBGet b projectName volName VolumeTypeCustom ;;
  contentType <- lift (ContentTypeOfName (sv_contentType volume)) ;;
  let volStorageName := project_StorageVolume projectName volName in
  let vol := GetVolume b VolumeTypeCustom contentType volStorageName ∅ in
  volExists <- driver_HasVolume vol ;;
  (if volExists then driver_exec (CallDeleteVolumeSnapshot vol) else ret tt) ;;
  VolumeDBDelete b projectName volName (vol_type vol) ;;
  SendLifecycle "storage-volume-snapshot-deleted" vol.

(** *** Refreshing and migrating custom volumes *)

(** [GenerateCustomVolumeBackupConfig]. *)
Definition GenerateCustomVolumeBackupConfig b (projectName volName : string)
    (snapshots : bool) : M D VolumeBackupConfig :=
  vol <- VolumeDBGet b projectName volName VolumeTypeCustom ;;
  if negb (bool_decide (sv_type vol = VolumeTypeCustom))
  then fail (ErrNew "Unsupported volume type") else
  if snapshots then
    dbVolSnaps <- VolumeDBSnapshotsGet b projectName (sv_name vol) VolumeTypeCustom ;;
    ret {| bc_volume := Some vol;
           bc_volumeSnapshots :=
             map (fun dbVolSnap =>
                    {| snap_name := (GetParentAndSnapshotName (sv_name dbVolSnap)).1.2;
                       snap_description := sv_description dbVolSnap;
                       snap_config := sv_config dbVolSnap;
                       snap_contentType := sv_contentType dbVolSnap;
                       snap_createdAt := sv_creationDate dbVolSnap;
                       snap_expiresAt := Some (sv_expiryDate dbVolSnap) |})
                 dbVolSnaps |}
  else ret {| bc_volume := Some vol; bc_volumeSnapshots := [] |}.

Record ComparableSnapshot := {
  cs_Name : string;
  cs_CreationDate : Z;
}.

Fixpoint indexes_from {A} (i : nat) (p : A -> bool) (l : list A) : list nat :=
  match l with
  | [] => []
  | x :: rest =>
    if p x then i :: indexes_from (S i) p rest else indexes_from (S i) p rest
  end.

Definition has_name (names : list ComparableSnapshot) (s : ComparableSnapshot)
    : bool :=
  existsb (fun t => String.eqb (cs_Name t) (cs_Name s)) names.

(** [CompareSnapshots]: the indexes of the source snapshots to sync and of
    the target snapshots to delete.
    Modelled from the spec: the function is not part of the sources at hand;
    the snapshot sets are reconciled by a comparison by name, only the
    snapshots the target lacks are transferred, and the snapshots present in
    the target but absent from the source are deleted from the target.  The
    spec gives no rule for [excludeOlder]; the comparison is the one for
    [excludeOlder = false]. *)
Definition CompareSnapshots (sourceSnapshots targetSnapshots : list ComparableSnapshot)
    (excludeOlder : bool) : list nat * list nat :=
  (indexes_from 0 (fun s => negb (has_name targetSnapshots s)) sourceSnapshots,
   indexes_from 0 (fun t => negb (has_name sourceSnapshots t)) targetSnapshots).

Definition ErrIndexOutOfRange : error := ErrNew "runtime error: index out of range".

(** [l[i]]. *)
Definition index {A} (l : list A) (i : nat) : M D A :=
  match l !! i with
  | Some x => ret x
  | None => fail ErrIndexOutOfRange
  end.

(** The elements of [l] at the indexes [idxs], in that order. *)
Fixpoint pick {A} (l : list A) (idxs : list nat) : M D (list A) :=
  match idxs with
  | [] => ret []
  | i :: rest =>
    x <- index l i ;;
    xs <- pick l rest ;;
    ret (x :: xs)
  end.

(** [dbVol == nil]. *)
Definition isNil {A} (o : option A) : bool :=
  match o with
  | None => true
  | Some _ => false
  end.

(** [migrationIndexHeaderSend]. *)
Definition migrationIndexHeaderSend (indexHeaderVersion : Z) (conn : Endpoint)
    (info : option MigrationInfo) : M D InfoResponse :=
  if 0 <? indexHeaderVersion then
    headerJSON <- wrapErr "Failed encoding migration index header"
                    (lift (Marshal_Info info)) ;;
    wrapErr "Failed sending migration index header" (conn_Write conn headerJSON) ;;
    wrapErr "Failed closing migration index header frame" (conn_Close conn) ;;
    respBuf <- wrapErr "Failed reading migration index header" (conn_ReadAll conn) ;;
    infoResp <- wrapErr "Failed decoding migration index header response"
                  (lift (Unmarshal_InfoResponse respBuf)) ;;
    match InfoResponse_Err infoResp with
    | Some _ => fail (ErrNew "Failed negotiating migration options: %!w(<nil>)")
    | None => ret infoResp
    end
  else ret {| resp_statusCode := 0; resp_error := ""; resp_refresh := None |}.

(** [migrationIndexHeaderReceive]. *)
Definition migrationIndexHeaderReceive (indexHeaderVersion : Z) (conn : Endpoint)
    (refresh : bool) : M D MigrationInfo :=
  if 0 <? indexHeaderVersion then
    buf <- wrapErr "Failed reading migration index header" (conn_ReadAll conn) ;;
    info <- wrapErr "Failed decoding migration index header"
              (lift (Unmarshal_Info buf)) ;;
    let infoResp := {| resp_statusCode := StatusOK; resp_error := "";
                       resp_refresh := Some refresh |} in
    headerJSON <- wrapErr "Failed encoding migration index header response"
                    (lift (Marshal_InfoResponse infoResp)) ;;
    wrapErr "Failed sending migration index header response"
            (conn_Write conn headerJSON) ;;
    wrapErr "Failed closing migration index header response frame"
            (conn_Close conn) ;;
    ret info
  else ret {| info_config := None |}.

(** [MigrateCustomVolume].  A [gmap] is never [nil], so of the checks on the
    migration info the one on the volume's config map has no counterpart. *)
Definition MigrateCustomVolume b (projectName : string) (conn : Endpoint)
    (args : VolumeSourceArgs) : M D unit :=
  let volStorageName := project_StorageVolume projectName (sa_name args) in
  contentType <- lift (ContentTypeOfName (sa_contentType args)) ;;
  match sa_info args with
  | None => fail (ErrNew "Migration info required")
  | Some info =>
    match info_config info with
    | None => fail (ErrNew "Volume config is required")
    | Some config =>
      match bc_volume config with
      | None => fail (ErrNew "Volume config is required")
      | Some volume =>
        if negb (length (sa_snapshots args) =? length (bc_volumeSnapshots config))%nat
        then fail (ErrNew "Requested snapshots count doesn't match volume snapshot config count")
        else
          resp <- migrationIndexHeaderSend (sa_indexHeaderVersion args) conn
                    (sa_info args) ;;
          let args :=
            match resp_refresh resp with
            | Some r => sa_with_refresh args r
            | None => args
            end in
          let vol := GetVolume b VolumeTypeCustom contentType volStorageName
                       (sv_config volume) in
          driver_exec (CallMigrateVolume vol args)
      end
    end
  end.

(** The config, description, expiry and creation date of a new snapshot
    record: those of the source snapshot of that name when the index header
    has it, and else the config of the parent volume and the description of
    the arguments. *)
Definition snapshotRecordFields (srcInfo : MigrationInfo) (vol : Volume)
    (args : VolumeTargetArgs) (snapName : string) : Config * string * Z * Z :=
  let defaults := (vol_config vol, ta_description args, 0, 0) in
  match info_config srcInfo with
  | None => defaults
  | Some config =>
    match List.find (fun srcSnap => String.eqb (snap_name srcSnap) snapName)
                    (bc_volumeSnapshots config) with
    | None => defaults
    | Some srcSnap =>
      (snap_config srcSnap, snap_description srcSnap,
       default 0 (snap_expiresAt srcSnap), snap_createdAt srcSnap)
    end
  end.

Definition ErrOnStorageNotInDB : error :=
  ErrNew "Volume already exists on storage but not in database".

Definition ErrInDBNotOnStorage : error :=
  ErrNew "Volume exists in database but not on storage".

Definition ErrAlreadyExistsOnTarget : error :=
  ErrNew "Cannot create volume, already exists on migration target storage".

(** The record of one snapshot in the loop of
    [CreateCustomVolumeFromMigration], and the compensating action that
    deletes it. *)
Definition migrationSnapshotRecord b (projectName : string) (vol : Volume)
    (args : VolumeTargetArgs) (srcInfo : MigrationInfo) (snapName : string)
    : M D unit :=
  let newSnapshotName := GetSnapshotVolumeName (ta_name args) snapName in
  let '(snapConfig, snapDescription, snapExpiryDate, snapCreationDate) :=
    snapshotRecordFields srcInfo vol args snapName in
  VolumeDBCreate b projectName newSnapshotName snapDescription (vol_type vol)
    true snapConfig snapCreationDate snapExpiryDate (vol_contentType vol)
    true true ;;
  reverter_Add (hook (VolumeDBDelete b projectName newSnapshotName (vol_type vol))).

(** The part of [CreateCustomVolumeFromMigration] that creates the records
    and the volume, from [reverter := revert.New()] on. *)
Definition CreateCustomVolumeFromMigration_create b (projectName : string)
    (vol : Volume) (args : VolumeTargetArgs) (srcInfo : MigrationInfo)
    : M D unit :=
  with_reverter (
    (if negb (ta_refresh args) then
       now <- gets w_clock ;;
       VolumeDBCreate b projectName (ta_name args) (ta_description args)
         (vol_type vol) false (vol_config vol) now 0 (vol_contentType vol)
         true true ;;
       reverter_Add (hook (VolumeDBDelete b projectName (ta_name args) (vol_type vol)))
     else ret tt) ;;
    forM_ (ta_snapshots args)
          (migrationSnapshotRecord b projectName vol args srcInfo) ;;
    driver_exec (CallCreateVolumeFromMigration vol args) ;;
    Authorizer_AddStoragePoolVolume projectName (b_name b)
      (Singular (vol_type vol)) (ta_name args) (location_of b) ;;
    SendLifecycle "storage-volume-created" vol ;;
    reverter_Success).

(** [CreateCustomVolumeFromMigration]. *)
Definition CreateCustomVolumeFromMigration b (projectName : string)
    (conn : Endpoint) (args : VolumeTargetArgs) : M D unit :=
  isStatusReady b ;;
  let storagePoolSupported :=
    bool_decide (VolumeTypeCustom ∈ VolumeTypes (b_info b)) in
  if negb storagePoolSupported then fail ErrCustomUnsupported else
  dbVol <- VolumeDBGet_opt b projectName (ta_name args) VolumeTypeCustom ;;
  let volumeConfig :=
    match dbVol with
    | Some dbVol => sv_config dbVol
    | None => ta_config args
    end in
  let volStorageName := project_StorageVolume projectName (ta_name args) in
  let vol := GetVolume b VolumeTypeCustom (ta_contentType args) volStorageName
               volumeConfig in
  volExists <- driver_HasVolume vol ;;
  if isNil dbVol && volExists then fail ErrOnStorageNotInDB else
  if negb (isNil dbVol) && negb volExists then fail ErrInDBNotOnStorage else
  args <- (if ta_refresh args && negb volExists then ret (ta_with_refresh args false)
           else if negb (ta_refresh args) && volExists
                then fail ErrAlreadyExistsOnTarget
                else ret args) ;;
  let vol :=
    if 0 <? ta_volumeSize args
    then Volume_SetConfigSize vol (pretty (ta_volumeSize args)) else vol in
  srcInfo <- migrationIndexHeaderReceive (ta_indexHeaderVersion args) conn
               (ta_refresh args) ;;
  CreateCustomVolumeFromMigration_create b projectName vol args srcInfo.

(** [VolumeSnapshotsToMigrationSnapshots].
    Modelled from the spec: the function is not part of the sources at hand;
    the arguments of the target carry one snapshot descriptor for each
    snapshot to transfer, which the target reads by name. *)
Definition VolumeSnapshotsToMigrationSnapshots
    (snapshots : list StorageVolumeSnapshot) : list string :=
  map snap_name snapshots.

(** The part of [RefreshCustomVolume] that reconciles the snapshots: it
    deletes the snapshots of the target that the comparison marks and gives
    the snapshots of the source to transfer. *)
Definition RefreshCustomVolume_snapshots b (projectName volName : string)
    (srcSnapshots : list StorageVolumeSnapshot) (excludeOlder : bool)
    : M D (list StorageVolumeSnapshot) :=
  let sourceSnapshotComparable :=
    map (fun sourceSnap => {| cs_Name := snap_name sourceSnap;
                              cs_CreationDate := snap_createdAt sourceSnap |})
        srcSnapshots in
  targetSnaps <- VolumeDBSnapshotsGet b projectName volName VolumeTypeCustom ;;
  let targetSnapshotsComparable :=
    map (fun targetSnap =>
           {| cs_Name := (GetParentAndSnapshotName (sv_name targetSnap)).1.2;
              cs_CreationDate := sv_creationDate targetSnap |})
        targetSnaps in
  let '(syncSourceSnapshotIndexes, deleteTargetSnapshotIndexes) :=
    CompareSnapshots sourceSnapshotComparable targetSnapshotsComparable excludeOlder in
  forM_ deleteTargetSnapshotIndexes (fun deleteTargetSnapIndex =>
    targetSnap <- index targetSnaps deleteTargetSnapIndex ;;
    DeleteCustomVolumeSnapshot b projectName (sv_name targetSnap)) ;;
  pick srcSnapshots syncSourceSnapshotIndexes.

Definition ErrRefreshContentType : error :=
  ErrNew "Volume of this content type cannot be refreshed".

(** The record of one snapshot in the same-pool loop of
    [RefreshCustomVolume], and the compensating action that deletes it. *)
Definition refreshSnapshotRecord b (projectName volName : string)
    (contentType : ContentType) (vol : Volume) (srcSnap : StorageVolumeSnapshot)
    : M D unit :=
  let newSnapshotName := GetSnapshotVolumeName volName (snap_name srcSnap) in
  let snapExpiryDate := default 0 (snap_expiresAt srcSnap) in
  VolumeDBCreate b projectName newSnapshotName (snap_description srcSnap)
    VolumeTypeCustom true (snap_config srcSnap) (snap_createdAt srcSnap)
    snapExpiryDate contentType false true ;;
  reverter_Add (hook (VolumeDBDelete b projectName newSnapshotName (vol_type vol))).

(** The part of [RefreshCustomVolume] that transfers the volume and the
    snapshots the reconciliation has left in the source config, from
    [volStorageName := project.StorageVolume(projectName, volName)] on. *)
Definition RefreshCustomVolume_transfer b (srcPool : backend)
    (projectName srcProjectName volName desc : string) (config : Config)
    (srcPoolName srcVolName : string) (snapshots : bool)
    (contentType : ContentType) (srcVolume : StorageVolume)
    (srcSnapshots : list StorageVolumeSnapshot) : M D unit :=
  let samePool := bool_decide (b_name b = srcPoolName) in
  let snapshotNames := if snapshots then map snap_name srcSnapshots else [] in
  let srcConfig := {| bc_volume := Some srcVolume;
                      bc_volumeSnapshots := srcSnapshots |} in
  let volStorageName := project_StorageVolume projectName volName in
  let vol := GetVolume b VolumeTypeCustom contentType volStorageName config in
  let srcVolStorageName := project_StorageVolume srcProjectName srcVolName in
  let srcVol := GetVolume srcPool VolumeTypeCustom contentType srcVolStorageName
                  (sv_config srcVolume) in
  if samePool then
    forM_ srcSnapshots
          (refreshSnapshotRecord b projectName volName contentType vol) ;;
    let srcSnapVols :=
      map (fun srcSnap =>
             let srcSnapVolumeName :=
               GetSnapshotVolumeName srcVolName (snap_name srcSnap) in
             let srcSnapVolStorageName :=
               project_StorageVolume projectName srcSnapVolumeName in
             GetVolume srcPool VolumeTypeCustom contentType
               srcSnapVolStorageName (snap_config srcSnap))
          srcSnapshots in
    driver_exec (CallRefreshVolume vol srcVol srcSnapVols false) ;;
    reverter_Success
  else
    migrationType <-
      wrapErr "Failed to negotiate copy migration type"
        (lift (drv_MatchTypes (b_name srcPool) (b_name b) contentType snapshots)) ;;
    volSize <-
      (if bool_decide (contentType = ContentTypeBlock)
       then d <- gets w_drv ;; lift (drv_BlockDiskSizeBytes d srcVol)
       else ret 0) ;;
    let migrationSnapshots :=
      if snapshots then VolumeSnapshotsToMigrationSnapshots srcSnapshots else [] in
    res <- go2
      (MigrateCustomVolume srcPool srcProjectName aEnd
         {| sa_indexHeaderVersion := IndexHeaderVersion;
            sa_name := srcVolName;
            sa_snapshots := snapshotNames;
            sa_contentType := contentType;
            sa_info := Some {| info_config := Some srcConfig |};
            sa_refresh := false;
            sa_migrationType := migrationType |})
      (CreateCustomVolumeFromMigration b projectName bEnd
         {| ta_indexHeaderVersion := IndexHeaderVersion;
            ta_name := volName;
            ta_description := desc;
            ta_config := config;
            ta_snapshots := migrationSnapshots;
            ta_contentType := contentType;
            ta_volumeSize := volSize;
            ta_refresh := true;
            ta_storagePool := srcPoolName;
            ta_migrationType := migrationType |}) ;;
    let '(aEndErr, bEndErr) := res in
    (match aEndErr with
     | Err _ => _ <- try (conn_Close aEnd) ;; ret tt
     | Ok _ => ret tt
     end) ;;
    let errs :=
      (match aEndErr with Err e => [e] | Ok _ => [] end
       ++ match bEndErr with Err e => [e] | Ok _ => [] end)%list in
    if (0 <? length errs)%nat
    then fail (Errorf_list "Refresh custom volume from copy failed" errs)
    else reverter_Success.

(** [RefreshCustomVolume].  A config that is [nil] is [None]. *)
Definition RefreshCustomVolume b (projectName srcProjectName volName desc : string)
    (config : option Config) (srcPoolName srcVolName : string)
    (snapshots excludeOlder : bool) : M D unit :=
  isStatusReady b ;;
  let srcProjectName :=
    if decide (srcProjectName = "") then projectName else srcProjectName in
  let samePool := bool_decide (b_name b = srcPoolName) in
  srcPool <- (if samePool then ret b else LoadByName srcPoolName) ;;
  srcConfig <- wrapErr "Failed generating volume refresh config"
                 (GenerateCustomVolumeBackupConfig srcPool srcProjectName
                    srcVolName snapshots) ;;
  match bc_volume srcConfig with
  | None => fail (ErrNew "runtime error: invalid memory address or nil pointer dereference")
  | Some srcVolume =>
    let config := default (sv_config srcVolume) config in
    let desc := if decide (desc = "") then sv_description srcVolume else desc in
    contentType <- lift (ContentTypeOfName (sv_contentType srcVolume)) ;;
    if negb (bool_decide (contentType = ContentTypeFS))
       && negb (bool_decide (contentType = ContentTypeBlock))
    then fail ErrRefreshContentType else
    let storagePoolSupported :=
      bool_decide (VolumeTypeCustom ∈ VolumeTypes (b_info b)) in
    if negb storagePoolSupported then fail ErrCustomUnsupported else
    with_reverter (
      srcSnapshots <-
        (if snapshots
         then RefreshCustomVolume_snapshots b projectName volName
                (bc_volumeSnapshots srcConfig) excludeOlder
         else ret (bc_volumeSnapshots srcConfig)) ;;
      RefreshCustomVolume_transfer b srcPool projectName srcProjectName volName
        desc config srcPoolName srcVolName snapshots contentType srcVolume
        srcSnapshots)
  end.

(** *** Instances *)

(** [applyInstanceRootDiskOverrides]: the fields of the root disk that
    override the config of the volume are [size] and [size.state]. *)
Definition applyInstanceRootDiskOverrides (inst : Instance) (vol : Volume)
    : Res Volume :=
  match inst_rootDisk inst with
  | Err e => Err e
  | Ok rootDiskConf =>
    let vol :=
      if decide (cfg rootDiskConf "size" = "") then vol
      else Volume_SetConfigSize vol (cfg rootDiskConf "size") in
    let vol :=
      if decide (cfg rootDiskConf "size.state" = "") then vol
      else Volume_SetConfigStateSize vol (cfg rootDiskConf "size.state") in
    Ok vol
  end.

(** [DeleteInstance]. *)
Definition DeleteInstance b (inst : Instance) : M D unit :=
  if inst_isSnapshot inst then fail (ErrNew "Instance must not be a snapshot") else
  volType <- lift (InstanceTypeToVolumeType (inst_type inst)) ;;
  dbVolSnaps <- VolumeDBSnapshotsGet b (inst_project inst) (inst_name inst) volType ;;
  if (0 <? length dbVolSnaps)%nat
  then fail (ErrNew "Cannot remove an instance volume that has snapshots") else
  let volStorageName := project_Instance (inst_project inst) (inst_name inst) in
  let contentType := InstanceContentType inst in
  let vol := GetVolume b volType contentType volStorageName ∅ in
  volExists <- driver_HasVolume vol ;;
  (if volExists
   then wrapErr "Error deleting storage volume" (driver_exec (CallDeleteVolume vol))
   else ret tt) ;;
  host_call "removeInstanceSymlink" (inst_name inst) ;;
  host_call "removeInstanceSnapshotSymlinkIfUnused" (inst_name inst) ;;
  VolumeDBDelete b (inst_project inst) (inst_name inst) (vol_type vol) ;;
  Authorizer_DeleteStoragePoolVolume (inst_project inst) (b_name b)
    (Singular (vol_type vol)) (inst_name inst) "".

(** [detectChangedConfig]: the keys whose value differs between the two
    configs, with their new value (empty for a deleted key), and whether all
    of them start with [user.]. *)
Definition detectChangedConfig (curConfig newConfig : Config) : Config * bool :=
  let changedConfig : Config :=
    merge (fun c n : option string =>
             if decide (default "" c = default "" n) then None
             else Some (default "" n))
          curConfig newConfig in
  (changedConfig,
   forallb (fun key => GoString.HasPrefix key "user.")
           (map fst (map_to_list changedConfig))).

(** The loop of [RestoreInstanceSnapshot] over the snapshots of the
    instance: those the error names are deleted. *)
Definition deleteBlockingSnapshots (snapErr_Snapshots : list string)
    (snaps : list Instance) : M D unit :=
  forM_ snaps (fun snap =>
    let '(_, snapName, _) := GetParentAndSnapshotName (inst_name snap) in
    if negb (bool_decide (snapName ∈ snapErr_Snapshots)) then ret tt
    else inst_Delete snap).

(** The snapshots of the instance that the error names: the spec's
    blocking snapshots, in the order [inst.Snapshots()] lists them. *)
Definition blockingSnapshots (names : list string) (snaps : list Instance)
    : list Instance :=
  List.filter (fun snap =>
                 bool_decide ((GetParentAndSnapshotName (inst_name snap)).1.2 ∈ names))
              snaps.

(** The part of [RestoreInstanceSnapshot] that restores the volume, from the
    first [RestoreVolume] on.  The path that restores at the second attempt
    returns without [reverter.Success()]. *)
Definition RestoreInstanceSnapshot_restore (inst : Instance) (vol : Volume)
    (snapshotName : string) : M D unit :=
  r <- try (driver_exec (CallRestoreVolume vol snapshotName)) ;;
  match r with
  | Err err =>
    match errors_As_DeleteSnapshots err with
    | Some snapErr_Snapshots =>
      snaps <- inst_Snapshots inst ;;
      deleteBlockingSnapshots snapErr_Snapshots snaps ;;
      driver_exec (CallRestoreVolume vol snapshotName) ;;
      ret tt
    | None => fail err
    end
  | Ok _ => reverter_Success
  end.

(** [RestoreInstanceSnapshot]. *)
Definition RestoreInstanceSnapshot b (inst src : Instance) : M D unit :=
  with_reverter (
    if negb (bool_decide (inst_type inst = inst_type src))
    then fail (ErrNew "Instance types must match") else
    if inst_isSnapshot inst then fail (ErrNew "Instance must not be snapshot") else
    if negb (inst_isSnapshot src)
    then fail (ErrNew "Source instance must be a snapshot") else
    if inst_isRunning inst
    then fail (ErrNew "Instance must not be running to restore") else
    volType <- lift (InstanceTypeToVolumeType (inst_type inst)) ;;
    let contentType := InstanceContentType inst in
    dbVol <- VolumeDBGet b (inst_project inst) (inst_name inst) volType ;;
    let volStorageName := project_Instance (inst_project inst) (inst_name inst) in
    let vol := GetVolume b volType contentType volStorageName (sv_config dbVol) in
    vol <- lift (applyInstanceRootDiskOverrides inst vol) ;;
    let '(_, snapshotName, isSnap) := GetParentAndSnapshotName (inst_name src) in
    if negb isSnap then fail (ErrNew "Volume name must be a snapshot") else
    srcDBVol <- VolumeDBGet b (inst_project src) (inst_name src) volType ;;
    let '(changedConfig, _) := detectChangedConfig (sv_config dbVol) (sv_config srcDBVol) in
    (if negb (bool_decide (changedConfig = ∅))
        || negb (bool_decide (sv_description dbVol = sv_description srcDBVol))
     then
       UpdateStoragePoolVolume b (inst_project inst) (inst_name inst) volType
         (sv_description srcDBVol) (sv_config srcDBVol) ;;
       reverter_Add (hook (UpdateStoragePoolVolume b (inst_project inst)
                             (inst_name inst) volType
                             (sv_description dbVol) (sv_config dbVol)))
     else ret tt) ;;
    RestoreInstanceSnapshot_restore inst vol snapshotName).

(** *** Checking the snapshots of a backup file *)

(** [instancetype.New].
    Modelled from the spec: the instancetype package is not part of the
    sources at hand; the instance types are container and virtual-machine. *)
Definition instancetype_New (name : string) : Res InstanceType :=
  if decide (name = "container") then Ok InstanceTypeContainer
  else if decide (name = "virtual-machine") then Ok InstanceTypeVM
  else Err (ErrNew "Invalid instance type").

(** An [api.InstanceSnapshot] of a backup config, and the fields of the
    config that [CheckInstanceBackupFileSnapshots] reads. *)
Record InstanceSnapshot := {
  is_name : string;
  is_createdAt : Z;
}.

Record BackupConfig := {
  bk_containerName : string;
  bk_containerType : string;
  bk_snapshots : list InstanceSnapshot;
}.

Definition snapshotOnly (vol : Volume) : string :=
  (GetParentAndSnapshotName (vol_name vol)).1.2.

Definition ErrCountMismatch (inConfig onStorage : nat) : error :=
  ErrWrap ("Snapshot count in backup config (" +:+ pretty inConfig
           +:+ ") and storage device (" +:+ pretty onStorage
           +:+ ") are different")
          ErrBackupSnapshotsMismatch.

Definition ErrNotInBackup (name : string) : error :=
  ErrWrap ("Snapshot " +:+ dquote +:+ name +:+ dquote
           +:+ " exists on storage device but not in backup config")
          ErrBackupSnapshotsMismatch.

Definition ErrNotOnStorage (name : string) : error :=
  ErrWrap ("Snapshot " +:+ dquote +:+ name +:+ dquote
           +:+ " exists in backup config but not on storage device")
          ErrBackupSnapshotsMismatch.

(** The second loop of [CheckInstanceBackupFileSnapshots]: the snapshots of
    the backup config that are on the storage device. *)
Fixpoint existingSnapshots (backupSnaps : list InstanceSnapshot)
    (driverSnapshots : list Volume) (deleteMissing : bool)
    : Res (list InstanceSnapshot) :=
  match backupSnaps with
  | [] => Ok []
  | backupFileSnap :: rest =>
    let onStorageDevice :=
      existsb (fun driverSnapVol =>
                 String.eqb (snapshotOnly driverSnapVol) (is_name backupFileSnap))
              driverSnapshots in
    if negb onStorageDevice && negb deleteMissing
    then Err (ErrNotOnStorage (is_name backupFileSnap))
    else
      match existingSnapshots rest driverSnapshots deleteMissing with
      | Err e => Err e
      | Ok found =>
        if onStorageDevice then Ok (backupFileSnap :: found) else Ok found
      end
  end.

(** The body of the first loop of [CheckInstanceBackupFileSnapshots], for
    one snapshot on the storage device. *)
Definition checkStorageSnapshot (backupSnaps : list InstanceSnapshot)
    (deleteMissing : bool) (driverSnapVol : Volume) : M D unit :=
  let driverSnapOnly := snapshotOnly driverSnapVol in
  let inBackupFile :=
    existsb (fun backupFileSnap => String.eqb driverSnapOnly (is_name backupFileSnap))
            backupSnaps in
  if inBackupFile then ret tt else
  if negb deleteMissing then fail (ErrNotInBackup driverSnapOnly) else
  wrapErr ("Failed to delete snapshot " +:+ dquote +:+ driverSnapOnly +:+ dquote)
          (driver_exec (CallDeleteVolumeSnapshot driverSnapVol)).

(** [CheckInstanceBackupFileSnapshots]. *)
Definition CheckInstanceBackupFileSnapshots b (backupConf : BackupConfig)
    (projectName : string) (deleteMissing : bool)
    : M D (list InstanceSnapshot) :=
  instType <- lift (instancetype_New (bk_containerType backupConf)) ;;
  volType <- lift (InstanceTypeToVolumeType instType) ;;
  let volStorageName := project_Instance projectName (bk_containerName backupConf) in
  let contentType :=
    if decide (volType = VolumeTypeVM) then ContentTypeBlock else ContentTypeFS in
  let vol := GetVolume b volType contentType volStorageName ∅ in
  driverSnapshots <- driver_Snapshots vol ;;
  if negb (length (bk_snapshots backupConf) =? length driverSnapshots)%nat
     && negb deleteMissing
  then fail (ErrCountMismatch (length (bk_snapshots backupConf))
                              (length driverSnapshots)) else
  forM_ driverSnapshots
        (checkStorageSnapshot (bk_snapshots backupConf) deleteMissing) ;;
  lift (existingSnapshots (bk_snapshots backupConf) driverSnapshots deleteMissing).

(** The snapshots on the storage device that the backup config does not
    have, and the snapshots of the backup config that are on the storage
    device: the two sets the spec speaks of. *)
Definition storageOnlySnapshots (backupSnaps : list InstanceSnapshot)
    (driverSnapshots : list Volume) : list Volume :=
  List.filter (fun v => negb (bool_decide (snapshotOnly v ∈ map is_name backupSnaps)))
              driverSnapshots.

Definition snapshotsInBoth (backupSnaps : list InstanceSnapshot)
    (driverSnapshots : list Volume) : list InstanceSnapshot :=
  List.filter (fun s => bool_decide (is_name s ∈ map snapshotOnly driverSnapshots))
              backupSnaps.

(** *** Restoring an instance from a backup *)



End Backend.

(** ** Families of operations *)

Section Families.

Context {D : Type} `{Driver D} `{Host D} `{Codec}.

Implicit Types (b : backend) (w : World D).

(** The create-style operations above that create one volume record and
    then the volume: [CreateCustomVolume], and [EnsureImage] from the point
    where it opens its reverter. *)
Inductive CreateOp :=
| OpCreateCustomVolume (projectName volName desc : string) (config : Config)
                       (contentType : ContentType)
| OpEnsureImage (fingerprint : string) (contentType : ContentType) (imgVol : Volume).

Definition create_run b (op : CreateOp) : M D unit :=
  match op with
  | OpCreateCustomVolume projectName volName desc config contentType =>
    CreateCustomVolume b projectName volName desc config contentType
  | OpEnsureImage fingerprint contentType imgVol =>
    EnsureImage_create b fingerprint contentType imgVol
  end.

(** The record the operation creates. *)
Definition create_row b (op : CreateOp) (now : Z) : StorageVolume :=
  match op with
  | OpCreateCustomVolume projectName volName desc config contentType =>
    {| sv_pool := b_name b; sv_project := projectName; sv_name := volName;
       sv_type := VolumeTypeCustom; sv_snapshot := false; sv_description := desc;
       sv_config := config; sv_contentType := contentType;
       sv_creationDate := now; sv_expiryDate := 0 |}
  | OpEnsureImage fingerprint contentType imgVol =>
    {| sv_pool := b_name b; sv_project := ProjectDefaultName; sv_name := fingerprint;
       sv_type := VolumeTypeImage; sv_snapshot := false; sv_description := "";
       sv_config := vol_config imgVol; sv_contentType := contentType;
       sv_creationDate := now; sv_expiryDate := 0 |}
  end.

(** The call of the driver that creates the volume. *)
Definition create_call b (op : CreateOp) : DriverCall :=
  match op with
  | OpCreateCustomVolume projectName volName desc config contentType =>
    CallCreateVolume
      (GetVolume b VolumeTypeCustom contentType
         (project_StorageVolume projectName volName) config) None
  | OpEnsureImage fingerprint contentType imgVol =>
    CallCreateVolume imgVol (Some fingerprint)
  end.

(** The checks the operation makes before it opens its reverter pass. *)
Definition create_ready b (op : CreateOp) w : Prop :=
  match op with
  | OpCreateCustomVolume _ _ _ _ _ =>
    Status b <> StoragePoolStatusPending
    /\ LocalStatus b w <> StoragePoolStatusUnvailable
    /\ VolumeTypeCustom ∈ VolumeTypes (b_info b)
  | OpEnsureImage _ _ _ => True
  end.

(** The side effects between the creation of the record and the call of the
    driver, and the compensating actions they have queued by then. *)
Definition create_between b (op : CreateOp) : list Event :=
  match op with
  | OpCreateCustomVolume _ _ _ _ _ => []
  | OpEnsureImage fingerprint _ _ =>
    [EvAuthAdd ProjectDefaultName (b_name b) (Singular VolumeTypeImage)
               fingerprint (location_of b)]
  end.

Definition create_undo_between b (op : CreateOp) : list Event :=
  match op with
  | OpCreateCustomVolume _ _ _ _ _ => []
  | OpEnsureImage fingerprint _ _ =>
    [EvAuthDelete ProjectDefaultName (b_name b) (Singular VolumeTypeImage)
                  fingerprint (location_of b)]
  end.





(** The operations above that begin with the [isStatusReady] check. *)
Inductive CheckedOp :=
| ChkCreateCustomVolume (projectName volName desc : string) (config : Config)
                        (contentType : ContentType)
| ChkEnsureImage (fingerprint : string)
| ChkRefreshCustomVolume (projectName srcProjectName volName desc : string)
                         (config : option Config) (srcPoolName srcVolName : string)
                         (snapshots excludeOlder : bool)
| ChkCreateCustomVolumeFromMigration (projectName : string) (conn : Endpoint)
                                     (args : VolumeTargetArgs).

Definition checked_run b (op : CheckedOp) : M D unit :=
  match op with
  | ChkCreateCustomVolume projectName volName desc config contentType =>
    CreateCustomVolume b projectName volName desc config contentType
  | ChkEnsureImage fingerprint => EnsureImage b fingerprint
  | ChkRefreshCustomVolume projectName srcProjectName volName desc config
                           srcPoolName srcVolName snapshots excludeOlder =>
    RefreshCustomVolume b projectName srcProjectName volName desc config
                        srcPoolName srcVolName snapshots excludeOlder
  | ChkCreateCustomVolumeFromMigration projectName conn args =>
    CreateCustomVolumeFromMigration b projectName conn args
  end.


End Families.

(** ** The snapshots of a refresh *)

Section Reconciliation.

Context {D : Type}.

Implicit Types (b : backend) (w : World D).

(** The snapshot-only name of a snapshot record. *)
Definition sv_snapshotOnly (r : StorageVolume) : string :=
  (GetParentAndSnapshotName (sv_name r)).1.2.

(** The snapshot records of the target volume. *)
Definition targetSnapshots b (projectName volName : string) w : list StorageVolume :=
  List.filter (is_snapshot_of (b_name b) projectName volName VolumeTypeCustom) (w_db w).





(** What a goroutine does to the records, whenever it is woken: [keepsDB]
    says it leaves them as they are each time it runs; [postDB] says that,
    started on the records [db0] and woken only while they are still [db0],
    it leaves them as they are until it returns, and that its result and the
    records it returns with satisfy [Q]. *)
Fixpoint keepsDB {A} (o : @Outcome D A) (db : list StorageVolume) : Prop :=
  match o with
  | Done _ st => w_db (st_world st) = db
  | Await _ st k =>
    w_db (st_world st) = db
    /\ forall r st', keepsDB (k r st') (w_db (st_world st'))
  end.




End Reconciliation.

(** ** The order of the side effects in a trace *)







(** ** A reference driver, host and wire format

    An in-memory storage medium that keeps to the contract of the driver
    interface: a call that succeeds has its effect on the medium and a call
    that fails has none.  The outcomes of the calls that act on the medium
    are given in advance, one for each call in turn, so that a failure can
    be injected at any step; once they are used up every call succeeds. *)

Definition VolKey : Type := string * VolumeType * string.

Definition vol_key (v : Volume) : VolKey := (vol_pool v, vol_type v, vol_name v).

Record Mem := {
  mem_vols : list VolKey;
  mem_outcomes : list (option error);
  mem_instSnapshots : list Instance;
}.

Definition mem_set_vols (vols : list VolKey) (d : Mem) : Mem :=
  {| mem_vols := vols; mem_outcomes := tail (mem_outcomes d);
     mem_instSnapshots := mem_instSnapshots d |}.

Definition mem_has (d : Mem) (k : VolKey) : bool :=
  bool_decide (k ∈ mem_vols d).

Definition mem_remove (k : VolKey) (vols : list VolKey) : list VolKey :=
  List.filter (fun k' => negb (bool_decide (k' = k))) vols.

(** The effect of a call that succeeds. *)
Definition mem_effect (call : DriverCall) (vols : list VolKey) : list VolKey :=
  match call with
  | CallCreateVolume v _ => vols ++ [vol_key v]
  | CallDeleteVolume v => mem_remove (vol_key v) vols
  | CallDeleteVolumeSnapshot v => mem_remove (vol_key v) vols
  | CallCreateVolumeFromMigration v args =>
    (if bool_decide (vol_key v ∈ vols) then vols else vols ++ [vol_key v])
    ++ map (fun snapName =>
              (vol_pool v, vol_type v, GetSnapshotVolumeName (vol_name v) snapName))
           (ta_snapshots args)
  | CallCreateVolumeFromBackup v => vols ++ [vol_key v]
  | CallRevertVolumeFromBackup v => mem_remove (vol_key v) vols
  | CallRefreshVolume v _ srcSnapVols _ =>
    vols ++ map (fun s => (vol_pool v, vol_type v,
                           GetSnapshotVolumeName (vol_name v)
                             (GetParentAndSnapshotName (vol_name s)).1.2))
                srcSnapVols
  | CallSetVolumeQuota _ _ _ | CallRestoreVolume _ _ | CallMigrateVolume _ _ => vols
  end.

Definition mem_exec (d : Mem) (call : DriverCall) : Mem * option error :=
  match mem_outcomes d with
  | Some e :: _ => (mem_set_vols (mem_vols d) d, Some e)
  | _ => (mem_set_vols (mem_effect call (mem_vols d)) d, None)
  end.

Definition mem_IsBlockBacked (v : Volume) : bool :=
  bool_decide (cfg (vol_config v) "block_mode" = "true").

Definition mem_Snapshots (d : Mem) (v : Volume) : list Volume :=
  omap (fun k : VolKey =>
          let '(pool, t, name) := k in
          match GetParentAndSnapshotName name with
          | (parent, _, true) =>
            if bool_decide (pool = vol_pool v) && bool_decide (t = vol_type v)
               && bool_decide (parent = vol_name v)
            then Some {| vol_pool := pool; vol_type := t;
                         vol_contentType := vol_contentType v;
                         vol_name := name; vol_config := ∅ |}
            else None
          | _ => None
          end)
       (mem_vols d).

(** The driver over the medium, for a pool whose defaults for new volumes
    are [poolDefaults]. *)
Definition MemDriverWith (poolDefaults : Config) : Driver Mem := {|
  drv_exec := mem_exec;
  drv_HasVolume d v := Ok (mem_has d (vol_key v));
  drv_FillVolumeConfig v :=
    Ok {| vol_pool := vol_pool v; vol_type := vol_type v;
          vol_contentType := vol_contentType v; vol_name := vol_name v;
          vol_config := vol_config v ∪ poolDefaults |};
  drv_ValidateVolume _ _ := None;
  drv_IsBlockBacked := mem_IsBlockBacked;
  drv_ConfigSizeFromSource v _ := Ok (Volume_ConfigSize v);
  drv_Snapshots d v := Ok (mem_Snapshots d v);
  drv_FillerSize _ := 0;
  drv_BlockDiskSizeBytes _ _ := Ok 0;
  drv_MatchTypes _ _ _ _ := Ok "rsync";
|}.

#[global] Instance MemDriver : Driver Mem := MemDriverWith ∅.

(** A host whose file-system actions succeed, whose instances have the
    snapshots listed in the state, and where deleting a snapshot instance
    takes it off that list. *)
#[global] Instance MemHost : Host Mem := {|
  host_exec d _ _ := (d, None);
  host_Snapshots d _ := Ok (mem_instSnapshots d);
  host_Delete db d snap :=
    (db,
     {| mem_vols := mem_vols d; mem_outcomes := mem_outcomes d;
        mem_instSnapshots :=
          List.filter (fun s => negb (String.eqb (inst_name s) (inst_name snap)))
                      (mem_instSnapshots d) |},
     None);
|}.

(** A wire format for one exchange: the index header stands for the
    migration info [info0], and the response frame spells out its refresh
    flag. *)
Definition testCodec (info0 : MigrationInfo) : Codec := {|
  IndexHeaderVersion := 1;
  Marshal_Info _ := Ok "header";
  Unmarshal_Info frame :=
    if String.eqb frame "header" then Ok info0
    else Err (ErrNew "unexpected end of JSON input");
  Marshal_InfoResponse r :=
    Ok (match resp_refresh r with
        | Some true => "refresh"
        | Some false => "norefresh"
        | None => "ok"
        end);
  Unmarshal_InfoResponse frame :=
    if String.eqb frame "refresh"
    then Ok {| resp_statusCode := StatusOK; resp_error := ""; resp_refresh := Some true |}
    else if String.eqb frame "norefresh"
    then Ok {| resp_statusCode := StatusOK; resp_error := ""; resp_refresh := Some false |}
    else if String.eqb frame "ok"
    then Ok {| resp_statusCode := StatusOK; resp_error := ""; resp_refresh := None |}
    else Err (ErrNew "unexpected end of JSON input");
|}.

(** A pool that is created and available, on a driver with optimized images
    that supports custom volumes and images. *)
Definition testPool (name : string) : backend := {|
  b_name := name;
  b_status := StoragePoolStatusCreated;
  b_nodes := {[ 1 := {| node_State := 1 |} ]};
  b_nodeID := 1;
  b_info := {| Remote := false; OptimizedImages := true;
               VolumeTypes := [VolumeTypeCustom; VolumeTypeImage;
                               VolumeTypeContainer; VolumeTypeVM] |};
  b_serverClustered := false;
  b_serverName := "server1";
|}.

Definition testMem (vols : list VolKey) (outcomes : list (option error)) : Mem := {|
  mem_vols := vols;
  mem_outcomes := outcomes;
  mem_instSnapshots := [];
|}.

Definition testWorld (db : list StorageVolume) (d : Mem) : World Mem := {|
  w_db := db;
  w_images := ∅;
  w_pools := {[ "p1" := testPool "p1"; "p2" := testPool "p2" ]};
  w_drv := d;
  w_unavailablePools := ∅;
  w_pipe := emptyPipe;
  w_clock := 1000;
  w_trace := [];
|}.

(** A pool whose creation has failed. *)
Definition erroredPool (name : string) : backend := {|
  b_name := name;
  b_status := StoragePoolStatusErrored;
  b_nodes := {[ 1 := {| node_State := 1 |} ]};
  b_nodeID := 1;
  b_info := b_info (testPool name);
  b_serverClustered := false;
  b_serverName := "server1";
|}.

(** A pool that is still pending. *)
Definition pendingPool (name : string) : backend := {|
  b_name := name;
  b_status := StoragePoolStatusPending;
  b_nodes := {[ 1 := {| node_State := 0 |} ]};
  b_nodeID := 1;
  b_info := b_info (testPool name);
  b_serverClustered := false;
  b_serverName := "server1";
|}.

#[global] Instance testCodec0 : Codec := testCodec {| info_config := None |}.

Definition set_images {D} (images : gmap string string) (w : World D) : World D :=
  mkWorld (w_db w) images (w_pools w) (w_drv w) (w_unavailablePools w)
          (w_pipe w) (w_clock w) (w_trace w).

(** The record of an image volume of pool p1. *)
Definition testImageRow (fingerprint : string) (config : Config) : StorageVolume := {|
  sv_pool := "p1"; sv_project := ProjectDefaultName; sv_name := fingerprint;
  sv_type := VolumeTypeImage; sv_snapshot := false; sv_description := "";
  sv_config := config; sv_contentType := ContentTypeFS;
  sv_creationDate := 0; sv_expiryDate := 0;
|}.

(** A world with the image fp of a container, its record with the given
    config, and its volume on storage. *)
Definition testImageWorld (config : Config) (outcomes : list (option error))
    : World Mem :=
  set_images {[ "fp" := "container" ]}
    (testWorld [testImageRow "fp" config]
               (testMem [("p1", VolumeTypeImage, "fp")] outcomes)).

(** A container of the default project, or one of its snapshots. *)
Definition testInstance (name : string) : Instance := {|
  inst_project := ProjectDefaultName; inst_name := name;
  inst_type := InstanceTypeContainer; inst_isSnapshot := IsSnapshot name;
  inst_isRunning := false; inst_rootDisk := Ok ∅; inst_creationDate := 0;
|}.

(** A medium on which the container c1 has the given snapshots. *)
Definition testMemSnapshots (snapshots : list string)
    (outcomes : list (option error)) : Mem := {|
  mem_vols := [];
  mem_outcomes := outcomes;
  mem_instSnapshots := map (fun s => testInstance (GetSnapshotVolumeName "c1" s)) snapshots;
|}.

(** The backup config of the container c1 with the given snapshots, and a
    medium that holds the volume of c1 and the given snapshots of it. *)
Definition testBackupConfig (snapshots : list string) : BackupConfig := {|
  bk_containerName := "c1";
  bk_containerType := "container";
  bk_snapshots := map (fun s => {| is_name := s; is_createdAt := 0 |}) snapshots;
|}.

Definition testMemInstance (snapshots : list string) : Mem :=
  testMem (("p1", VolumeTypeContainer, "c1")
           :: map (fun s => ("p1", VolumeTypeContainer, GetSnapshotVolumeName "c1" s))
                  snapshots) [].


(** The record of a custom volume of the default project, or of one of its
    snapshots, and the snapshot of a source config taken from such a
    record. *)
Definition testVolumeRow (pool name : string) : StorageVolume := {|
  sv_pool := pool; sv_project := ProjectDefaultName; sv_name := name;
  sv_type := VolumeTypeCustom; sv_snapshot := IsSnapshot name;
  sv_description := ""; sv_config := ∅; sv_contentType := ContentTypeFS;
  sv_creationDate := 0; sv_expiryDate := 0;
|}.




(** ** Configs of volumes: initial values and optimized images *)

(** [s[n:]] for [n] within the string. *)
Fixpoint string_drop (n : nat) (s : string) : string :=
  match n, s with
  | O, _ => s
  | S n', String _ rest => string_drop n' rest
  | S _, EmptyString => EmptyString
  end.

(** [strings.Cut(s, sep)]: the text before and after the first instance of
    [sep] in [s], and whether [sep] was found; [s], the empty string and
    false when it is not there. *)
Fixpoint strings_Cut (s sep : string) : string * string * bool :=
  if GoString.HasPrefix s sep
  then (EmptyString, string_drop (String.length sep) s, true)
  else match s with
       | EmptyString => (s, EmptyString, false)
       | String c rest =>
         let '(before, after, found) := strings_Cut rest sep in
         if found then (String c before, after, true)
         else (s, EmptyString, false)
       end.

(** The body of the loop of [applyInstanceRootDiskInitialValues]. *)
Definition applyInitialValue (volConfig : Config) (kv : string * string) : Config :=
  let '(prefix, newKey, found) := strings_Cut kv.1 "initial." in
  if found && bool_decide (prefix = "") then <[newKey := kv.2]> volConfig
  else volConfig.

(** The loop [for k, v := range rootDiskConf], which visits the entries of
    the map in an order of Go's choosing. *)
Definition applyInitialValues_range (entries : list (string * string))
    (volConfig : Config) : Config :=
  fold_left applyInitialValue entries volConfig.

(** [applyInstanceRootDiskInitialValues]: the map the function has written
    to, or the error of [GetRootDiskDevice]. *)
Definition applyInstanceRootDiskInitialValues (inst : Instance) (volConfig : Config)
    : Res Config :=
  match inst_rootDisk inst with
  | Err e => Err e
  | Ok rootDiskConf =>
    Ok (applyInitialValues_range (map_to_list rootDiskConf) volConfig)
  end.

Section OptimizedImages.

Context {D : Type} `{Driver D}.

(** [volumeConfigsMatch]. *)
Definition volumeConfigsMatch (vol1 vol2 : Volume) : bool :=
  let blockModeChanged :=
    negb (Bool.eqb (drv_IsBlockBacked vol1) (drv_IsBlockBacked vol2)) in
  let blockFSChanged :=
    drv_IsBlockBacked vol1
    && negb (bool_decide (cfg (vol_config vol1) "block.filesystem"
                          = cfg (vol_config vol2) "block.filesystem")) in
  let blockSizeChanged :=
    drv_IsBlockBacked vol1
    && negb (bool_decide (cfg (vol_config vol1) "zfs.blocksize"
                          = cfg (vol_config vol2) "zfs.blocksize")) in
  negb blockModeChanged && negb blockFSChanged && negb blockSizeChanged.

(** [shouldUseOptimizedImage]. *)
Definition shouldUseOptimizedImage (b : backend) (fingerprint : string)
    (contentType : ContentType) (volConfig : Config) : M D bool :=
  let canOptimizeImage := OptimizedImages (b_info b) in
  if negb canOptimizeImage || bool_decide (volConfig = ∅) then ret canOptimizeImage else
  newImgVol <- lift (drv_FillVolumeConfig
                       (GetVolume b VolumeTypeImage contentType fingerprint volConfig)) ;;
  poolDefaultImgVol <- lift (drv_FillVolumeConfig
                               (GetVolume b VolumeTypeImage contentType fingerprint ∅)) ;;
  if negb (volumeConfigsMatch newImgVol poolDefaultImgVol) then ret false else
  imgDBVol <- VolumeDBGet_opt b ProjectDefaultName fingerprint VolumeTypeImage ;;
  match imgDBVol with
  | Some dbVol =>
    let imgVol := GetVolume b VolumeTypeImage contentType fingerprint (sv_config dbVol) in
    if negb (volumeConfigsMatch newImgVol imgVol) then ret false else ret true
  | None => ret true
  end.

End OptimizedImages.

(** ** Further operations of the backend *)

(** The parts of the server and of the package that the operations below
    consume and that lie outside the orchestrator: the mount of the pool and
    the snapshot of a volume by the driver, paths and directories, and the
    check of the instances that use a volume. *)
Class PoolHost (D : Type) := {
  (** [Mount] and [Unmount] of the driver: whether it did the mount or the
      unmount itself *)
  drv_Mount : D -> D * Res bool;
  drv_Unmount : D -> D * Res bool;
  (** [CreateVolumeSnapshot] of the driver: the new state of the medium and
      the error returned *)
  drv_CreateVolumeSnapshot : D -> Volume -> D * option error;
  (** [drivers.GetPoolMountPath] *)
  GetPoolMountPath : string -> string;
  (** [drivers.BaseDirectories] *)
  BaseDirectories : VolumeType -> list string;
  (** [filepath.Join] of two elements *)
  filepath_Join : string -> string -> string;
  (** [internalUtil.VarPath] *)
  VarPath : list string -> string;
  (** [internalUtil.IsDir] and [util.PathExists] *)
  IsDir : D -> string -> bool;
  PathExists : D -> string -> bool;
  (** [os.IsExist] *)
  os_IsExist : error -> bool;
  (** [VolumeTypeToDBType] *)
  VolumeTypeToDBType : VolumeType -> Res Z;
  (** [VolumeUsedByInstanceDevices] for instances only: the instances whose
      devices use the volume, each as [instance.Load] gives it; the function
      hands them to its callback one after the other and returns the first
      error of the callback *)
  VolumeUsedByInstanceDevices : D -> string -> string -> StorageVolume
                                -> Res (list (Res Instance));
}.

Definition set_unavailablePools {D} (pools : gset string) (w : World D) : World D :=
  mkWorld (w_db w) (w_images w) (w_pools w) (w_drv w) pools
          (w_pipe w) (w_clock w) (w_trace w).

Section MoreOperations.

Context {D : Type} `{Driver D} `{Host D} `{PoolHost D}.

Implicit Types (b : backend) (w : World D).

(** *** Mounting the pool *)

(** [b.driver.Mount()] and [b.driver.Unmount()]. *)
Definition driver_Mount : M D bool :=
  fun st =>
    let w := st_world st in
    let '(d', r) := drv_Mount (w_drv w) in
    Done r (mkSt (set_drv d' w) (st_revert st)).

Definition driver_Unmount : M D bool :=
  fun st =>
    let w := st_world st in
    let '(d', r) := drv_Unmount (w_drv w) in
    Done r (mkSt (set_drv d' w) (st_revert st)).

(** [Unmount]. *)
Definition Unmount b : M D bool := driver_Unmount.

(** One directory of [createStorageStructure]: an error of [os.MkdirAll]
    that says the directory exists is no error. *)
Definition createBaseDirectory (path name : string) : M D unit :=
  let path := filepath_Join path name in
  r <- try (host_call "os.MkdirAll" path) ;;
  match r with
  | Err err =>
    if negb (os_IsExist err)
    then fail (ErrWrap ("Failed to create directory " +:+ dquote +:+ path +:+ dquote) err)
    else ret tt
  | Ok _ => ret tt
  end.

(** [createStorageStructure]. *)
Definition createStorageStructure b (path : string) : M D unit :=
  forM_ (VolumeTypes (b_info b)) (fun volType =>
    forM_ (BaseDirectories volType) (createBaseDirectory path)).

(** The closure that [Mount] adds to its reverter first: the pool is put
    into the process-wide set of unavailable pools. *)
Definition markUnavailable b : Hook D :=
  fun w => set_unavailablePools ({[ b_name b ]} ∪ w_unavailablePools w) w.

(** [Mount]. *)
Definition Mount b : M D bool :=
  with_reverter (
    reverter_Add (markUnavailable b) ;;
    let path := GetPoolMountPath (b_name b) in
    isDir <- gets (fun w => IsDir (w_drv w) path) ;;
    (if negb isDir
     then wrapErr ("Failed to create storage pool directory "
                   +:+ dquote +:+ path +:+ dquote)
            (host_call "os.MkdirAll" path)
     else ret tt) ;;
    ourMount <- driver_Mount ;;
    (if ourMount then reverter_Add (hook (Unmount b)) else ret tt) ;;
    createStorageStructure b path ;;
    reverter_Success ;;
    modify (fun w => set_unavailablePools (w_unavailablePools w ∖ {[ b_name b ]}) w) ;;
    ret ourMount).

(** *** Instances *)




(** [DeleteInstanceSnapshot]. *)
Definition DeleteInstanceSnapshot b (inst : Instance) : M D unit :=
  let '(parentName, snapName, isSnap) := GetParentAndSnapshotName (inst_name inst) in
  if negb (inst_isSnapshot inst) || negb isSnap
  then fail (ErrNew "Instance must be a snapshot") else
  volType <- lift (InstanceTypeToVolumeType (inst_type inst)) ;;
  let contentType := InstanceContentType inst in
  let parentStorageName := project_Instance (inst_project inst) parentName in
  let snapVolName := GetSnapshotVolumeName parentStorageName snapName in
  let vol := GetVolume b volType contentType snapVolName ∅ in
  volExists <- driver_HasVolume vol ;;
  (if volExists then driver_exec (CallDeleteVolumeSnapshot vol) else ret tt) ;;
  host_call "removeInstanceSnapshotSymlinkIfUnused" (inst_name inst) ;;
  VolumeDBDelete b (inst_project inst) (inst_name inst) (vol_type vol).

(** *** Images *)

(** [updateVolumeDescriptionOnly]; [newConfig] is [None] for a nil map. *)
Definition updateVolumeDescriptionOnly b (projectName volName : string)
    (volType : VolumeType) (newDesc : string) (newConfig : option Config)
    : M D unit :=
  _ <- lift (VolumeTypeToDBType volType) ;;
  curVol <- VolumeDBGet b projectName volName volType ;;
  match newConfig with
  | Some newConfig =>
    let '(changedConfig, _) := detectChangedConfig (sv_config curVol) newConfig in
    if negb (bool_decide (changedConfig = ∅))
    then fail (ErrNew "Volume config is not editable") else ret tt
  | None => ret tt
  end ;;
  (if negb (bool_decide (newDesc = sv_description curVol))
   then UpdateStoragePoolVolume b projectName volName volType newDesc (sv_config curVol)
   else ret tt) ;;
  contentType <- lift (ContentTypeOfName (sv_contentType curVol)) ;;
  let vol := GetVolume b (sv_type curVol) contentType volName (default ∅ newConfig) in
  if negb (IsSnapshot (vol_name vol)) then SendLifecycle "storage-volume-updated" vol
  else SendLifecycle "storage-volume-snapshot-updated" vol.

(** [UpdateImage]. *)
Definition UpdateImage b (fingerprint newDesc : string) (newConfig : option Config)
    : M D unit :=
  updateVolumeDescriptionOnly b ProjectDefaultName fingerprint VolumeTypeImage
    newDesc newConfig.

(** *** Custom volumes *)

(** The parent part of the name of a record: the name itself when it is
    not the name of a snapshot. *)
Definition parent_of (r : StorageVolume) : string :=
  (GetParentAndSnapshotName (sv_name r)).1.1.

(** [DeleteCustomVolume]. *)
Definition DeleteCustomVolume b (projectName volName : string) : M D unit :=
  let '(_, _, isSnap) := GetParentAndSnapshotName volName in
  if isSnap then fail (ErrNew "Volume name cannot be a snapshot") else
  snapshots <- VolumeDBSnapshotsGet b projectName volName VolumeTypeCustom ;;
  forM_ snapshots (fun snapshot =>
    DeleteCustomVolumeSnapshot b projectName (sv_name snapshot)) ;;
  let volStorageName := project_StorageVolume projectName volName in
  curVol <- VolumeDBGet b projectName volName VolumeTypeCustom ;;
  contentType <- lift (ContentTypeOfName (sv_contentType curVol)) ;;
  let vol := GetVolume b VolumeTypeCustom contentType volStorageName ∅ in
  volExists <- driver_HasVolume vol ;;
  (if volExists then driver_exec (CallDeleteVolume vol) else ret tt) ;;
  let backupsPath :=
    VarPath ["backups"; "custom"; b_name b; project_StorageVolume projectName volName] in
  pathExists <- gets (fun w => PathExists (w_drv w) backupsPath) ;;
  (if pathExists then host_call "os.RemoveAll" backupsPath else ret tt) ;;
  VolumeDBDelete b projectName volName (vol_type vol) ;;
  Authorizer_DeleteStoragePoolVolume projectName (b_name b)
    (Singular (vol_type vol)) volName (location_of b) ;;
  SendLifecycle "storage-volume-deleted" vol.

(** The callback that [RestoreCustomVolume] hands to
    [VolumeUsedByInstanceDevices]. *)
Definition checkNotRunning (loaded : Res Instance) : M D unit :=
  inst <- lift loaded ;;
  if inst_isRunning inst
  then fail (ErrNew "Cannot restore custom volume used by running instances")
  else ret tt.

(** The loop of [RestoreCustomVolume] over the snapshots the error names. *)
Definition deleteNamedSnapshots b (projectName volName : string)
    (snapErr_Snapshots : list string) : M D unit :=
  forM_ snapErr_Snapshots (fun snapName =>
    DeleteCustomVolumeSnapshot b projectName (volName +:+ "/" +:+ snapName)).

(** [RestoreCustomVolume].  After the second [RestoreVolume] the function
    returns the error it holds, nil when the call succeeded, from inside
    the block of the first error. *)
Definition RestoreCustomVolume b (projectName volName snapshotName : string)
    : M D unit :=
  if IsSnapshot volName then fail (ErrNew "Volume cannot be snapshot") else
  if IsSnapshot snapshotName then fail (ErrNew "Invalid snapshot name") else
  curVol <- VolumeDBGet b projectName volName VolumeTypeCustom ;;
  d <- gets w_drv ;;
  usedBy <- lift (VolumeUsedByInstanceDevices d (b_name b) projectName curVol) ;;
  forM_ usedBy checkNotRunning ;;
  contentType <- lift (ContentTypeOfName (sv_contentType curVol)) ;;
  let volStorageName := project_StorageVolume projectName volName in
  let vol := GetVolume b VolumeTypeCustom contentType volStorageName (sv_config curVol) in
  r <- try (driver_exec (CallRestoreVolume vol snapshotName)) ;;
  match r with
  | Err err =>
    match errors_As_DeleteSnapshots err with
    | Some snapErr_Snapshots =>
      deleteNamedSnapshots b projectName volName snapErr_Snapshots ;;
      driver_exec (CallRestoreVolume vol snapshotName)
    | None => fail err
    end
  | Ok _ => SendLifecycle "storage-volume-restored" vol
  end.

End MoreOperations.

(** A host for the reference medium: the driver mounts the pool itself and
    takes a snapshot unless the next outcome given in advance is an error,
    every path is a directory that exists, and the instances that use a
    volume are [usedBy]. *)
Definition MemPoolHostWith (usedBy : list (Res Instance)) : PoolHost Mem := {|
  drv_Mount d :=
    match mem_outcomes d with
    | Some e :: _ => (mem_set_vols (mem_vols d) d, Err e)
    | _ => (mem_set_vols (mem_vols d) d, Ok true)
    end;
  drv_Unmount d := (d, Ok true);
  drv_CreateVolumeSnapshot d v :=
    match mem_outcomes d with
    | Some e :: _ => (mem_set_vols (mem_vols d) d, Some e)
    | _ => (mem_set_vols (mem_vols d ++ [vol_key v]) d, None)
    end;
  GetPoolMountPath name := "/var/lib/incus/storage-pools/" +:+ name;
  BaseDirectories t :=
    match t with
    | VolumeTypeBucket => ["buckets"]
    | VolumeTypeContainer => ["containers"; "containers-snapshots"]
    | VolumeTypeCustom => ["custom"; "custom-snapshots"]
    | VolumeTypeImage => ["images"]
    | VolumeTypeVM => ["virtual-machines"; "virtual-machines-snapshots"]
    end;
  filepath_Join a c := a +:+ "/" +:+ c;
  VarPath parts := String.concat "/" ("/var/lib/incus" :: parts);
  IsDir _ _ := true;
  PathExists _ _ := true;
  os_IsExist _ := false;
  VolumeTypeToDBType t :=
    match t with
    | VolumeTypeContainer => Ok 0
    | VolumeTypeImage => Ok 1
    | VolumeTypeCustom => Ok 2
    | VolumeTypeVM => Ok 3
    | VolumeTypeBucket => Err (ErrNew "Invalid storage volume type")
    end;
  VolumeUsedByInstanceDevices _ _ _ _ := Ok usedBy;
|}.

#[global] Instance MemPoolHost : PoolHost Mem := MemPoolHostWith [].

(** The record of the volume of a container of the default project on pool
    p1, or of one of its snapshots. *)
Definition testInstanceRow (name description : string) (config : Config)
    : StorageVolume := {|
  sv_pool := "p1"; sv_project := ProjectDefaultName; sv_name := name;
  sv_type := VolumeTypeContainer; sv_snapshot := IsSnapshot name;
  sv_description := description; sv_config := config;
  sv_contentType := ContentTypeFS; sv_creationDate := 0; sv_expiryDate := 0;
|}.


(** A container that is running. *)
Definition testRunningInstance (name : string) : Instance := {|
  inst_project := ProjectDefaultName; inst_name := name;
  inst_type := InstanceTypeContainer; inst_isSnapshot := false;
  inst_isRunning := true; inst_rootDisk := Ok ∅; inst_creationDate := 0;
|}.

(** ** Snapshots of custom volumes *)

Section CustomVolumeSnapshots.

Context {D : Type} `{Driver D} `{PoolHost D}.

Implicit Types (b : backend) (w : World D).

(** [b.driver.CreateVolumeSnapshot(vol, op)].  The trace, which was laid
    out for the calls of the operations above, has no event for it. *)
Definition driver_CreateVolumeSnapshot (vol : Volume) : M D unit :=
  fun st =>
    let w := st_world st in
    let '(d', e) := drv_CreateVolumeSnapshot (w_drv w) vol in
    match e with
    | None => Done (Ok tt) (mkSt (set_drv d' w) (st_revert st))
    | Some e => Done (Err e) (mkSt (set_drv d' w) (st_revert st))
    end.

(** The part of [CreateCustomVolumeSnapshot] from [reverter := revert.New()]
    on.  The advisory lock it takes has no effect on a run that is not
    interleaved with another one. *)
Definition CreateCustomVolumeSnapshot_create b (projectName fullSnapshotName : string)
    (parentVol : StorageVolume) (contentType : ContentType) (newExpiryDate : Z)
    : M D unit :=
  with_reverter (
    now <- gets w_clock ;;
    VolumeDBCreate b projectName fullSnapshotName (sv_description parentVol)
      VolumeTypeCustom true (sv_config parentVol) now newExpiryDate
      (sv_contentType parentVol) false true ;;
    reverter_Add (hook (VolumeDBDelete b projectName fullSnapshotName VolumeTypeCustom)) ;;
    let volStorageName := project_StorageVolume projectName fullSnapshotName in
    let vol := GetVolume b VolumeTypeCustom contentType volStorageName
                 (sv_config parentVol) in
    driver_CreateVolumeSnapshot vol ;;
    SendLifecycle "storage-volume-snapshot-created" vol ;;
    reverter_Success).

(** [CreateCustomVolumeSnapshot]. *)
Definition CreateCustomVolumeSnapshot b (projectName volName newSnapshotName : string)
    (newExpiryDate : Z) : M D unit :=
  if IsSnapshot volName then fail (ErrNew "Volume does not support snapshots") else
  if IsSnapshot newSnapshotName
  then fail (ErrNew "Snapshot name is not a valid snapshot name") else
  let fullSnapshotName := GetSnapshotVolumeName volName newSnapshotName in
  volume <- VolumeDBGet_opt b projectName fullSnapshotName VolumeTypeCustom ;;
  match volume with
  | Some _ => fail (ErrStatus 409 "Snapshot by that name already exists")
  | None =>
    r <- try (VolumeDBGet b projectName volName VolumeTypeCustom) ;;
    match r with
    | Err err =>
      if IsNotFoundError err
      then fail (ErrStatus StatusNotFound "Parent volume doesn't exist")
      else fail err
    | Ok parentVol =>
      contentType <- lift (ContentTypeOfName (sv_contentType parentVol)) ;;
      if negb (bool_decide (contentType = ContentTypeFS))
         && negb (bool_decide (contentType = ContentTypeBlock))
      then fail (ErrNew ("Volume of content type " +:+ dquote +:+ contentType
                         +:+ dquote +:+ " does not support snapshots"))
      else CreateCustomVolumeSnapshot_create b projectName fullSnapshotName
             parentVol contentType newExpiryDate
    end
  end.

(** The record that [CreateCustomVolumeSnapshot] creates: the description,
    the config and the content type are those of the parent volume. *)
Definition snapshotRow b (projectName fullSnapshotName : string)
    (parentVol : StorageVolume) (now newExpiryDate : Z) : StorageVolume :=
  {| sv_pool := b_name b; sv_project := projectName; sv_name := fullSnapshotName;
     sv_type := VolumeTypeCustom; sv_snapshot := true;
     sv_description := sv_description parentVol; sv_config := sv_config parentVol;
     sv_contentType := sv_contentType parentVol;
     sv_creationDate := now; sv_expiryDate := newExpiryDate |}.

End CustomVolumeSnapshots.

(* ================================================================== *)
(** * Properties *)

(** ** Names: UTF-8 decoding and white space *)

Module GoStringFacts.
Import GoString.

Lemma HasPrefix_single (s : string) (c : ascii) :
  HasPrefix s (String c EmptyString) = true <->
  exists s', s = String c s'.
Proof.
  destruct s as [|d s']; simpl.
  - split; [discriminate | intros [? ?]; discriminate].
  - rewrite andb_true_r. split.
    + intros H. apply Ascii.eqb_eq in H. subst. eauto.
    + intros [? H]. inversion H; subst. apply Ascii.eqb_refl.
Qed.

Lemma Contains_single (s : string) (c : ascii) :
  Contains s (String c EmptyString) = true <-> In c (list_ascii_of_string s).
Proof.
  induction s as [|d s IH].
  - simpl. split; [discriminate | tauto].
  - change (Contains (String d s) (String c EmptyString))
      with (HasPrefix (String d s) (String c EmptyString)
            || Contains s (String c EmptyString)).
    rewrite orb_true_iff, HasPrefix_single, IH. simpl. split.
    + intros [[s' H] | H]; [inversion H; subst; auto | auto].
    + intros [-> | H]; [left; eauto | auto].
Qed.

Lemma byteZ_inj (a b : ascii) : byteZ a = byteZ b -> a = b.
Proof.
  unfold byteZ. intros H. apply N2Z.inj in H.
  rewrite <- (ascii_N_embedding a), <- (ascii_N_embedding b). now rewrite H.
Qed.

Lemma slash_byte : byteZ "/"%char = slash.
Proof. reflexivity. Qed.

Lemma Contains_slash (s : string) :
  Contains s "/" = true <-> In slash (bytes s).
Proof.
  rewrite Contains_single. unfold bytes. rewrite in_map_iff. split.
  - intros H. exists "/"%char. auto using slash_byte.
  - intros (a & Ha & Hin). rewrite <- slash_byte in Ha.
    apply byteZ_inj in Ha. now subst.
Qed.

Lemma length_bytes (s : string) : length (bytes s) = String.length s.
Proof.
  unfold bytes. rewrite length_map.
  induction s; simpl; congruence.
Qed.

Lemma le_lor_l (a b : Z) : 0 <= b -> a <= Z.lor a b.
Proof.
  intros Hb. pose proof (Zbitwise.Z.sub_lor_l_same_l b a) as H.
  assert (0 <= Z.land b (Z.lnot a)) by (apply Z.land_nonneg; auto).
  lia.
Qed.

Lemma le_lor_r (a b : Z) : 0 <= a -> b <= Z.lor a b.
Proof. intros. rewrite Z.lor_comm. now apply le_lor_l. Qed.

Lemma lor_lower (a b : Z) :
  0 <= a -> 0 <= b -> a <= Z.lor a b /\ b <= Z.lor a b.
Proof. auto using le_lor_l, le_lor_r. Qed.

Ltac lor_bounds :=
  repeat match goal with
  | |- context [Z.lor ?a ?b] =>
    lazymatch a with context [Z.lor _ _] => fail | _ => idtac end;
    lazymatch b with context [Z.lor _ _] => fail | _ => idtac end;
    let H := fresh "Hlor" in
    pose proof (lor_lower a b) as H;
    generalize dependent (Z.lor a b); intros
  end.

Lemma land_mask (a : Z) (n : Z) : 0 <= n -> Z.land a (Z.ones n) = a mod 2 ^ n.
Proof. apply Z.land_ones. Qed.

(** A well-formed sequence of two or more bytes never decodes to an ASCII
    code point, and none of its bytes is an ASCII byte. *)
Lemma DecodeRuneInString_cases (s0 : Z) (t0 : list Z) :
  let '(r, size) := DecodeRuneInString (s0 :: t0) in
  (size = 1%nat /\ (r = s0 /\ s0 < 0x80 \/ r = RuneError /\ 0x80 <= s0))
  \/ ((2 <= size <= length (s0 :: t0))%nat /\ 0x80 <= r
      /\ Forall (fun b => 0x80 <= b) (take size (s0 :: t0))).
Proof.
  unfold DecodeRuneInString.
  assert (Hm2 : forall a, Z.land a mask2 = a mod 32) by (intros; apply (land_mask _ 5); lia).
  assert (Hm3 : forall a, Z.land a mask3 = a mod 16) by (intros; apply (land_mask _ 4); lia).
  assert (Hm4 : forall a, Z.land a mask4 = a mod 8) by (intros; apply (land_mask _ 3); lia).
  assert (Hmx : forall a, Z.land a maskx = a mod 64) by (intros; apply (land_mask _ 6); lia).
  assert (Hsh : forall a n, 0 <= n -> Z.shiftl a n = a * 2 ^ n) by (intros; apply Z.shiftl_mul_pow2; auto).
  unfold first, locb, hicb.
  repeat match goal with
  | |- context [if ?c then _ else _] => destruct c eqn:?
  | |- context [match ?l with [] => _ | _ :: _ => _ end] => destruct l
  end;
  try (left; split; [reflexivity|]; unfold RuneError; lia);
  simpl in *; try discriminate;
  right; rewrite ?Hm2, ?Hm3, ?Hm4, ?Hmx, ?Hsh by lia;
  repeat match goal with
  | H : (_ || _) = false |- _ => apply orb_false_elim in H; destruct H
  end;
  (split; [lia|]); (split; [| repeat constructor; lia]).
  all: change (2 ^ 6) with 64; change (2 ^ 12) with 4096;
    change (2 ^ 18) with 262144;
    repeat match goal with
    | H : (_ <? _) = _ |- _ => first [apply Z.ltb_lt in H | apply Z.ltb_ge in H]
    | H : (_ =? _) = _ |- _ => first [apply Z.eqb_eq in H | apply Z.eqb_neq in H]
    end;
    lor_bounds; Z.div_mod_to_equations; lia.
Qed.

Lemma rangeRunes_step (fuel : nat) (s0 : Z) (t0 : list Z) :
  rangeRunes (S fuel) (s0 :: t0) =
  (DecodeRuneInString (s0 :: t0)).1
    :: rangeRunes fuel (drop (DecodeRuneInString (s0 :: t0)).2 (s0 :: t0)).
Proof.
  cbn [rangeRunes]. now destruct (DecodeRuneInString (s0 :: t0)).
Qed.

(** The decoder resynchronises on every ASCII byte: a slash is among the
    runes of a byte sequence exactly when it is among its bytes. *)
Lemma rangeRunes_slash (fuel : nat) :
  forall s : list Z, (length s <= fuel)%nat ->
    In slash (rangeRunes fuel s) <-> In slash s.
Proof.
  induction fuel as [|fuel IH]; intros [|s0 t0] Hlen; simpl in Hlen;
    try (simpl; tauto); try lia.
  rewrite rangeRunes_step.
  pose proof (DecodeRuneInString_cases s0 t0) as Hc.
  destruct (DecodeRuneInString (s0 :: t0)) as [r size]. cbn [fst snd].
  destruct Hc as [[-> Hr] | (Hsz & Hr & Hall)].
  - cbn [In]. change (drop 1 (s0 :: t0)) with t0. rewrite IH by lia. unfold slash, RuneError in *.
    destruct Hr as [[-> ?] | [-> ?]]; split; intros [?|?];
      solve [now left | now right | lia].
  - rewrite <- (take_drop size (s0 :: t0)) at 2.
    rewrite in_app_iff. cbn [In].
    rewrite IH by (rewrite length_drop; simpl in *; lia).
    rewrite Forall_forall in Hall. unfold slash in *.
    split.
    + intros [Hs | Hs]; [lia | now right].
    + intros [Hs | Hs]; [| now right].
      apply list_elem_of_In, Hall in Hs. lia.
Qed.

Lemma runes_slash (s : string) : In slash (runes s) <-> In slash (bytes s).
Proof.
  unfold runes. apply rangeRunes_slash. now rewrite length_bytes.
Qed.

(** The Latin-1 switch and the stride table of [unicode.IsSpace] select
    exactly the White_Space code points. *)
Lemma IsSpace_WhiteSpace (r : Z) : IsSpace r = true <-> WhiteSpaceCodePoint r.
Proof.
  unfold IsSpace, isExcludingLatin, WhiteSpaceCodePoint, MaxLatin1.
  cbn [White_Space_R16 White_Space_LatinOffset drop List.last length Hi Lo
       Stride is16 Nat.ltb Nat.leb].
  repeat match goal with
  | |- context [if ?c then _ else _] => destruct c eqn:?
  end;
  repeat rewrite ?orb_true_iff, ?andb_true_iff, ?orb_false_iff, ?andb_false_iff,
    ?Z.eqb_eq, ?Z.ltb_lt, ?Z.leb_le in *;
  repeat match goal with
  | H : (_ && _) = true |- _ => apply andb_prop in H; destruct H
  | H : (_ <? _) = _ |- _ => first [apply Z.ltb_lt in H | apply Z.ltb_ge in H]
  | H : (_ <=? _) = _ |- _ => first [apply Z.leb_le in H | apply Z.leb_gt in H]
  | H : (_ =? _) = _ |- _ => first [apply Z.eqb_eq in H | apply Z.eqb_neq in H]
  end;
  try (split; [discriminate | lia]); try (split; [auto | lia]);
  try (Z.div_mod_to_equations; lia); try (split; intros; lia).
Qed.

Lemma ValidateName_loop_spec (rs : list Z) :
  ValidateName_loop rs = Some ErrNameSpace
  <-> exists r, In r rs /\ IsSpace r = true.
Proof.
  induction rs as [|r rs IH]; simpl.
  - split; [discriminate | intros (? & [] & _)].
  - destruct (IsSpace r) eqn:Hr.
    + split; eauto.
    + rewrite IH. split.
      * intros (x & ? & ?). eauto.
      * intros (x & [-> | ?] & ?); [congruence | eauto].
Qed.

Lemma ValidateName_loop_error (rs : list Z) (e : error) :
  ValidateName_loop rs = Some e -> e = ErrNameSpace.
Proof.
  induction rs as [|r rs IH]; simpl; [discriminate|].
  destruct (IsSpace r); [congruence | auto].
Qed.

End GoStringFacts.

(** C10.  [ValidateName] rejects a name exactly when one of its runes is the
    slash or a Unicode white-space code point: the slash is reported first,
    white space second, the empty name is accepted, and nothing else is
    rejected. *)
Theorem ValidateName_rejects_exactly_slash_and_space (s : string) :
  ((exists e, ValidateName s = Some e) <->
   (exists r, In r (GoString.runes s)
              /\ (r = GoString.slash \/ GoString.WhiteSpaceCodePoint r)))
  /\ (ValidateName s = Some ErrNameSlash <-> In GoString.slash (GoString.bytes s))
  /\ ValidateName "" = None.
Proof.
  split; [|split; [|reflexivity]].
  - unfold ValidateName.
    destruct (GoString.Contains s "/") eqn:Hc.
    + apply GoStringFacts.Contains_slash, GoStringFacts.runes_slash in Hc.
      split; eauto.
    + split.
      * intros [e He].
        pose proof (GoStringFacts.ValidateName_loop_error _ _ He); subst.
        apply GoStringFacts.ValidateName_loop_spec in He as (r & ? & Hr).
        apply GoStringFacts.IsSpace_WhiteSpace in Hr. eauto.
      * intros (r & Hin & [-> | Hw]).
        -- apply GoStringFacts.runes_slash, GoStringFacts.Contains_slash in Hin.
           congruence.
        -- exists ErrNameSpace. apply GoStringFacts.ValidateName_loop_spec.
           exists r. split; [assumption|].
           now apply GoStringFacts.IsSpace_WhiteSpace.
  - unfold ValidateName.
    destruct (GoString.Contains s "/") eqn:Hc.
    + apply GoStringFacts.Contains_slash in Hc. tauto.
    + split.
      * intros He. apply GoStringFacts.ValidateName_loop_error in He. discriminate.
      * intros Hin. apply GoStringFacts.Contains_slash in Hin. congruence.
Qed.

(** ** The backend: tactics that run an operation along one path *)

Ltac mcbn :=
  cbn [bindO tryO wrapO failO drive st_world st_revert
       w_db w_images w_pools w_drv w_unavailablePools w_pipe w_clock w_trace
       set_db set_drv set_pipe add_event fst snd
       run_hooks rev fold_left app world_of forM_ negb andb orb isNil
       vol_pool vol_type vol_contentType vol_name vol_config GetVolume].

Ltac munfold :=
  unfold bind, ret, fail, lift, check, gets, modify, emit, try, wrapErr,
         with_reverter, reverter_Add, reverter_Success, run, hook,
         isStatusReady, VolumeDBCreate, VolumeDBDelete, VolumeDBGet, VolumeDBGet_opt,
         VolumeDBSnapshotsGet,
         UpdateStoragePoolVolume, GetImageFromAnyProject, LoadByName,
         driver_exec, driver_HasVolume, driver_Snapshots, host_call,
         inst_Snapshots, inst_Delete,
         Authorizer_AddStoragePoolVolume, Authorizer_DeleteStoragePoolVolume,
         SendLifecycle, conn_Write, conn_Close, conn_ReadAll.

Ltac mnorm :=
  cbn [st_world st_revert
       w_db w_images w_pools w_drv w_unavailablePools w_pipe w_clock w_trace
       set_db set_drv set_pipe add_event fst snd negb andb orb isNil
       vol_pool vol_type vol_contentType vol_name vol_config GetVolume] in *.

Ltac mrew :=
  match goal with
  | H : ?l = _ |- context [?l] => rewrite H
  | H : ?P |- context [decide ?P] => rewrite (decide_True (P := P)) by exact H
  | H : ¬ ?P |- context [decide ?P] => rewrite (decide_False (P := P)) by exact H
  | H : ?P |- context [bool_decide ?P] => rewrite (bool_decide_eq_true_2 P H)
  | H : ¬ ?P |- context [bool_decide ?P] => rewrite (bool_decide_eq_false_2 P H)
  end.

Lemma IsNotFoundError_ErrVolumeNotFound : IsNotFoundError ErrVolumeNotFound = true.
Proof. reflexivity. Qed.

Ltac mpath :=
  repeat first [ progress mcbn | progress munfold | mrew
               | rewrite IsNotFoundError_ErrVolumeNotFound ].

(** ** Snapshots of a backup config against those on storage *)

Lemma existsb_eqb_elem {A} (f : A -> string) (n : string) (l : list A) :
  existsb (fun x => String.eqb n (f x)) l = bool_decide (n ∈ map f l).
Proof.
  induction l as [|x l IH]; cbn [existsb map].
  - symmetry. apply bool_decide_eq_false_2. apply not_elem_of_nil.
  - rewrite IH. destruct (String.eqb_spec n (f x)) as [->|Hne]; cbn [orb].
    + symmetry. apply bool_decide_eq_true_2. apply list_elem_of_here.
    + apply bool_decide_ext. rewrite elem_of_cons. tauto.
Qed.

Lemma existsb_eqb_elem' {A} (f : A -> string) (n : string) (l : list A) :
  existsb (fun x => String.eqb (f x) n) l = bool_decide (n ∈ map f l).
Proof.
  rewrite <- existsb_eqb_elem.
  induction l as [|x l IH]; cbn [existsb]; [reflexivity|].
  rewrite IH, String.eqb_sym. reflexivity.
Qed.

Lemma existingSnapshots_deleteMissing backupSnaps driverSnapshots :
  existingSnapshots backupSnaps driverSnapshots true
  = Ok (snapshotsInBoth backupSnaps driverSnapshots).
Proof.
  unfold snapshotsInBoth.
  induction backupSnaps as [|s rest IH]; [reflexivity|].
  cbn [existingSnapshots List.filter]. rewrite IH, existsb_eqb_elem'.
  rewrite andb_false_r. destruct (bool_decide _); reflexivity.
Qed.

Lemma existingSnapshots_strict backupSnaps driverSnapshots :
  match existingSnapshots backupSnaps driverSnapshots false with
  | Ok found =>
    found = backupSnaps
    /\ forall n, n ∈ map is_name backupSnaps -> n ∈ map snapshotOnly driverSnapshots
  | Err e =>
    errors_Is_BackupSnapshotsMismatch e = true
    /\ exists n, n ∈ map is_name backupSnaps /\ n ∉ map snapshotOnly driverSnapshots
  end.
Proof.
  induction backupSnaps as [|s rest IH].
  - cbn. split; [reflexivity|]. intros n Hn. now apply not_elem_of_nil in Hn.
  - cbn [existingSnapshots]. rewrite existsb_eqb_elem', andb_true_r.
    destruct (bool_decide_reflect (is_name s ∈ map snapshotOnly driverSnapshots))
      as [Hin|Hnin]; cbn [negb].
    2:{ split; [reflexivity|]. exists (is_name s). split; [apply list_elem_of_here | exact Hnin]. }
    destruct (existingSnapshots rest driverSnapshots false) as [found|e].
    + destruct IH as [-> Hall]. split; [reflexivity|].
      intros n. cbn [map]. rewrite elem_of_cons. intros [->|Hn]; auto.
    + destruct IH as [He (n & Hn & Hnin)]. split; [exact He|].
      exists n. split; [now apply list_elem_of_further | exact Hnin].
Qed.

(** Every path of an operation, one goal each. *)
Ltac mpaths :=
  repeat first [ progress mcbn | progress munfold
               | rewrite IsNotFoundError_ErrVolumeNotFound
               | match goal with
                 | |- context [match ?x with _ => _ end] =>
                   lazymatch x with
                   | context [match _ with _ => _ end] => fail
                   | _ => destruct x eqn:?
                   end
                 | |- context [if ?x then _ else _] =>
                   lazymatch x with
                   | context [if _ then _ else _] => fail
                   | _ => destruct x eqn:?
                   end
                 end ].



(** ** Reconciling the snapshots of a refresh *)



Lemma filter_ext_eq {A} (p q : A -> bool) (l : list A) :
  (forall x, p x = q x) -> List.filter p l = List.filter q l.
Proof.
  intros Hpq. induction l as [|x l IH]; cbn; [reflexivity|].
  rewrite Hpq, IH. reflexivity.
Qed.




(** *** Names of snapshots *)

Lemma IsSnapshot_cons (c : ascii) (v : string) :
  IsSnapshot (String c v) = Ascii.eqb c "/"%char || IsSnapshot v.
Proof.
  unfold IsSnapshot.
  change (GoString.Contains (String c v) "/")
    with (GoString.HasPrefix (String c v) "/" || GoString.Contains v "/").
  cbn [GoString.HasPrefix]. rewrite andb_true_r. reflexivity.
Qed.


Lemma splitSlash_inv (s p q : string) :
  splitSlash s = Some (p, q) -> s = GetSnapshotVolumeName p q.
Proof.
  unfold GetSnapshotVolumeName. revert p.
  induction s as [|c s IH]; intros p; cbn [splitSlash]; [discriminate|].
  destruct (Ascii.eqb_spec c "/"%char) as [->|Hc].
  - intros [= <- <-]. reflexivity.
  - destruct (splitSlash s) as [[p' q']|]; [|discriminate].
    intros [= <- <-].
    change (String c p' +:+ "/" +:+ q') with (String c (p' +:+ "/" +:+ q')).
    f_equal. apply IH. reflexivity.
Qed.

(** *** Records of snapshots *)

(** What a record that is a snapshot of the volume is made of. *)
Lemma is_snapshot_of_inv (pool project volName : string) (t : VolumeType)
    (r : StorageVolume) :
  is_snapshot_of pool project volName t r = true ->
  sv_pool r = pool /\ sv_project r = project /\ sv_type r = t
  /\ sv_snapshot r = true
  /\ sv_name r = GetSnapshotVolumeName volName (sv_snapshotOnly r).
Proof.
  unfold is_snapshot_of, sv_snapshotOnly, GetParentAndSnapshotName.
  destruct (splitSlash (sv_name r)) as [[parent snap]|] eqn:Hsplit; cbn [fst snd andb].
  - rewrite !andb_true_iff, !bool_decide_eq_true.
    intros ((((Hp & Hpr) & Ht) & Hs) & ->).
    repeat split; try assumption. apply splitSlash_inv, Hsplit.
  - rewrite andb_false_r. discriminate.
Qed.

Lemma filter_filter_andb {A} (p q : A -> bool) (l : list A) :
  List.filter p (List.filter q l) = List.filter (fun x => q x && p x) l.
Proof.
  induction l as [|x l IH]; cbn [List.filter]; [reflexivity|].
  destruct (q x); cbn [andb List.filter]; rewrite IH; reflexivity.
Qed.


Lemma filter_all {A} (p : A -> bool) (l : list A) :
  (forall x, x ∈ l -> p x = true) -> List.filter p l = l.
Proof.
  induction l as [|x l IH]; intros Hp; cbn [List.filter]; [reflexivity|].
  rewrite (Hp x), IH; [reflexivity | | apply list_elem_of_here].
  intros y Hy. apply Hp. now apply list_elem_of_further.
Qed.

Lemma filter_none {A} (p : A -> bool) (l : list A) :
  (forall x, x ∈ l -> p x = false) -> List.filter p l = [].
Proof.
  induction l as [|x l IH]; intros Hp; cbn [List.filter]; [reflexivity|].
  rewrite (Hp x), IH; [reflexivity | | apply list_elem_of_here].
  intros y Hy. apply Hp. now apply list_elem_of_further.
Qed.

Lemma elem_of_filter_iff {A} (p : A -> bool) (l : list A) (x : A) :
  x ∈ List.filter p l <-> x ∈ l /\ p x = true.
Proof.
  rewrite !list_elem_of_In, List.filter_In. reflexivity.
Qed.

(** Removing the records of some volumes, one after the other. *)
Lemma fold_db_remove (pool project : string) (t : VolumeType)
    (l : list StorageVolume) (db : list StorageVolume) :
  fold_left (fun db x => db_remove pool project (sv_name x) t db) l db
  = List.filter (fun r => forallb (fun x => negb (row_is pool project (sv_name x) t r)) l)
                db.
Proof.
  revert db. induction l as [|x l IH]; intros db; cbn [fold_left forallb].
  - symmetry. apply filter_all. reflexivity.
  - rewrite IH. unfold db_remove. apply filter_filter_andb.
Qed.



Section BackendFacts.
Context {D : Type} `{Driver D} `{Host D} `{Codec}.
Implicit Types (b : backend) (w : World D).

(** *** The metadata store *)

Lemma db_lookup_remove pool project name t (db : list StorageVolume) :
  db_lookup pool project name t (db_remove pool project name t db) = None.
Proof.
  unfold db_lookup, db_remove.
  induction db as [|r db IH]; [reflexivity|].
  cbn [List.filter]. destruct (row_is pool project name t r) eqn:Hr; cbn [negb].
  - exact IH.
  - cbn [List.find]. now rewrite Hr.
Qed.

Lemma VolumeDBGet_not_found b project name t w :
  db_lookup (b_name b) project name t (w_db w) = None ->
  run (VolumeDBGet b project name t) w = (Err ErrVolumeNotFound, w).
Proof. intros Hl. mpath. reflexivity. Qed.

Lemma run_hooks_LIFO (hooks : list (Hook D)) w :
  run_hooks (rev hooks) w = fold_right (fun h w => h w) w hooks.
Proof. unfold run_hooks. rewrite <- fold_left_rev_right, rev_involutive. reflexivity. Qed.

Lemma with_reverter_Done {A} (body : M D A) w rv r st' :
  body (mkSt w []) = Done r st' ->
  with_reverter body (mkSt w rv)
  = Done r (mkSt (fold_right (fun h w => h w) (st_world st') (st_revert st')) rv).
Proof.
  intros Hb. unfold with_reverter. cbn [st_world st_revert]. rewrite Hb.
  cbn [failO]. now rewrite run_hooks_LIFO.
Qed.

Lemma CreateCustomVolume_rollback b projectName volName desc config contentType w d' e ct :
  let vol := GetVolume b VolumeTypeCustom contentType
               (project_StorageVolume projectName volName) config in
  let row := {| sv_pool := b_name b; sv_project := projectName;
                sv_name := volName; sv_type := VolumeTypeCustom;
                sv_snapshot := false; sv_description := desc;
                sv_config := config; sv_contentType := contentType;
                sv_creationDate := w_clock w; sv_expiryDate := 0 |} in
  Status b <> StoragePoolStatusPending ->
  LocalStatus b w <> StoragePoolStatusUnvailable ->
  VolumeTypeCustom ∈ VolumeTypes (b_info b) ->
  ContentTypeOfName contentType = Ok ct ->
  drv_ValidateVolume (GetVolume b VolumeTypeCustom contentType volName config) false = None ->
  db_lookup (b_name b) projectName volName VolumeTypeCustom (w_db w) = None ->
  drv_exec (w_drv w) (CallCreateVolume vol None) = (d', Some e) ->
  exists w',
    run (CreateCustomVolume b projectName volName desc config contentType) w = (Err e, w')
    /\ run (VolumeDBGet b projectName volName VolumeTypeCustom) w' = (Err ErrVolumeNotFound, w')
    /\ w_trace w' = (w_trace w ++
         [EvDBCreate row; EvDriver (CallCreateVolume vol None) (Some e);
          EvDBDelete (b_name b) projectName volName VolumeTypeCustom])%list.
Proof.
  intros vol row Hs Hl Hsup Hct Hval Hdb Hexec. subst vol row.
  unfold CreateCustomVolume.
  eexists. split; [|split].
  - mpath. reflexivity.
  - apply VolumeDBGet_not_found. mcbn. apply db_lookup_remove.
  - mcbn. now rewrite <- !app_assoc.
Qed.

Lemma EnsureImage_create_rollback b fingerprint contentType imgVol w d' e ct :
  let row := {| sv_pool := b_name b; sv_project := ProjectDefaultName;
                sv_name := fingerprint; sv_type := VolumeTypeImage;
                sv_snapshot := false; sv_description := "";
                sv_config := vol_config imgVol; sv_contentType := contentType;
                sv_creationDate := w_clock w; sv_expiryDate := 0 |} in
  ContentTypeOfName contentType = Ok ct ->
  drv_ValidateVolume
    (GetVolume b VolumeTypeImage contentType fingerprint (vol_config imgVol)) false = None ->
  db_lookup (b_name b) ProjectDefaultName fingerprint VolumeTypeImage (w_db w) = None ->
  drv_exec (w_drv w) (CallCreateVolume imgVol (Some fingerprint)) = (d', Some e) ->
  exists w',
    run (EnsureImage_create b fingerprint contentType imgVol) w = (Err e, w')
    /\ run (VolumeDBGet b ProjectDefaultName fingerprint VolumeTypeImage) w'
       = (Err ErrVolumeNotFound, w')
    /\ w_trace w' = (w_trace w ++
         [EvDBCreate row;
          EvAuthAdd ProjectDefaultName (b_name b) (Singular VolumeTypeImage)
                    fingerprint (location_of b);
          EvDriver (CallCreateVolume imgVol (Some fingerprint)) (Some e);
          EvAuthDelete ProjectDefaultName (b_name b) (Singular VolumeTypeImage)
                       fingerprint (location_of b);
          EvDBDelete (b_name b) ProjectDefaultName fingerprint VolumeTypeImage])%list.
Proof.
  intros row Hct Hval Hdb Hexec. subst row.
  unfold EnsureImage_create.
  eexists. split; [|split].
  - mpath. reflexivity.
  - apply VolumeDBGet_not_found. mcbn. apply db_lookup_remove.
  - mcbn. now rewrite <- !app_assoc.
Qed.


(** C1.  For a create-style operation (creating a custom volume, and
    creating the image volume in EnsureImage): when the record of the volume
    has been created and the driver then fails to create the volume, the
    compensating actions queued so far run last-added-first, the last of them
    deletes the record again, the operation returns the error of the driver,
    and VolumeDBGet for the name reports not found. *)
Theorem create_failure_rolls_back_record b (op : CreateOp) w d' e ct :
  let row := create_row b op (w_clock w) in
  create_ready b op w ->
  ContentTypeOfName (sv_contentType row) = Ok ct ->
  drv_ValidateVolume
    (GetVolume b (sv_type row) (sv_contentType row) (sv_name row) (sv_config row))
    false = None ->
  db_lookup (b_name b) (sv_project row) (sv_name row) (sv_type row) (w_db w) = None ->
  drv_exec (w_drv w) (create_call b op) = (d', Some e) ->
  exists w',
    run (create_run b op) w = (Err e, w')
    /\ run (VolumeDBGet b (sv_project row) (sv_name row) (sv_type row)) w'
       = (Err ErrVolumeNotFound, w')
    /\ w_trace w' =
       (w_trace w ++ [EvDBCreate row] ++ create_between b op
        ++ [EvDriver (create_call b op) (Some e)]
        ++ rev (create_undo_between b op)
        ++ [EvDBDelete (b_name b) (sv_project row) (sv_name row) (sv_type row)])%list.
Proof.
  destruct op as [projectName volName desc config contentType
                 |fingerprint contentType imgVol];
    cbn [create_row create_ready create_call create_run create_between
         create_undo_between sv_contentType sv_type sv_name sv_config sv_project
         rev app].
  - intros (Hs & Hl & Hsup) Hct Hval Hdb Hexec.
    exact (CreateCustomVolume_rollback b projectName volName desc config
             contentType w d' e ct Hs Hl Hsup Hct Hval Hdb Hexec).
  - intros _ Hct Hval Hdb Hexec.
    exact (EnsureImage_create_rollback b fingerprint contentType imgVol w d' e ct
             Hct Hval Hdb Hexec).
Qed.

(** *** The readiness check *)

Lemma isStatusReady_run b w :
  run (isStatusReady b) w =
  (if decide (Status b = StoragePoolStatusPending) then Err ErrPoolPending
   else if decide (LocalStatus b w = StoragePoolStatusUnvailable)
        then Err ErrPoolUnavailable else Ok tt, w).
Proof. repeat first [progress mcbn | progress munfold | case_decide]; reflexivity. Qed.

(** What comes after a failed [isStatusReady] is never run. *)
Lemma isStatusReady_first {A} b (k : M D A) w e :
  run (isStatusReady b) w = (Err e, w) ->
  run (isStatusReady b ;; k) w = (Err e, w).
Proof.
  rewrite isStatusReady_run.
  repeat first [progress mcbn | progress munfold | case_decide];
    intros; simplify_eq; reflexivity.
Qed.

(** C2 (amended).  CreateCustomVolume, EnsureImage, RefreshCustomVolume and
    CreateCustomVolumeFromMigration begin with the isStatusReady check: when
    the status of the pool is pending, or its status on this member is
    unavailable, they return the error of that check and leave the world
    as it was, with no side effect. *)
Theorem pending_or_unavailable_pool_no_side_effect b (op : CheckedOp) w :
  Status b = StoragePoolStatusPending
  \/ LocalStatus b w = StoragePoolStatusUnvailable ->
  exists e,
    (e = ErrPoolPending \/ e = ErrPoolUnavailable)
    /\ run (isStatusReady b) w = (Err e, w)
    /\ run (checked_run b op) w = (Err e, w).
Proof.
  intros Hnot.
  assert (exists e, (e = ErrPoolPending \/ e = ErrPoolUnavailable)
                    /\ run (isStatusReady b) w = (Err e, w)) as (e & He & Hrun).
  { rewrite isStatusReady_run. repeat case_decide; eauto. tauto. }
  exists e. split; [exact He|]. split; [exact Hrun|].
  destruct op; cbn [checked_run];
    unfold CreateCustomVolume, EnsureImage, RefreshCustomVolume,
           CreateCustomVolumeFromMigration;
    now apply isStatusReady_first.
Qed.

Lemma isStatusReady_passes b w :
  run (isStatusReady b) w = (Ok tt, w)
  <-> Status b <> StoragePoolStatusPending
      /\ LocalStatus b w <> StoragePoolStatusUnvailable.
Proof.
  rewrite isStatusReady_run. repeat case_decide; split; intros; simplify_eq; tauto.
Qed.

(** *** The target of a migration *)

(** C7.  CreateCustomVolumeFromMigration returns an error, having created no
    record, read or written no frame and called the driver for nothing,
    whenever the database and the storage disagree about the target volume:
    a volume on storage without a record, or a record without a volume on
    storage. *)
Theorem migration_target_inconsistency_is_error b projectName conn args w volExists :
  let dbVol := db_lookup (b_name b) projectName (ta_name args) VolumeTypeCustom (w_db w) in
  let vol := GetVolume b VolumeTypeCustom (ta_contentType args)
               (project_StorageVolume projectName (ta_name args))
               (match dbVol with
                | Some dbVol => sv_config dbVol
                | None => ta_config args
                end) in
  drv_HasVolume (w_drv w) vol = Ok volExists ->
  (dbVol = None /\ volExists = true) \/ (dbVol <> None /\ volExists = false) ->
  exists e,
    run (CreateCustomVolumeFromMigration b projectName conn args) w = (Err e, w)
    /\ (Status b <> StoragePoolStatusPending ->
        LocalStatus b w <> StoragePoolStatusUnvailable ->
        VolumeTypeCustom ∈ VolumeTypes (b_info b) ->
        e = if volExists then ErrOnStorageNotInDB else ErrInDBNotOnStorage).
Proof.
  intros dbVol vol Hhas Hbad. subst vol.
  unfold CreateCustomVolumeFromMigration.
  destruct (decide (Status b = StoragePoolStatusPending)) as [Hs|Hs].
  { eexists. split; [mpath; reflexivity | tauto]. }
  destruct (decide (LocalStatus b w = StoragePoolStatusUnvailable)) as [Hl|Hl].
  { eexists. split; [mpath; reflexivity | tauto]. }
  destruct (decide (VolumeTypeCustom ∈ VolumeTypes (b_info b))) as [Hsup|Hsup].
  2: { eexists. split; [mpath; reflexivity | tauto]. }
  destruct Hbad as [[Hdb ->] | [Hdb ->]]; subst dbVol.
  - rewrite Hdb in Hhas. eexists. split; [mpath; reflexivity | reflexivity].
  - destruct (db_lookup _ _ _ _ _) as [row|] eqn:Hrow; [|congruence].
    eexists. split; [mpath; reflexivity | reflexivity].
Qed.

(** *** The image cache *)



(** *** Restoring a snapshot *)

(** Deleting snapshot instances one after the other: the loop returns, keeps
    the reverter as it is, and on success has added one deletion to the
    trace for each of them, in order. *)
Lemma forM_inst_Delete_returns (l : list Instance) w (rv : list (@Hook D)) :
  exists r w',
    forM_ l inst_Delete (mkSt w rv) = Done r (mkSt w' rv)
    /\ run (forM_ l inst_Delete) w = (r, w')
    /\ (r = Ok tt ->
        w_trace w' = (w_trace w
                      ++ map (fun s => EvInstanceDelete (inst_name s) None) l)%list).
Proof.
  revert w. induction l as [|snap l IH]; intros w.
  - exists (Ok tt), w. cbn. rewrite app_nil_r. auto.
  - cbn [forM_]. unfold run, bind, inst_Delete at 1 3. cbn [st_world st_revert].
    destruct (host_Delete (w_db w) (w_drv w) snap) as [[db' d'] [e|]]; cbn [bindO drive].
    + eexists _, _. split; [reflexivity|]. split; [reflexivity|]. discriminate.
    + destruct (IH (add_event (EvInstanceDelete (inst_name snap) None)
                      (set_drv d' (set_db db' w)))) as (r & w' & -> & Hrun & Htr).
      unfold run in Hrun. rewrite Hrun.
      exists r, w'. split; [reflexivity|]. split; [reflexivity|].
      intros Hr. rewrite (Htr Hr). cbn. rewrite <- app_assoc. reflexivity.
Qed.

(** The loop of the source, which skips the snapshots the error does not
    name, is the loop over the named ones. *)
Lemma deleteBlockingSnapshots_filter names (snaps : list Instance) (st : St D) :
  deleteBlockingSnapshots names snaps st
  = forM_ (blockingSnapshots names snaps) inst_Delete st.
Proof.
  unfold deleteBlockingSnapshots, blockingSnapshots.
  revert st. induction snaps as [|snap snaps IH]; intros st; [reflexivity|].
  cbn [forM_ List.filter].
  destruct (GetParentAndSnapshotName (inst_name snap)) as [[parent snapName] isSnap] eqn:Hn.
  cbn [fst snd].
  destruct (bool_decide (snapName ∈ names)); cbn [negb forM_].
  - unfold bind, inst_Delete at 1 3.
    destruct (host_Delete _ _ snap) as [[db' d'] [e|]]; cbn [bindO]; [reflexivity|].
    apply IH.
  - unfold bind, ret. cbn [bindO]. apply IH.
Qed.

(** C5.  When the first [RestoreVolume] of [RestoreInstanceSnapshot] fails:
    an error that is not [ErrDeleteSnapshots] is returned at once, with that
    one call the only thing done; for [ErrDeleteSnapshots] the snapshots of
    the instance that the error names, and no others, are deleted in order,
    and if a deletion fails its error is returned with no second attempt;
    once they are deleted [RestoreVolume] is called one more time and what
    it gives, nil or its error, is what is returned, with nothing after it. *)
Theorem restore_retries_once_after_deleting_named_snapshots
    inst vol snapshotName w (rv : list (@Hook D)) d1 err :
  let restore := CallRestoreVolume vol snapshotName in
  let w1 := add_event (EvDriver restore (Some err)) (set_drv d1 w) in
  drv_exec (w_drv w) restore = (d1, Some err) ->
  (errors_As_DeleteSnapshots err = None ->
   RestoreInstanceSnapshot_restore inst vol snapshotName (mkSt w rv)
   = Done (Err err) (mkSt w1 rv))
  /\ (forall names snaps rdel w2,
        errors_As_DeleteSnapshots err = Some names ->
        host_Snapshots d1 inst = Ok snaps ->
        run (forM_ (blockingSnapshots names snaps) inst_Delete) w1 = (rdel, w2) ->
        match rdel with
        | Err e =>
          RestoreInstanceSnapshot_restore inst vol snapshotName (mkSt w rv)
          = Done (Err e) (mkSt w2 rv)
        | Ok _ =>
          w_trace w2
          = (w_trace w ++ [EvDriver restore (Some err)]
             ++ map (fun s => EvInstanceDelete (inst_name s) None)
                    (blockingSnapshots names snaps))%list
          /\ let '(d3, r) := drv_exec (w_drv w2) restore in
             RestoreInstanceSnapshot_restore inst vol snapshotName (mkSt w rv)
             = Done (match r with Some e => Err e | None => Ok tt end)
                    (mkSt (add_event (EvDriver restore r) (set_drv d3 w2)) rv)
        end).
Proof.
  intros restore w1 Hexec. subst restore w1. split.
  - intros Has. unfold RestoreInstanceSnapshot_restore. mpath. reflexivity.
  - intros names snaps rdel w2 Has Hsnaps Hdel.
    destruct (forM_inst_Delete_returns (blockingSnapshots names snaps)
                (add_event (EvDriver (CallRestoreVolume vol snapshotName) (Some err))
                   (set_drv d1 w)) rv) as (r' & w' & Hst & Hrun & Htr).
    rewrite Hdel in Hrun. injection Hrun as <- <-.
    assert (Hpre :
      RestoreInstanceSnapshot_restore inst vol snapshotName (mkSt w rv)
      = bindO (Done rdel (mkSt w2 rv))
          (fun _ => driver_exec (CallRestoreVolume vol snapshotName) ;; ret tt)).
    { unfold RestoreInstanceSnapshot_restore. mnorm. mpath.
      rewrite deleteBlockingSnapshots_filter, Hst. reflexivity. }
    destruct rdel as [[]|e].
    + split.
      * rewrite (Htr eq_refl). cbn. rewrite <- app_assoc. reflexivity.
      * destruct (drv_exec (w_drv w2) _) as [d3 r] eqn:Hexec2.
        rewrite Hpre. mpath. destruct r; reflexivity.
    + rewrite Hpre. reflexivity.
Qed.

(** *** The snapshots of a backup file *)

(** The first loop of [CheckInstanceBackupFileSnapshots] when nothing may be
    deleted: it changes nothing, and it succeeds only if every snapshot on
    storage is in the backup config. *)
Lemma check_storage_snapshots_strict (backupSnaps : list InstanceSnapshot)
    (driverSnapshots : list Volume) (st : St D) :
  exists r,
    forM_ driverSnapshots (checkStorageSnapshot backupSnaps false) st
    = Done r st
    /\ match r with
       | Ok _ => forall n, n ∈ map snapshotOnly driverSnapshots
                           -> n ∈ map is_name backupSnaps
       | Err e =>
         errors_Is_BackupSnapshotsMismatch e = true
         /\ exists n, n ∈ map snapshotOnly driverSnapshots /\ n ∉ map is_name backupSnaps
       end.
Proof.
  set (body := checkStorageSnapshot backupSnaps false).
  assert (Hbody : forall v st',
    body v st' = if bool_decide (snapshotOnly v ∈ map is_name backupSnaps)
                 then Done (Ok tt) st'
                 else Done (Err (ErrNotInBackup (snapshotOnly v))) st').
  { intros v st'. unfold body, checkStorageSnapshot. cbv beta zeta. rewrite existsb_eqb_elem.
    destruct (bool_decide _); reflexivity. }
  clearbody body.
  induction driverSnapshots as [|v rest IH].
  - exists (Ok tt). split; [reflexivity|].
    intros n Hn. now apply not_elem_of_nil in Hn.
  - cbn [forM_]. unfold bind at 1. rewrite Hbody.
    destruct (bool_decide_reflect (snapshotOnly v ∈ map is_name backupSnaps))
      as [Hin|Hnin].
    + cbn [bindO].
      destruct IH as (r & -> & Hr). exists r. split; [reflexivity|].
      destruct r.
      * intros n. cbn [map]. rewrite elem_of_cons. intros [->|Hn]; auto.
      * destruct Hr as [He (n & Hn & Hnin)]. split; [exact He|].
        exists n. split; [now apply list_elem_of_further | exact Hnin].
    + cbn [bindO]. eexists. split; [reflexivity|].
      split; [reflexivity|]. exists (snapshotOnly v).
      split; [apply list_elem_of_here | exact Hnin].
Qed.

(** The first loop when the missing ones are deleted: it is the deletion,
    one after the other, of the snapshots on storage that the backup config
    does not have. *)
Lemma check_storage_snapshots_delete (backupSnaps : list InstanceSnapshot)
    (driverSnapshots : list Volume) w (rv : list (@Hook D)) :
  let extra := storageOnlySnapshots backupSnaps driverSnapshots in
  exists r w',
    run (forM_ extra (fun v => driver_exec (CallDeleteVolumeSnapshot v))) w = (r, w')
    /\ (r = Ok tt ->
        w_trace w' = (w_trace w
                      ++ map (fun v => EvDriver (CallDeleteVolumeSnapshot v) None) extra)%list)
    /\ exists r',
         forM_ driverSnapshots (checkStorageSnapshot backupSnaps true) (mkSt w rv)
         = Done r' (mkSt w' rv)
         /\ match r with
            | Ok _ => r' = Ok tt
            | Err e => exists ctx, r' = Err (ErrWrap ctx e)
            end.
Proof.
  intros extra. subst extra. unfold storageOnlySnapshots.
  set (body := checkStorageSnapshot backupSnaps true).
  assert (Hbody : forall v st',
    body v st' = if bool_decide (snapshotOnly v ∈ map is_name backupSnaps)
                 then Done (Ok tt) st'
                 else wrapO ("Failed to delete snapshot " +:+ dquote
                             +:+ snapshotOnly v +:+ dquote)
                        (driver_exec (CallDeleteVolumeSnapshot v) st')).
  { intros v st'. unfold body, checkStorageSnapshot. cbv beta zeta. rewrite existsb_eqb_elem.
    destruct (bool_decide _); reflexivity. }
  clearbody body.
  revert w. induction driverSnapshots as [|v rest IH]; intros w.
  - exists (Ok tt), w. cbn. rewrite app_nil_r. eauto.
  - cbn [forM_ List.filter]. unfold bind at 1. rewrite Hbody.
    destruct (bool_decide (snapshotOnly v ∈ map is_name backupSnaps)); cbn [negb].
    + cbn [bindO]. apply IH.
    + cbn [forM_ map]. unfold run, bind, driver_exec.
      cbn [st_world st_revert].
      destruct (drv_exec (w_drv w) (CallDeleteVolumeSnapshot v)) as [d' [e|]];
        cbn [bindO wrapO drive st_world].
      * eexists _, _. split; [reflexivity|]. split; [discriminate|].
        eexists. split; [reflexivity|]. eauto.
      * destruct (IH (add_event (EvDriver (CallDeleteVolumeSnapshot v) None) (set_drv d' w)))
          as (r & w' & Hrun & Htr & r' & Hloop & Hr').
        exists r, w'. split; [exact Hrun|]. split.
        -- intros Hr. rewrite (Htr Hr). cbn. rewrite <- app_assoc. reflexivity.
        -- exists r'. split; [exact Hloop | exact Hr'].
Qed.

(** C8.  [CheckInstanceBackupFileSnapshots], once the instance type is read
    and the driver has listed the snapshots on storage.  With deleteMissing
    false: if the two lists differ in length, or a snapshot on storage is
    not in the backup config, or a snapshot of the backup config is not on
    storage, the result is an error that wraps [ErrBackupSnapshotsMismatch]
    and nothing has been done; if none of these holds the snapshots of the
    backup config are returned.  With deleteMissing true: the snapshots on
    storage that the backup config does not have are deleted, one driver
    call each and in order, and once they are the result is the snapshots
    of the backup config that are on storage; if a deletion fails, its
    error is returned with context. *)
Theorem CheckInstanceBackupFileSnapshots_mismatch_or_reconcile
    b backupConf projectName w instType volType driverSnapshots :
  let contentType :=
    if decide (volType = VolumeTypeVM) then ContentTypeBlock else ContentTypeFS in
  let vol := GetVolume b volType contentType
               (project_Instance projectName (bk_containerName backupConf)) ∅ in
  let inConfig := map is_name (bk_snapshots backupConf) in
  let onStorage := map snapshotOnly driverSnapshots in
  let extra := storageOnlySnapshots (bk_snapshots backupConf) driverSnapshots in
  instancetype_New (bk_containerType backupConf) = Ok instType ->
  InstanceTypeToVolumeType instType = Ok volType ->
  drv_Snapshots (w_drv w) vol = Ok driverSnapshots ->
  (length inConfig <> length onStorage
   \/ (exists n, n ∈ onStorage /\ n ∉ inConfig)
   \/ (exists n, n ∈ inConfig /\ n ∉ onStorage) ->
   exists e,
     run (CheckInstanceBackupFileSnapshots b backupConf projectName false) w = (Err e, w)
     /\ errors_Is_BackupSnapshotsMismatch e = true)
  /\ (length inConfig = length onStorage ->
      (forall n, n ∈ onStorage <-> n ∈ inConfig) ->
      run (CheckInstanceBackupFileSnapshots b backupConf projectName false) w
      = (Ok (bk_snapshots backupConf), w))
  /\ (forall rdel w2,
        run (forM_ extra (fun v => driver_exec (CallDeleteVolumeSnapshot v))) w
        = (rdel, w2) ->
        match rdel with
        | Ok _ =>
          run (CheckInstanceBackupFileSnapshots b backupConf projectName true) w
          = (Ok (snapshotsInBoth (bk_snapshots backupConf) driverSnapshots), w2)
          /\ w_trace w2
             = (w_trace w
                ++ map (fun v => EvDriver (CallDeleteVolumeSnapshot v) None) extra)%list
        | Err e =>
          exists ctx,
            run (CheckInstanceBackupFileSnapshots b backupConf projectName true) w
            = (Err (ErrWrap ctx e), w2)
        end).
Proof.
  intros contentType vol inConfig onStorage extra Htype Hvol Hsnaps.
  subst contentType vol inConfig onStorage extra.
  assert (Hstrict : exists r,
    run (CheckInstanceBackupFileSnapshots b backupConf projectName false) w = (r, w)
    /\ match r with
       | Ok found =>
         found = bk_snapshots backupConf
         /\ length (bk_snapshots backupConf) = length driverSnapshots
         /\ (forall n, n ∈ map snapshotOnly driverSnapshots
                       <-> n ∈ map is_name (bk_snapshots backupConf))
       | Err e =>
         errors_Is_BackupSnapshotsMismatch e = true
         /\ (length (bk_snapshots backupConf) <> length driverSnapshots
             \/ (exists n, n ∈ map snapshotOnly driverSnapshots
                           /\ n ∉ map is_name (bk_snapshots backupConf))
             \/ (exists n, n ∈ map is_name (bk_snapshots backupConf)
                           /\ n ∉ map snapshotOnly driverSnapshots))
       end).
  { unfold CheckInstanceBackupFileSnapshots. mnorm. mpath.
    rewrite andb_true_r.
    destruct (Nat.eqb_spec (length (bk_snapshots backupConf)) (length driverSnapshots))
      as [Hlen|Hlen]; cbn [negb].
    2:{ eexists. split; [reflexivity|]. split; [reflexivity | left; exact Hlen]. }
    destruct (check_storage_snapshots_strict (bk_snapshots backupConf) driverSnapshots
                (mkSt w [])) as (r & -> & Hr).
    destruct r as [[]|e]; mpath.
    2:{ eexists. split; [reflexivity|]. destruct Hr as [He Hex].
        split; [exact He | right; left; exact Hex]. }
    pose proof (existingSnapshots_strict (bk_snapshots backupConf) driverSnapshots) as Hex.
    destruct (existingSnapshots _ _ false) as [found|e].
    - destruct Hex as [-> Hall]. eexists. split; [reflexivity|].
      split; [reflexivity|]. split; [first [exact Hlen | reflexivity]|]. intros n. split; auto.
    - eexists. split; [reflexivity|]. destruct Hex as [He Hex].
      split; [exact He | right; right; exact Hex]. }
  destruct Hstrict as (r & Hrun & Hr). split; [|split].
  - intros Hdiff. destruct r as [found|e].
    + exfalso. destruct Hr as (_ & Hlen & Hiff).
      rewrite !length_map in Hdiff.
      destruct Hdiff as [Hne | [(n & Hin & Hnin) | (n & Hin & Hnin)]].
      * congruence.
      * apply Hnin, Hiff, Hin.
      * apply Hnin, Hiff, Hin.
    + exists e. split; [exact Hrun | apply Hr].
  - intros Hlen Hiff. rewrite Hrun. destruct r as [found|e].
    + destruct Hr as [-> _]. reflexivity.
    + exfalso. rewrite !length_map in Hlen.
      destruct Hr as [_ [Hne | [(n & Hin & Hnin) | (n & Hin & Hnin)]]].
      * congruence.
      * apply Hnin, Hiff, Hin.
      * apply Hnin, Hiff, Hin.
  - intros rdel w2 Hdel.
    destruct (check_storage_snapshots_delete (bk_snapshots backupConf) driverSnapshots
                w []) as (r0 & w' & Hrun0 & Htr & r' & Hloop & Hr').
    rewrite Hdel in Hrun0. injection Hrun0 as <- <-.
    assert (Hpre :
      run (CheckInstanceBackupFileSnapshots b backupConf projectName true) w
      = drive (bindO (Done r' (mkSt w2 []))
                 (fun _ => lift (existingSnapshots (bk_snapshots backupConf)
                                   driverSnapshots true)))).
    { unfold CheckInstanceBackupFileSnapshots. mnorm. mpath.
      rewrite ?andb_false_r. try rewrite Hloop. reflexivity. }
    rewrite Hpre. destruct rdel as [[]|e].
    + subst r'. split; [|exact (Htr eq_refl)].
      mpath. rewrite existingSnapshots_deleteMissing. reflexivity.
    + destruct Hr' as (ctx & ->). exists ctx. reflexivity.
Qed.

(** *** The index header *)

Lemma pipe_err_write (conn : Endpoint) (bs : string) (p : Pipe) :
  pipe_err (pipe_write conn bs p) = pipe_err p.
Proof. destruct conn; reflexivity. Qed.

Lemma pipe_err_close (conn : Endpoint) (p : Pipe) :
  pipe_err (pipe_close conn p) = pipe_err p.
Proof. destruct conn; reflexivity. Qed.

(** A frame that is written and closed on a pipe with nothing half written
    at that end is the one frame added to what waits at the other end. *)
Lemma frame_reaches_peer (conn : Endpoint) (frame : string) w :
  wbuf conn (w_pipe w) = "" ->
  inbox (peer conn) (w_pipe (after_Close conn (after_Write conn frame w)))
  = (inbox (peer conn) (w_pipe w) ++ [frame])%list.
Proof.
  destruct conn; cbn; intros ->; reflexivity.
Qed.

(** C4.  The index header exchange for a version greater than 0, on a pipe
    whose context is not cancelled.  The sender encodes the migration info
    to one frame, writes it, closes its write side and then blocks reading
    the acknowledgement; given the acknowledgement it decodes it and returns
    it.  The receiver blocks reading the header; given the frame it decodes
    it, writes the encoding of an acknowledgement that carries the status
    code 200 and the refresh flag, closes its write side and returns the
    header.  [CreateCustomVolumeFromMigration], for a volume that has no
    record and is not on storage, receives the header with the refresh flag
    false whatever the source asked for, and goes on with refresh false. *)
Theorem index_header_exchange (v : Z) (conn : Endpoint) w (rv : list (@Hook D)) :
  0 < v ->
  pipe_err (w_pipe w) = None ->
  (forall info frame,
     Marshal_Info info = Ok frame ->
     exists k,
       migrationIndexHeaderSend v conn info (mkSt w rv)
       = Await conn
           (mkSt (add_event (EvConnReadAll conn)
                    (after_Close conn (after_Write conn frame w))) rv) k
       /\ forall ack resp st',
            Unmarshal_InfoResponse ack = Ok resp ->
            InfoResponse_Err resp = None ->
            k (Ok ack) st' = Done (Ok resp) st')
  /\ (forall refresh,
        exists k,
          migrationIndexHeaderReceive v conn refresh (mkSt w rv)
          = Await conn (mkSt (add_event (EvConnReadAll conn) w) rv) k
          /\ forall frame info ack w' rv',
               Unmarshal_Info frame = Ok info ->
               Marshal_InfoResponse
                 {| resp_statusCode := StatusOK; resp_error := "";
                    resp_refresh := Some refresh |} = Ok ack ->
               pipe_err (w_pipe w') = None ->
               k (Ok frame) (mkSt w' rv')
               = Done (Ok info)
                   (mkSt (after_Close conn (after_Write conn ack w')) rv'))
  /\ (forall b projectName args,
        let vol := GetVolume b VolumeTypeCustom (ta_contentType args)
                     (project_StorageVolume projectName (ta_name args))
                     (ta_config args) in
        let vol' := if 0 <? ta_volumeSize args
                    then Volume_SetConfigSize vol (pretty (ta_volumeSize args))
                    else vol in
        ta_indexHeaderVersion args = v ->
        Status b <> StoragePoolStatusPending ->
        LocalStatus b w <> StoragePoolStatusUnvailable ->
        VolumeTypeCustom ∈ VolumeTypes (b_info b) ->
        db_lookup (b_name b) projectName (ta_name args) VolumeTypeCustom (w_db w) = None ->
        drv_HasVolume (w_drv w) vol = Ok false ->
        CreateCustomVolumeFromMigration b projectName conn args (mkSt w rv)
        = (srcInfo <- migrationIndexHeaderReceive v conn false ;;
           CreateCustomVolumeFromMigration_create b projectName vol'
             (ta_with_refresh args false) srcInfo) (mkSt w rv)).
Proof.
  intros Hv Hpipe. apply Z.ltb_lt in Hv. split; [|split].
  - intros info frame Hframe. unfold migrationIndexHeaderSend. rewrite Hv.
    eexists. split.
    + unfold after_Close, after_Write.
      repeat first [ progress mpath | rewrite pipe_err_write | rewrite pipe_err_close ].
      reflexivity.
    + intros ack resp st' Hack Hok. mpath. reflexivity.
  - intros refresh. unfold migrationIndexHeaderReceive. rewrite Hv.
    eexists. split.
    + mpath. reflexivity.
    + intros frame info ack w' rv' Hinfo Hack Hpipe'.
      unfold after_Close, after_Write.
      repeat first [ progress mpath | rewrite pipe_err_write | rewrite pipe_err_close ].
      reflexivity.
  - intros b projectName args vol vol' Hver Hs Hl Hsup Hdb Hhas. subst vol vol'.
    unfold CreateCustomVolumeFromMigration. mnorm. mpath.
    rewrite andb_true_r. destruct args as [ver name desc config snaps ct size [|] pool mt];
      cbn in *; subst; reflexivity.
Qed.

(** *** Records and volumes, in order *)





(** *** Refreshing a custom volume *)


(** [DeleteCustomVolumeSnapshot] reads no connection: it always returns,
    and leaves the reverter as it is. *)
Lemma DeleteCustomVolumeSnapshot_returns b projectName volName (st : St D) :
  exists r w',
    DeleteCustomVolumeSnapshot b projectName volName st
    = Done r (mkSt w' (st_revert st))
    /\ w_db w' = match r with
                 | Ok _ => db_remove (b_name b) projectName volName VolumeTypeCustom
                             (w_db (st_world st))
                 | Err _ => w_db (st_world st)
                 end.
Proof.
  destruct st as [w rv]. unfold DeleteCustomVolumeSnapshot. mpaths.
  all: eexists _, _; split; [reflexivity|]; reflexivity.
Qed.




(** *** Two goroutines and the records *)






(** The sender of a migration leaves the records alone. *)
Lemma MigrateCustomVolume_keepsDB b projectName conn args (st : St D) :
  keepsDB (MigrateCustomVolume b projectName conn args st) (w_db (st_world st)).
Proof.
  destruct st as [w rv]. unfold MigrateCustomVolume, migrationIndexHeaderSend.
  repeat first [ progress mpaths | progress cbn [keepsDB] | split | intros ? ?
               | reflexivity ].
Qed.






Lemma filter_app_eq {A} (p : A -> bool) (l k : list A) :
  List.filter p (l ++ k) = (List.filter p l ++ List.filter p k)%list.
Proof. apply List.filter_app. Qed.



Lemma db_remove_absent (pool project name : string) (t : VolumeType)
    (db : list StorageVolume) :
  db_lookup pool project name t db = None ->
  db_remove pool project name t db = db.
Proof.
  unfold db_lookup, db_remove. intros Hfind. apply filter_all. intros r Hr.
  apply list_elem_of_In in Hr.
  apply negb_true_iff. exact (List.find_none _ _ Hfind r Hr).
Qed.

Lemma filter_snapshots_volume_record (isSnap : StorageVolume -> bool)
    (pool project volName : string) (db : list StorageVolume) (row : StorageVolume) :
  isSnap = is_snapshot_of pool project volName VolumeTypeCustom ->
  sv_snapshot row = false ->
  List.filter isSnap (db ++ [row]) = List.filter isSnap db.
Proof.
  intros -> Hsnap. rewrite filter_app_eq. cbn [List.filter].
  unfold is_snapshot_of at 2. rewrite Hsnap, andb_false_r. cbn [andb].
  apply app_nil_r.
Qed.









End BackendFacts.

Lemma create_failure_rolls_back_record_witness :
  exists w',
    run (CreateCustomVolume (testPool "p1") "default" "vol1" "" ∅ ContentTypeFS)
        (testWorld [] (testMem [] [Some ErrNotSupported])) = (Err ErrNotSupported, w')
    /\ run (VolumeDBGet (testPool "p1") "default" "vol1" VolumeTypeCustom) w'
       = (Err ErrVolumeNotFound, w')
    /\ length (w_trace w') = 3%nat.
Proof.
  destruct (create_failure_rolls_back_record (testPool "p1")
              (OpCreateCustomVolume "default" "vol1" "" ∅ ContentTypeFS)
              (testWorld [] (testMem [] [Some ErrNotSupported]))
              (testMem [] []) ErrNotSupported ContentTypeFS)
    as (w' & Hrun & Hget & Htrace).
  - cbn. repeat split; [discriminate | vm_compute; discriminate | vm_compute; set_solver].
  - reflexivity.
  - reflexivity.
  - reflexivity.
  - reflexivity.
  - exists w'. repeat split; [exact Hrun | exact Hget |].
    rewrite Htrace. reflexivity.
Defined.

(** C2, as stated, fails: a pool whose status is errored is not created, yet
    it passes the isStatusReady check and CreateCustomVolume goes on to
    create the record and the volume. *)
Lemma not_created_pool_still_creates :
  Status (erroredPool "p1") <> StoragePoolStatusCreated
  /\ exists w',
       run (CreateCustomVolume (erroredPool "p1") "default" "vol1" "" ∅ ContentTypeFS)
           (testWorld [] (testMem [] [])) = (Ok tt, w')
       /\ length (w_db w') = 1%nat
       /\ mem_vols (w_drv w') = [("p1", VolumeTypeCustom, "default_vol1")].
Proof.
  split; [discriminate|].
  eexists. split; [vm_compute; reflexivity|]. split; reflexivity.
Qed.

Lemma pending_or_unavailable_pool_no_side_effect_witness :
  exists e,
    run (CreateCustomVolume (pendingPool "p1") "default" "vol1" "" ∅ ContentTypeFS)
        (testWorld [] (testMem [] [])) = (Err e, testWorld [] (testMem [] [])).
Proof.
  destruct (pending_or_unavailable_pool_no_side_effect (pendingPool "p1")
              (ChkCreateCustomVolume "default" "vol1" "" ∅ ContentTypeFS)
              (testWorld [] (testMem [] [])))
    as (e & _ & _ & Hrun).
  - left. reflexivity.
  - exists e. exact Hrun.
Defined.

Lemma migration_target_inconsistency_is_error_witness :
  exists e,
    run (CreateCustomVolumeFromMigration (testPool "p1") "default" bEnd
           {| ta_indexHeaderVersion := 1; ta_name := "vol1"; ta_description := "";
              ta_config := ∅; ta_snapshots := []; ta_contentType := ContentTypeFS;
              ta_volumeSize := 0; ta_refresh := false; ta_storagePool := "p2";
              ta_migrationType := "rsync" |})
        (testWorld [] (testMem [("p1", VolumeTypeCustom, "default_vol1")] []))
    = (Err e, testWorld [] (testMem [("p1", VolumeTypeCustom, "default_vol1")] [])).
Proof.
  destruct (migration_target_inconsistency_is_error (testPool "p1") "default" bEnd
              {| ta_indexHeaderVersion := 1; ta_name := "vol1"; ta_description := "";
                 ta_config := ∅; ta_snapshots := []; ta_contentType := ContentTypeFS;
                 ta_volumeSize := 0; ta_refresh := false; ta_storagePool := "p2";
                 ta_migrationType := "rsync" |}
              (testWorld [] (testMem [("p1", VolumeTypeCustom, "default_vol1")] []))
              true)
    as (e & Hrun & _).
  - vm_compute. reflexivity.
  - left. split; reflexivity.
  - exists e. exact Hrun.
Defined.


Lemma restore_retries_once_after_deleting_named_snapshots_witness :
  let inst := testInstance "c1" in
  let vol := GetVolume (testPool "p1") VolumeTypeContainer ContentTypeFS "c1" ∅ in
  let restore := CallRestoreVolume vol "snap0" in
  let blocked := ErrDeleteSnapshots ["snap1"; "snap2"] in
  let w outcomes := testWorld [] (testMemSnapshots ["snap0"; "snap1"; "snap2"] outcomes) in
  (exists w',
     RestoreInstanceSnapshot_restore inst vol "snap0" (mkSt (w [Some ErrNotSupported]) [])
     = Done (Err ErrNotSupported) (mkSt w' [])
     /\ w_trace w' = [EvDriver restore (Some ErrNotSupported)])
  /\ (exists w',
        RestoreInstanceSnapshot_restore inst vol "snap0" (mkSt (w [Some blocked]) [])
        = Done (Ok tt) (mkSt w' [])
        /\ w_trace w' = [EvDriver restore (Some blocked);
                         EvInstanceDelete "c1/snap1" None;
                         EvInstanceDelete "c1/snap2" None;
                         EvDriver restore None])
  /\ (exists w',
        RestoreInstanceSnapshot_restore inst vol "snap0"
          (mkSt (w [Some blocked; Some ErrNotSupported]) [])
        = Done (Err ErrNotSupported) (mkSt w' [])
        /\ w_trace w' = [EvDriver restore (Some blocked);
                         EvInstanceDelete "c1/snap1" None;
                         EvInstanceDelete "c1/snap2" None;
                         EvDriver restore (Some ErrNotSupported)]).
Proof.
  intros inst vol restore blocked w. split; [|split].
  - eexists. split.
    + refine (proj1 (restore_retries_once_after_deleting_named_snapshots
                       inst vol "snap0" (w [Some ErrNotSupported]) []
                       _ ErrNotSupported _) _); reflexivity.
    + reflexivity.
  - pose proof (proj2 (restore_retries_once_after_deleting_named_snapshots
                         inst vol "snap0" (w [Some blocked]) [] _ blocked eq_refl)
                  ["snap1"; "snap2"] _ (Ok tt) _ eq_refl eq_refl eq_refl) as [_ Hrun].
    eexists. split; [exact Hrun | reflexivity].
  - pose proof (proj2 (restore_retries_once_after_deleting_named_snapshots
                         inst vol "snap0" (w [Some blocked; Some ErrNotSupported]) []
                         _ blocked eq_refl)
                  ["snap1"; "snap2"] _ (Ok tt) _ eq_refl eq_refl eq_refl) as [_ Hrun].
    eexists. split; [exact Hrun | reflexivity].
Defined.

Lemma CheckInstanceBackupFileSnapshots_mismatch_or_reconcile_witness :
  let b := testPool "p1" in
  let w := testWorld [] (testMemInstance ["snap1"; "snap2"]) in
  let snapVol name :=
    {| vol_pool := "p1"; vol_type := VolumeTypeContainer;
       vol_contentType := ContentTypeFS; vol_name := name; vol_config := ∅ |} in
  (exists e,
     run (CheckInstanceBackupFileSnapshots b (testBackupConfig ["snap1"; "snap3"])
            "default" false) w = (Err e, w)
     /\ errors_Is_BackupSnapshotsMismatch e = true)
  /\ run (CheckInstanceBackupFileSnapshots b (testBackupConfig ["snap1"; "snap2"])
            "default" false) w
     = (Ok (bk_snapshots (testBackupConfig ["snap1"; "snap2"])), w)
  /\ exists w2,
       run (CheckInstanceBackupFileSnapshots b (testBackupConfig ["snap1"; "snap3"])
              "default" true) w
       = (Ok [{| is_name := "snap1"; is_createdAt := 0 |}], w2)
       /\ w_trace w2 = [EvDriver (CallDeleteVolumeSnapshot (snapVol "c1/snap2")) None]
       /\ mem_vols (w_drv w2)
          = [("p1", VolumeTypeContainer, "c1"); ("p1", VolumeTypeContainer, "c1/snap1")].
Proof.
  intros b w snapVol. split; [|split].
  - refine (proj1 (CheckInstanceBackupFileSnapshots_mismatch_or_reconcile
                     b (testBackupConfig ["snap1"; "snap3"]) "default" w
                     InstanceTypeContainer VolumeTypeContainer
                     [snapVol "c1/snap1"; snapVol "c1/snap2"]
                     eq_refl eq_refl eq_refl) _).
    right. left. exists "snap2". vm_compute. split; [|intros Hin].
    + apply list_elem_of_further, list_elem_of_here.
    + apply elem_of_cons in Hin as [Hin|Hin]; [discriminate|].
      apply elem_of_cons in Hin as [Hin|Hin]; [discriminate|].
      now apply not_elem_of_nil in Hin.
  - refine (proj1 (proj2 (CheckInstanceBackupFileSnapshots_mismatch_or_reconcile
                     b (testBackupConfig ["snap1"; "snap2"]) "default" w
                     InstanceTypeContainer VolumeTypeContainer
                     [snapVol "c1/snap1"; snapVol "c1/snap2"]
                     eq_refl eq_refl eq_refl)) eq_refl _).
    intros n. reflexivity.
  - pose proof (proj2 (proj2 (CheckInstanceBackupFileSnapshots_mismatch_or_reconcile
                     b (testBackupConfig ["snap1"; "snap3"]) "default" w
                     InstanceTypeContainer VolumeTypeContainer
                     [snapVol "c1/snap1"; snapVol "c1/snap2"]
                     eq_refl eq_refl eq_refl)) (Ok tt) _ eq_refl) as [Hrun Htr].
    eexists. split; [exact Hrun|]. split; reflexivity.
Defined.

Lemma index_header_exchange_witness :
  let w := testWorld [] (testMem [] []) in
  let ackFalse := {| resp_statusCode := StatusOK; resp_error := "";
                     resp_refresh := Some false |} in
  (exists k,
     migrationIndexHeaderSend 1 aEnd None (mkSt w [])
     = Await aEnd
         (mkSt (add_event (EvConnReadAll aEnd)
                  (after_Close aEnd (after_Write aEnd "header" w))) []) k
     /\ k (Ok "norefresh") (mkSt w []) = Done (Ok ackFalse) (mkSt w []))
  /\ (exists k,
        migrationIndexHeaderReceive 1 bEnd false (mkSt w [])
        = Await bEnd (mkSt (add_event (EvConnReadAll bEnd) w) []) k
        /\ k (Ok "header") (mkSt w [])
           = Done (Ok {| info_config := None |})
               (mkSt (after_Close bEnd (after_Write bEnd "norefresh" w)) []))
  /\ (let args := {| ta_indexHeaderVersion := 1; ta_name := "vol1";
                     ta_description := ""; ta_config := ∅; ta_snapshots := [];
                     ta_contentType := ContentTypeFS; ta_volumeSize := 0;
                     ta_refresh := true; ta_storagePool := "p1";
                     ta_migrationType := "rsync" |} in
      CreateCustomVolumeFromMigration (testPool "p1") "default" bEnd args (mkSt w [])
      = (srcInfo <- migrationIndexHeaderReceive 1 bEnd false ;;
         CreateCustomVolumeFromMigration_create (testPool "p1") "default"
           (GetVolume (testPool "p1") VolumeTypeCustom ContentTypeFS
              (project_StorageVolume "default" "vol1") ∅)
           (ta_with_refresh args false) srcInfo) (mkSt w [])).
Proof.
  intros w ackFalse. split; [|split].
  - destruct (index_header_exchange 1 aEnd w [] ltac:(lia) eq_refl) as (Hsend & _ & _).
    destruct (Hsend None "header" eq_refl) as (k & Heq & Hk).
    exists k. split; [exact Heq|]. apply Hk; reflexivity.
  - destruct (index_header_exchange 1 bEnd w [] ltac:(lia) eq_refl) as (_ & Hrecv & _).
    destruct (Hrecv false) as (k & Heq & Hk).
    exists k. split; [exact Heq|]. apply Hk; reflexivity.
  - intros args.
    destruct (index_header_exchange 1 bEnd w [] ltac:(lia) eq_refl) as (_ & _ & Htarget).
    apply (Htarget (testPool "p1") "default" args); try reflexivity.
    + discriminate.
    + vm_compute. discriminate.
    + vm_compute. apply list_elem_of_here.
Defined.




(** ** Configs of volumes *)

(** *** The changed keys of a config *)

Lemma detectChangedConfig_lookup (curConfig newConfig : Config) (key : string) :
  (detectChangedConfig curConfig newConfig).1 !! key
  = if decide (cfg curConfig key = cfg newConfig key) then None
    else Some (cfg newConfig key).
Proof.
  unfold detectChangedConfig, cfg. cbn [fst]. rewrite lookup_merge.
  destruct (curConfig !! key) as [c|], (newConfig !! key) as [n|]; cbn; reflexivity.
Qed.

(** X1.  The changed config that [detectChangedConfig] returns holds exactly
    the keys at which the two configs read differently, each with the value
    the new config reads there (the empty string for a key it does not
    have): laid over the current config it reads as the new config at every
    key, and it is empty exactly when the two configs read the same
    everywhere. *)
Theorem detectChangedConfig_overlay (curConfig newConfig : Config) :
  (forall key, cfg ((detectChangedConfig curConfig newConfig).1 ∪ curConfig) key
               = cfg newConfig key)
  /\ ((detectChangedConfig curConfig newConfig).1 = ∅
      <-> forall key, cfg curConfig key = cfg newConfig key).
Proof.
  split.
  - intros key. unfold cfg at 1. rewrite lookup_union, detectChangedConfig_lookup.
    destruct (decide (cfg curConfig key = cfg newConfig key)) as [Heq|Hne].
    + rewrite (left_id None _). exact Heq.
    + destruct (curConfig !! key); reflexivity.
  - split.
    + intros Hempty key.
      pose proof (detectChangedConfig_lookup curConfig newConfig key) as Hl.
      rewrite Hempty, lookup_empty in Hl.
      destruct (decide (cfg curConfig key = cfg newConfig key)); [assumption|discriminate].
    + intros Hall. apply map_eq. intros key.
      rewrite detectChangedConfig_lookup, lookup_empty.
      now rewrite decide_True by apply Hall.
Qed.

(** X2.  The flag that [detectChangedConfig] returns is true exactly when
    every key at which the two configs read differently starts with
    [user.]. *)
Theorem detectChangedConfig_userOnly (curConfig newConfig : Config) :
  (detectChangedConfig curConfig newConfig).2 = true
  <-> forall key, cfg curConfig key <> cfg newConfig key ->
                  GoString.HasPrefix key "user." = true.
Proof.
  pose proof (detectChangedConfig_lookup curConfig newConfig) as Hl.
  unfold detectChangedConfig in *. cbn [fst snd] in *.
  set (changed := merge _ curConfig newConfig) in *.
  rewrite forallb_forall. split.
  - intros Hall key Hne. apply Hall. apply in_map_iff.
    exists (key, cfg newConfig key). split; [reflexivity|].
    apply list_elem_of_In, elem_of_map_to_list.
    rewrite Hl. now rewrite decide_False.
  - intros Hall key Hin. apply in_map_iff in Hin as ([k v] & <- & Hin).
    apply list_elem_of_In, elem_of_map_to_list in Hin. cbn [fst].
    apply Hall. rewrite Hl in Hin.
    destruct (decide (cfg curConfig k = cfg newConfig k)); [discriminate|assumption].
Qed.

(** *** Initial values of the root disk *)

Lemma string_drop_append (p s : string) : string_drop (String.length p) (p +:+ s) = s.
Proof. induction p as [|c p IH]; [reflexivity|exact IH]. Qed.

Lemma HasPrefix_append (s p : string) :
  GoString.HasPrefix s p = true <-> exists rest, s = p +:+ rest.
Proof.
  revert s. induction p as [|c p IH]; intros s.
  - split; [intros _; now exists s|reflexivity].
  - destruct s as [|a s]; cbn [GoString.HasPrefix].
    + split; [discriminate|intros (rest & Heq); discriminate Heq].
    + rewrite andb_true_iff, IH, Ascii.eqb_eq. split.
      * intros (-> & rest & ->). now exists rest.
      * intros (rest & Heq). injection Heq as -> ->. split; [reflexivity|now exists rest].
Qed.

(** A key is cut into an empty prefix and the rest exactly when it starts
    with the separator. *)
Lemma strings_Cut_prefix (s sep : string) :
  match strings_Cut s sep with
  | (before, after, found) =>
    (found && bool_decide (before = "") = true <-> s = sep +:+ after)
  end.
Proof.
  destruct s as [|c s]; cbn [strings_Cut].
  - destruct (GoString.HasPrefix "" sep) eqn:Hp.
    + apply HasPrefix_append in Hp as (rest & Hrest).
      destruct sep; [|discriminate]. cbn. split; reflexivity.
    + cbn. split; [discriminate|]. intros Heq.
      destruct sep; [discriminate Hp|discriminate Heq].
  - destruct (GoString.HasPrefix (String c s) sep) eqn:Hp.
    + apply HasPrefix_append in Hp as (rest & ->).
      rewrite string_drop_append. cbn. split; reflexivity.
    + destruct (strings_Cut s sep) as [[before after] found]. destruct found.
      * cbn. split; [discriminate|]. intros Heq.
        assert (GoString.HasPrefix (String c s) sep = true) as Hp'
          by (apply HasPrefix_append; now exists after).
        congruence.
      * cbn. split; [discriminate|]. intros Heq.
        assert (GoString.HasPrefix (String c s) sep = true) as Hp'
          by (apply HasPrefix_append; now exists "").
        congruence.
Qed.

Lemma append_inj_r (p s t : string) : p +:+ s = p +:+ t -> s = t.
Proof. induction p as [|c p IH]; cbn; [auto|]. intros Heq. injection Heq as Heq. auto. Qed.

Lemma strings_Cut_append (sep rest : string) :
  strings_Cut (sep +:+ rest) sep = ("", rest, true).
Proof.
  assert (GoString.HasPrefix (sep +:+ rest) sep = true) as Hp
    by (apply HasPrefix_append; now exists rest).
  destruct (sep +:+ rest) as [|c s] eqn:Heq; cbn [strings_Cut]; rewrite Hp, <- Heq;
    now rewrite string_drop_append.
Qed.

Lemma applyInitialValue_lookup (volConfig : Config) (k v key : string) :
  applyInitialValue volConfig (k, v) !! key
  = if decide (k = "initial." +:+ key) then Some v else volConfig !! key.
Proof.
  unfold applyInitialValue. cbn [fst snd].
  destruct (decide (k = "initial." +:+ key)) as [->|Hne].
  - rewrite strings_Cut_append. cbn [andb]. rewrite bool_decide_eq_true_2 by reflexivity.
    apply lookup_insert_eq.
  - pose proof (strings_Cut_prefix k "initial.") as Hcut.
    destruct (strings_Cut k "initial.") as [[before after] found].
    destruct (found && bool_decide (before = "")) eqn:Hf; [|reflexivity].
    destruct Hcut as [Hcut _]. specialize (Hcut eq_refl). subst k.
    apply lookup_insert_ne. intros ->. now apply Hne.
Qed.

(** X3.  [applyInstanceRootDiskInitialValues] copies every [initial.<key>]
    entry of the root disk device to [<key>] of the volume config and leaves
    every other key of the volume config as it was, whatever the order in
    which the loop visits the entries of the device. *)
Theorem applyInstanceRootDiskInitialValues_lookup
    (inst : Instance) (rootDiskConf volConfig : Config)
    (entries : list (string * string)) (key : string) :
  inst_rootDisk inst = Ok rootDiskConf ->
  entries ≡ₚ map_to_list rootDiskConf ->
  applyInstanceRootDiskInitialValues inst volConfig
  = Ok (applyInitialValues_range (map_to_list rootDiskConf) volConfig)
  /\ applyInitialValues_range entries volConfig !! key
     = match rootDiskConf !! ("initial." +:+ key) with
       | Some v => Some v
       | None => volConfig !! key
       end.
Proof.
  intros Hroot Hperm. split.
  { unfold applyInstanceRootDiskInitialValues. now rewrite Hroot. }
  clear Hroot.
  assert (NoDup entries.*1) as Hnd.
  { rewrite Hperm. apply NoDup_fst_map_to_list. }
  assert (forall k v, (k, v) ∈ entries <-> rootDiskConf !! k = Some v) as Hin.
  { intros k v. rewrite Hperm. apply elem_of_map_to_list. }
  clear Hperm. unfold applyInitialValues_range.
  revert rootDiskConf volConfig Hnd Hin.
  induction entries as [|[k v] entries IH]; intros rootDiskConf volConfig Hnd Hin.
  - cbn. destruct (rootDiskConf !! _) as [v|] eqn:Hl; [|reflexivity].
    apply Hin in Hl. inversion Hl.
  - cbn [fold_left]. cbn [fmap list_fmap fst] in Hnd. apply NoDup_cons in Hnd as [Hk Hnd].
    rewrite (IH (delete k rootDiskConf)); [|exact Hnd|].
    + destruct (decide (k = "initial." +:+ key)) as [->|Hne].
      * rewrite lookup_delete_eq, applyInitialValue_lookup, decide_True by reflexivity.
        symmetry. assert (rootDiskConf !! ("initial." +:+ key) = Some v) as ->; [|reflexivity].
        apply Hin. left.
      * rewrite lookup_delete_ne by assumption.
        rewrite applyInitialValue_lookup, decide_False by assumption. reflexivity.
    + intros k' v'. split.
      * intros Hel. assert (k' <> k) as Hne.
        { intros ->. apply Hk. apply list_elem_of_fmap. now exists (k, v'). }
        rewrite lookup_delete_ne by auto. apply Hin. now right.
      * intros Hl. destruct (decide (k' = k)) as [->|Hne].
        { now rewrite lookup_delete_eq in Hl. }
        rewrite lookup_delete_ne in Hl by auto. apply Hin in Hl.
        inversion Hl; subst; [congruence|assumption].
Qed.


(** *** Optimized images *)

Section OptimizedImageFacts.
Context {D : Type} `{Driver D}.
Implicit Types (b : backend) (w : World D).

Lemma volumeConfigsMatch_spec (vol1 vol2 : Volume) :
  volumeConfigsMatch vol1 vol2 = true
  <-> drv_IsBlockBacked vol1 = drv_IsBlockBacked vol2
      /\ (drv_IsBlockBacked vol1 = true ->
          cfg (vol_config vol1) "block.filesystem" = cfg (vol_config vol2) "block.filesystem"
          /\ cfg (vol_config vol1) "zfs.blocksize" = cfg (vol_config vol2) "zfs.blocksize").
Proof.
  unfold volumeConfigsMatch.
  destruct (drv_IsBlockBacked vol1), (drv_IsBlockBacked vol2); cbn;
    repeat case_bool_decide; cbn; intuition congruence.
Qed.

(** X4.  [volumeConfigsMatch] is an equivalence on volumes: a volume matches
    itself, the order of the two volumes does not matter although only the
    first one is asked whether it is block backed, and two volumes that match
    a third one match each other. *)
Theorem volumeConfigsMatch_equivalence (vol1 vol2 vol3 : Volume) :
  volumeConfigsMatch vol1 vol1 = true
  /\ volumeConfigsMatch vol1 vol2 = volumeConfigsMatch vol2 vol1
  /\ (volumeConfigsMatch vol1 vol2 = true -> volumeConfigsMatch vol2 vol3 = true ->
      volumeConfigsMatch vol1 vol3 = true).
Proof.
  split; [|split].
  - apply volumeConfigsMatch_spec. auto.
  - apply eq_true_iff_eq. rewrite !volumeConfigsMatch_spec.
    split; intros [Hm Hc]; (split; [congruence|]); intros Hb;
      [rewrite Hb in Hm|rewrite Hb in Hm]; destruct (Hc ltac:(congruence)); auto.
  - rewrite !volumeConfigsMatch_spec. intros [Hm1 Hc1] [Hm2 Hc2].
    split; [congruence|]. intros Hb.
    destruct (Hc1 Hb), (Hc2 ltac:(congruence)). split; congruence.
Qed.

(** X5.  [shouldUseOptimizedImage] reads and never writes, and when it
    answers yes for a volume config that is not empty while the image volume
    has a record, [EnsureImage] finds the cached image volume in line with
    the pool's defaults: neither the block-backed mode nor the block
    filesystem counts as changed, so the cached volume is not deleted for
    its config. *)
Theorem shouldUseOptimizedImage_yes_keeps_cached_image
    b fingerprint contentType volConfig w w' dbVol tmpImgVol :
  let imgVol := GetVolume b VolumeTypeImage contentType fingerprint (sv_config dbVol) in
  let blockModeChanged :=
    negb (Bool.eqb (drv_IsBlockBacked tmpImgVol) (drv_IsBlockBacked imgVol)) in
  let blockFSChanged :=
    drv_IsBlockBacked imgVol
    && negb (bool_decide (cfg (vol_config imgVol) "block.filesystem"
                          = cfg (vol_config tmpImgVol) "block.filesystem")) in
  volConfig <> ∅ ->
  db_lookup (b_name b) ProjectDefaultName fingerprint VolumeTypeImage (w_db w)
  = Some dbVol ->
  drv_FillVolumeConfig (GetVolume b VolumeTypeImage contentType fingerprint ∅)
  = Ok tmpImgVol ->
  run (shouldUseOptimizedImage b fingerprint contentType volConfig) w = (Ok true, w') ->
  w' = w /\ blockModeChanged || blockFSChanged = false.
Proof.
  intros imgVol blockModeChanged blockFSChanged Hne Hdb Hfill.
  subst imgVol blockModeChanged blockFSChanged.
  unfold shouldUseOptimizedImage.
  destruct (OptimizedImages (b_info b)); cbn [negb orb].
  2:{ mpath. intros Hrun. congruence. }
  rewrite bool_decide_eq_false_2 by exact Hne.
  destruct (drv_FillVolumeConfig (GetVolume b VolumeTypeImage contentType fingerprint volConfig))
    as [newImgVol|e] eqn:Hnew.
  2:{ mpath. intros Hrun. congruence. }
  mpath.
  destruct (volumeConfigsMatch newImgVol tmpImgVol) eqn:Hm1; cbn [negb].
  2:{ mpath. intros Hrun. congruence. }
  mpath.
  destruct (volumeConfigsMatch newImgVol
              (GetVolume b VolumeTypeImage contentType fingerprint (sv_config dbVol)))
    eqn:Hm2; cbn [negb];
    mpath; intros Hrun; [|congruence].
  injection Hrun as <-. split; [reflexivity|].
  apply volumeConfigsMatch_spec in Hm1 as [Hb1 Hc1].
  apply volumeConfigsMatch_spec in Hm2 as [Hb2 Hc2].
  cbn [vol_config GetVolume] in *.
  rewrite <- Hb1, Hb2, Bool.eqb_reflx. cbn [negb orb].
  destruct (drv_IsBlockBacked (GetVolume _ _ _ _ _)) eqn:Hb; [|reflexivity].
  cbn [andb]. rewrite Hb2 in Hc1, Hc2.
  destruct (Hc1 eq_refl) as [Hfs1 _], (Hc2 eq_refl) as [Hfs2 _].
  rewrite bool_decide_eq_true_2 by congruence. reflexivity.
Qed.

End OptimizedImageFacts.

(** A root disk device with an initial block size, read in two orders. *)
Lemma applyInstanceRootDiskInitialValues_lookup_witness :
  let rootDiskConf : Config :=
    {[ "initial.zfs.blocksize" := "8KiB"; "size" := "10GiB"; "pool" := "p1" ]} in
  let inst := {| inst_project := ProjectDefaultName; inst_name := "c1";
                 inst_type := InstanceTypeContainer; inst_isSnapshot := false;
                 inst_isRunning := false; inst_rootDisk := Ok rootDiskConf;
                 inst_creationDate := 0 |} in
  applyInstanceRootDiskInitialValues inst ∅ = Ok {[ "zfs.blocksize" := "8KiB" ]}
  /\ applyInitialValues_range (reverse (map_to_list rootDiskConf)) ∅ !! "zfs.blocksize"
     = Some "8KiB".
Proof.
  intros rootDiskConf inst.
  destruct (applyInstanceRootDiskInitialValues_lookup inst rootDiskConf ∅
              (reverse (map_to_list rootDiskConf)) "zfs.blocksize")
    as [Hrun Hlookup].
  - reflexivity.
  - apply reverse_Permutation.
  - split.
    + rewrite Hrun. vm_compute. reflexivity.
    + rewrite Hlookup. vm_compute. reflexivity.
Defined.

(** Volumes on a driver whose volumes are block backed when their config
    says so. *)
Lemma volumeConfigsMatch_equivalence_witness :
  let vol (config : Config) := GetVolume (testPool "p1") VolumeTypeImage ContentTypeFS "fp" config in
  let ext4 := vol {[ "block_mode" := "true"; "block.filesystem" := "ext4" ]} in
  let ext4' := vol {[ "block_mode" := "true"; "block.filesystem" := "ext4"; "size" := "1GiB" ]} in
  let xfs := vol {[ "block_mode" := "true"; "block.filesystem" := "xfs" ]} in
  volumeConfigsMatch ext4 ext4' = true
  /\ volumeConfigsMatch ext4' ext4 = true
  /\ volumeConfigsMatch ext4 xfs = false
  /\ volumeConfigsMatch (vol ∅) xfs = volumeConfigsMatch xfs (vol ∅).
Proof.
  intros vol ext4 ext4' xfs.
  destruct (volumeConfigsMatch_equivalence ext4 ext4' ext4) as (Hrefl & Hsym & Htrans).
  destruct (volumeConfigsMatch_equivalence (vol ∅) xfs xfs) as (_ & Hsym' & _).
  split; [|split; [|split]].
  - vm_compute. reflexivity.
  - rewrite <- Hsym. vm_compute. reflexivity.
  - vm_compute. reflexivity.
  - exact Hsym'.
Defined.

(** A pool whose new volumes are block backed with ext4, an image volume
    cached with that config, and a request for an ext4 volume. *)
Lemma shouldUseOptimizedImage_yes_keeps_cached_image_witness :
  let defaults : Config := {[ "block_mode" := "true"; "block.filesystem" := "ext4" ]} in
  let w := testImageWorld defaults [] in
  let b := testPool "p1" in
  let volConfig : Config := {[ "block.filesystem" := "ext4" ]} in
  let imgVol := GetVolume b VolumeTypeImage ContentTypeFS "fp" defaults in
  @run Mem bool (@shouldUseOptimizedImage Mem (MemDriverWith defaults) b "fp"
                   ContentTypeFS volConfig) w = (Ok true, w)
  /\ @drv_IsBlockBacked Mem (MemDriverWith defaults) imgVol = true
  /\ (w = w
      /\ negb (Bool.eqb (@drv_IsBlockBacked Mem (MemDriverWith defaults) imgVol)
                        (@drv_IsBlockBacked Mem (MemDriverWith defaults) imgVol))
         || @drv_IsBlockBacked Mem (MemDriverWith defaults) imgVol
            && negb (bool_decide (cfg (vol_config imgVol) "block.filesystem"
                                  = cfg (vol_config imgVol) "block.filesystem"))
         = false).
Proof.
  intros defaults w b volConfig imgVol.
  split; [vm_compute; reflexivity|]. split; [vm_compute; reflexivity|].
  apply (@shouldUseOptimizedImage_yes_keeps_cached_image Mem (MemDriverWith defaults)
           b "fp" ContentTypeFS volConfig w w (testImageRow "fp" defaults) imgVol).
  - vm_compute. discriminate.
  - vm_compute. reflexivity.
  - vm_compute. reflexivity.
  - vm_compute. reflexivity.
Defined.

(** ** Further operations of the backend *)

Lemma row_is_sv_update pool project name t description config (r : StorageVolume) :
  row_is pool project name t (sv_update description config r)
  = row_is pool project name t r.
Proof. reflexivity. Qed.

(** Updating the record of a volume updates what a lookup of it finds. *)
Lemma db_lookup_update pool project name t description config (db : list StorageVolume) :
  db_lookup pool project name t
    (List.map (fun r => if row_is pool project name t r
                        then sv_update description config r else r) db)
  = option_map (sv_update description config) (db_lookup pool project name t db).
Proof.
  unfold db_lookup. induction db as [|r db IH]; [reflexivity|].
  cbn [List.map List.find].
  destruct (row_is pool project name t r) eqn:Hr.
  - rewrite row_is_sv_update, Hr. reflexivity.
  - rewrite Hr. exact IH.
Qed.

Lemma sv_update_same (r : StorageVolume) :
  sv_update (sv_description r) (sv_config r) r = r.
Proof. now destruct r. Qed.

Lemma sv_update_twice d1 c1 d2 c2 (r : StorageVolume) :
  sv_update d2 c2 (sv_update d1 c1 r) = sv_update d2 c2 r.
Proof. reflexivity. Qed.

Lemma row_is_ne_name pool project name name' t (r : StorageVolume) :
  name <> name' ->
  row_is pool project name t r = true -> row_is pool project name' t r = false.
Proof.
  unfold row_is. intros Hne Hr.
  apply andb_true_iff in Hr as [Hr _]. apply andb_true_iff in Hr as [_ Hn].
  apply bool_decide_eq_true in Hn.
  rewrite (bool_decide_eq_false_2 (sv_name r = name')) by congruence.
  now rewrite andb_false_r.
Qed.

(** Removing the record of one volume leaves the lookup of another volume
    as it was. *)
Lemma db_lookup_remove_ne pool project name name' t (db : list StorageVolume) :
  name <> name' ->
  db_lookup pool project name t (db_remove pool project name' t db)
  = db_lookup pool project name t db.
Proof.
  intros Hne. unfold db_lookup, db_remove.
  induction db as [|r db IH]; [reflexivity|].
  cbn [List.filter List.find].
  destruct (row_is pool project name t r) eqn:Hr.
  - rewrite (row_is_ne_name _ _ _ _ _ _ Hne Hr). cbn [negb List.find]. now rewrite Hr.
  - destruct (row_is pool project name' t r); cbn [negb List.find]; [exact IH|].
    now rewrite Hr.
Qed.

Section MoreFacts.
Context {D : Type} `{Driver D} `{Host D} `{Codec} `{PoolHost D}.
Implicit Types (b : backend) (w : World D).

(** *** Instances *)

(** X6.  [DeleteInstance] refuses an instance that still has the record of
    a snapshot: it returns its error and has touched neither the storage
    device nor the records. *)
Theorem DeleteInstance_refuses_instance_with_snapshots b inst w volType snap :
  inst_isSnapshot inst = false ->
  InstanceTypeToVolumeType (inst_type inst) = Ok volType ->
  snap ∈ w_db w ->
  is_snapshot_of (b_name b) (inst_project inst) (inst_name inst) volType snap = true ->
  run (DeleteInstance b inst) w
  = (Err (ErrNew "Cannot remove an instance volume that has snapshots"), w).
Proof.
  intros Hnot Htype Hin Hsnap. unfold DeleteInstance. rewrite Hnot. mpath.
  assert (Hlen : (0 <? length (List.filter
             (is_snapshot_of (b_name b) (inst_project inst) (inst_name inst) volType)
             (w_db w)))%nat = true).
  { apply Nat.ltb_lt.
    assert (Hmem : snap ∈ List.filter
              (is_snapshot_of (b_name b) (inst_project inst) (inst_name inst) volType)
              (w_db w)) by (apply elem_of_filter_iff; split; assumption).
    destruct (List.filter _ _); [inversion Hmem|cbn; lia]. }
  rewrite Hlen. reflexivity.
Qed.

(** X7.  [DeleteInstanceSnapshot] deletes the record of the snapshot
    exactly when it returns nil: whenever it returns an error, that of the
    driver included, the records are as they were, and when it succeeds
    the record of the snapshot, and no other record, is gone. *)
Theorem DeleteInstanceSnapshot_record_deleted_on_success_only b inst w :
  w_db (run (DeleteInstanceSnapshot b inst) w).2
  = match (run (DeleteInstanceSnapshot b inst) w).1,
          InstanceTypeToVolumeType (inst_type inst) with
    | Ok _, Ok volType =>
      db_remove (b_name b) (inst_project inst) (inst_name inst) volType (w_db w)
    | _, _ => w_db w
    end.
Proof.
  unfold DeleteInstanceSnapshot.
  destruct (GetParentAndSnapshotName (inst_name inst)) as [[parentName snapName] isSnap].
  mpaths; reflexivity.
Qed.








(** *** Images *)

(** X9.  [UpdateImage] never changes the config of the record of an image
    volume: however it returns, the record holds the config it held.  It
    returns nil only for a new config that reads as the current one at every
    key (or for no config at all), and then the record holds the new
    description. *)
Theorem UpdateImage_changes_description_only b fingerprint newDesc newConfig w curVol :
  db_lookup (b_name b) ProjectDefaultName fingerprint VolumeTypeImage (w_db w)
  = Some curVol ->
  exists row,
    db_lookup (b_name b) ProjectDefaultName fingerprint VolumeTypeImage
      (w_db (run (UpdateImage b fingerprint newDesc newConfig) w).2) = Some row
    /\ sv_config row = sv_config curVol
    /\ ((run (UpdateImage b fingerprint newDesc newConfig) w).1 = Ok tt ->
        row = sv_update newDesc (sv_config curVol) curVol
        /\ forall config key, newConfig = Some config ->
                              cfg (sv_config curVol) key = cfg config key).
Proof.
  intros Hdb. unfold UpdateImage, updateVolumeDescriptionOnly.
  assert (Hupd : forall desc,
    db_lookup (b_name b) ProjectDefaultName fingerprint VolumeTypeImage
      (List.map (fun r => if row_is (b_name b) ProjectDefaultName fingerprint
                                VolumeTypeImage r
                          then sv_update desc (sv_config curVol) r else r) (w_db w))
    = Some (sv_update desc (sv_config curVol) curVol)).
  { intros desc. rewrite db_lookup_update, Hdb. reflexivity. }
  assert (Hchanged : forall config,
    (detectChangedConfig (sv_config curVol) config).1 = ∅ ->
    forall key, cfg (sv_config curVol) key = cfg config key).
  { intros config Hempty key.
    pose proof (detectChangedConfig_lookup (sv_config curVol) config key) as Hl.
    rewrite Hempty, lookup_empty in Hl.
    destruct (decide (cfg (sv_config curVol) key = cfg config key));
      [assumption|discriminate]. }
  destruct (VolumeTypeToDBType VolumeTypeImage) as [dbType|e]; mpath.
  2:{ exists curVol. split; [first [assumption|reflexivity]|split; [reflexivity|discriminate]]. }
  destruct newConfig as [config|].
  - destruct (detectChangedConfig (sv_config curVol) config) as [changedConfig userOnly]
      eqn:Hdetect.
    assert (changedConfig = (detectChangedConfig (sv_config curVol) config).1) as Hc
      by now rewrite Hdetect.
    destruct (bool_decide_reflect (changedConfig = ∅)) as [Hempty|Hne]; cbn [negb]; mpath.
    2:{ exists curVol. split; [first [assumption|reflexivity]|split; [reflexivity|discriminate]]. }
    rewrite Hc in Hempty. specialize (Hchanged config Hempty).
    destruct (bool_decide_reflect (newDesc = sv_description curVol)) as [->|Hd];
      cbn [negb]; mpath.
    + exists curVol. split; [|split; [reflexivity|]].
      * destruct (ContentTypeOfName _); mpath; [destruct (IsSnapshot _)|]; mpath;
          first [assumption|reflexivity].
      * intros _. split; [now rewrite sv_update_same|].
        intros config' key [= <-]. apply Hchanged.
    + exists (sv_update newDesc (sv_config curVol) curVol). split; [|split; [reflexivity|]].
      * destruct (ContentTypeOfName _); mpath; [destruct (IsSnapshot _)|]; mpath;
          first [apply Hupd|reflexivity].
      * intros _. split; [reflexivity|].
        intros config' key [= <-]. apply Hchanged.
  - mpath.
    destruct (bool_decide_reflect (newDesc = sv_description curVol)) as [->|Hd];
      cbn [negb]; mpath.
    + exists curVol. split; [|split; [reflexivity|]].
      * destruct (ContentTypeOfName _); mpath; [destruct (IsSnapshot _)|]; mpath;
          first [assumption|reflexivity].
      * intros _. split; [now rewrite sv_update_same|]. intros ? ? [=].
    + exists (sv_update newDesc (sv_config curVol) curVol). split; [|split; [reflexivity|]].
      * destruct (ContentTypeOfName _); mpath; [destruct (IsSnapshot _)|]; mpath;
          first [apply Hupd|reflexivity].
      * intros _. split; [reflexivity|]. intros ? ? [=].
Qed.


(** *** Custom volumes *)

(** Deleting snapshots one after the other never touches the record of a
    volume with another name, and when the loop succeeds the records of the
    snapshots are gone. *)
Lemma delete_snapshots_keeps_volume {A} b projectName volName (nameOf : A -> string)
    (l : list A) (st : St D) :
  (forall x, x ∈ l -> volName <> nameOf x) ->
  exists r w',
    forM_ l (fun x => DeleteCustomVolumeSnapshot b projectName (nameOf x)) st
    = Done r (mkSt w' (st_revert st))
    /\ db_lookup (b_name b) projectName volName VolumeTypeCustom (w_db w')
       = db_lookup (b_name b) projectName volName VolumeTypeCustom (w_db (st_world st))
    /\ (r = Ok tt ->
        w_db w' = fold_left (fun db x => db_remove (b_name b) projectName (nameOf x)
                                           VolumeTypeCustom db)
                            l (w_db (st_world st))).
Proof.
  revert st. induction l as [|x l IH]; intros st Hne.
  - exists (Ok tt), (st_world st). destruct st. repeat split.
  - cbn [forM_ fold_left]. unfold bind.
    destruct (DeleteCustomVolumeSnapshot_returns b projectName (nameOf x) st)
      as (r1 & w1 & -> & Hdb).
    assert (Hl1 : db_lookup (b_name b) projectName volName VolumeTypeCustom (w_db w1)
                  = db_lookup (b_name b) projectName volName VolumeTypeCustom
                      (w_db (st_world st))).
    { rewrite Hdb. destruct r1; [|reflexivity].
      apply db_lookup_remove_ne, Hne. left. }
    destruct r1 as [[]|e]; cbn [bindO].
    + destruct (IH (mkSt w1 (st_revert st))) as (r & w' & -> & Hl & Hr).
      { intros n Hn. apply Hne. now right. }
      exists r, w'. cbn [st_world st_revert] in *. split; [reflexivity|]. split.
      * now rewrite Hl.
      * intros Hok. rewrite (Hr Hok), Hdb. reflexivity.
    + eexists _, _. split; [reflexivity|]. split; [exact Hl1|discriminate].
Qed.

(** The name of a snapshot record is not a name without a slash. *)
Lemma snapshot_name_ne pool project volName name t (r : StorageVolume) :
  is_snapshot_of pool project volName t r = true ->
  splitSlash name = None ->
  name <> sv_name r.
Proof.
  intros Hsnap Hname ->. unfold is_snapshot_of, GetParentAndSnapshotName in Hsnap.
  rewrite Hname in Hsnap. cbn [andb] in Hsnap. now rewrite andb_false_r in Hsnap.
Qed.


(** However [DeleteCustomVolume] returns: with nil, the records of the
    snapshots of the volume and then the record of the volume are gone; with
    an error, the record of the volume is as it was. *)
Lemma DeleteCustomVolume_returns b projectName volName w (rv : list (@Hook D)) :
  let snapshots :=
    List.filter (is_snapshot_of (b_name b) projectName volName VolumeTypeCustom)
                (w_db w) in
  exists r w',
    DeleteCustomVolume b projectName volName (mkSt w rv) = Done r (mkSt w' rv)
    /\ match r with
       | Ok _ =>
         splitSlash volName = None
         /\ w_db w'
            = db_remove (b_name b) projectName volName VolumeTypeCustom
                (fold_left (fun db x => db_remove (b_name b) projectName (sv_name x)
                                          VolumeTypeCustom db)
                           snapshots (w_db w))
       | Err _ =>
         db_lookup (b_name b) projectName volName VolumeTypeCustom (w_db w')
         = db_lookup (b_name b) projectName volName VolumeTypeCustom (w_db w)
       end.
Proof.
  intros snapshots. unfold DeleteCustomVolume, GetParentAndSnapshotName.
  destruct (splitSlash volName) as [[parent snap]|] eqn:Hsplit.
  { eexists _, _. split; reflexivity. }
  mpath. fold snapshots.
  destruct (delete_snapshots_keeps_volume b projectName volName sv_name snapshots
              (mkSt w rv)) as (rdel & w1 & -> & Hlookup & Hdel).
  { intros x Hx. apply elem_of_filter_iff in Hx as [_ Hx].
    exact (snapshot_name_ne _ _ _ _ _ _ Hx Hsplit). }
  cbn [st_world st_revert] in *.
  destruct rdel as [[]|e]; cbn [bindO].
  2:{ eexists _, _. split; [reflexivity|exact Hlookup]. }
  specialize (Hdel eq_refl).
  mpaths.
  all: eexists _, _; split; [reflexivity|]; cbn [w_db set_db set_drv add_event].
  all: first [ exact Hlookup | congruence | split; [reflexivity|now rewrite Hdel] ].
Qed.


Lemma parent_of_plain (r : StorageVolume) :
  splitSlash (sv_name r) = None -> parent_of r = sv_name r.
Proof. unfold parent_of, GetParentAndSnapshotName. now intros ->. Qed.

Lemma parent_of_snapshot pool project volName t (r : StorageVolume) :
  is_snapshot_of pool project volName t r = true -> parent_of r = volName.
Proof.
  unfold is_snapshot_of, parent_of, GetParentAndSnapshotName.
  destruct (splitSlash (sv_name r)) as [[parent snap]|]; cbn [fst snd andb].
  - rewrite !andb_true_iff, !bool_decide_eq_true. now intros (_ & ->).
  - rewrite andb_false_r. discriminate.
Qed.

Lemma row_is_self (r : StorageVolume) :
  row_is (sv_pool r) (sv_project r) (sv_name r) (sv_type r) r = true.
Proof. unfold row_is. now rewrite !bool_decide_eq_true_2. Qed.

Lemma row_is_inv pool project name t (r : StorageVolume) :
  row_is pool project name t r = true ->
  sv_pool r = pool /\ sv_project r = project /\ sv_name r = name /\ sv_type r = t.
Proof.
  unfold row_is. rewrite !andb_true_iff, !bool_decide_eq_true. tauto.
Qed.

(** What is left of the records once the snapshots of a volume and the
    volume are removed. *)
Lemma records_without_volume b projectName volName (db : list StorageVolume) :
  splitSlash volName = None ->
  let isSnap := is_snapshot_of (b_name b) projectName volName VolumeTypeCustom in
  let db' := db_remove (b_name b) projectName volName VolumeTypeCustom
               (fold_left (fun db x => db_remove (b_name b) projectName (sv_name x)
                                         VolumeTypeCustom db)
                          (List.filter isSnap db) db) in
  db_lookup (b_name b) projectName volName VolumeTypeCustom db' = None
  /\ List.filter isSnap db' = []
  /\ (forall r, r ∈ db' -> r ∈ db)
  /\ (forall r, r ∈ db ->
        (sv_pool r, sv_project r, sv_type r, parent_of r)
        <> (b_name b, projectName, VolumeTypeCustom, volName) ->
        r ∈ db').
Proof.
  intros Hsplit isSnap db'. subst db'. rewrite fold_db_remove.
  split; [apply db_lookup_remove|]. unfold db_remove. split; [|split].
  - apply filter_none. intros r Hr.
    apply elem_of_filter_iff in Hr as [Hr _]. apply elem_of_filter_iff in Hr as [Hr Hall].
    destruct (isSnap r) eqn:Hsnap; [|reflexivity]. exfalso.
    rewrite forallb_forall in Hall. specialize (Hall r).
    assert (Hmem : In r (List.filter isSnap db)).
    { apply list_elem_of_In, elem_of_filter_iff. now split. }
    specialize (Hall Hmem). apply negb_true_iff in Hall.
    destruct (is_snapshot_of_inv _ _ _ _ _ Hsnap) as (Hp & Hpr & Ht & _).
    rewrite <- Hp, <- Hpr, <- Ht, row_is_self in Hall. discriminate.
  - intros r Hr. apply elem_of_filter_iff in Hr as [Hr _].
    now apply elem_of_filter_iff in Hr as [Hr _].
  - intros r Hr Hne. apply elem_of_filter_iff. split.
    + apply elem_of_filter_iff. split; [assumption|].
      apply forallb_forall. intros x Hx. apply list_elem_of_In in Hx.
      apply elem_of_filter_iff in Hx as [_ Hx].
      apply negb_true_iff, not_true_iff_false. intros Hrow.
      apply row_is_inv in Hrow as (Hp & Hpr & Hn & Ht).
      apply Hne. rewrite Hp, Hpr, Ht. repeat f_equal.
      unfold parent_of. rewrite Hn. exact (parent_of_snapshot _ _ _ _ _ Hx).
    + apply negb_true_iff, not_true_iff_false. intros Hrow.
      apply row_is_inv in Hrow as (Hp & Hpr & Hn & Ht).
      apply Hne. rewrite Hp, Hpr, Ht. repeat f_equal.
      rewrite parent_of_plain; [assumption|]. now rewrite Hn.
Qed.

(** X10.  [DeleteCustomVolume].  When it returns nil, neither the record of
    the volume nor the record of any of its snapshots is left, and every
    record of another volume is still there: nothing else was deleted and
    nothing was added.  When it returns an error the record of the volume
    is as it was, whatever became of its snapshots. *)
Theorem DeleteCustomVolume_leaves_no_record b projectName volName w :
  match run (DeleteCustomVolume b projectName volName) w with
  | (Ok _, w') =>
    db_lookup (b_name b) projectName volName VolumeTypeCustom (w_db w') = None
    /\ List.filter (is_snapshot_of (b_name b) projectName volName VolumeTypeCustom)
                   (w_db w') = []
    /\ (forall r, r ∈ w_db w' -> r ∈ w_db w)
    /\ (forall r, r ∈ w_db w ->
          (sv_pool r, sv_project r, sv_type r, parent_of r)
          <> (b_name b, projectName, VolumeTypeCustom, volName) ->
          r ∈ w_db w')
  | (Err _, w') =>
    db_lookup (b_name b) projectName volName VolumeTypeCustom (w_db w')
    = db_lookup (b_name b) projectName volName VolumeTypeCustom (w_db w)
  end.
Proof.
  destruct (DeleteCustomVolume_returns b projectName volName w [])
    as (r & w' & Hrun & Hpost).
  unfold run. rewrite Hrun. cbn [drive st_world].
  destruct r as [[]|e]; [|exact Hpost].
  destruct Hpost as [Hsplit ->].
  exact (records_without_volume b projectName volName (w_db w) Hsplit).
Qed.


(** X11.  [CreateCustomVolume] for a name that already has a record returns
    the conflict of the metadata store and leaves everything as it was: the
    driver is not called, and the record that was there is not taken for one
    to roll back. *)
Theorem CreateCustomVolume_keeps_existing_record
    b projectName volName desc config contentType w ct existing :
  Status b <> StoragePoolStatusPending ->
  LocalStatus b w <> StoragePoolStatusUnvailable ->
  VolumeTypeCustom ∈ VolumeTypes (b_info b) ->
  ContentTypeOfName contentType = Ok ct ->
  drv_ValidateVolume (GetVolume b VolumeTypeCustom contentType volName config) false
  = None ->
  db_lookup (b_name b) projectName volName VolumeTypeCustom (w_db w) = Some existing ->
  run (CreateCustomVolume b projectName volName desc config contentType) w
  = (Err ErrVolumeExists, w).
Proof.
  intros Hs Hl Hsup Hct Hval Hdb. unfold CreateCustomVolume. mpath. reflexivity.
Qed.

(** When [CreateCustomVolume] returns nil there was no record of the volume
    and the records are those before and the new one. *)
Lemma CreateCustomVolume_success_db b projectName volName desc config contentType w w1 :
  run (CreateCustomVolume b projectName volName desc config contentType) w
  = (Ok tt, w1) ->
  db_lookup (b_name b) projectName volName VolumeTypeCustom (w_db w) = None
  /\ exists row,
       w_db w1 = (w_db w ++ [row])%list
       /\ row_is (b_name b) projectName volName VolumeTypeCustom row = true
       /\ sv_snapshot row = false.
Proof.
  unfold CreateCustomVolume. mpaths; intros Heq; try discriminate Heq.
  all: injection Heq as <-; cbn [w_db set_db set_drv add_event].
  all: split; [first [assumption|reflexivity]|].
  all: eexists; split; [reflexivity|]; split; [|reflexivity].
  all: unfold row_is; cbn; now rewrite !bool_decide_eq_true_2.
Qed.

(** X12.  Creating a custom volume and deleting it again leaves the records
    exactly as they were before the creation, for a volume of which no
    stale snapshot record was lying around. *)
Theorem create_then_delete_custom_volume_restores_records
    b projectName volName desc config contentType w w1 w2 :
  List.filter (is_snapshot_of (b_name b) projectName volName VolumeTypeCustom)
              (w_db w) = [] ->
  run (CreateCustomVolume b projectName volName desc config contentType) w
  = (Ok tt, w1) ->
  run (DeleteCustomVolume b projectName volName) w1 = (Ok tt, w2) ->
  w_db w2 = w_db w.
Proof.
  intros Hnone Hcreate Hdelete.
  destruct (CreateCustomVolume_success_db _ _ _ _ _ _ _ _ Hcreate)
    as (Habsent & row & Hw1 & Hrow & Hsnap).
  destruct (DeleteCustomVolume_returns b projectName volName w1 [])
    as (r & w' & Hrun & Hpost).
  unfold run in Hdelete. rewrite Hrun in Hdelete. cbn [drive st_world] in Hdelete.
  injection Hdelete as -> ->. destruct Hpost as [_ ->].
  rewrite Hw1.
  rewrite (filter_snapshots_volume_record _ (b_name b) projectName volName
             (w_db w) row eq_refl Hsnap), Hnone.
  cbn [fold_left]. unfold db_remove. rewrite filter_app_eq. cbn [List.filter].
  rewrite Hrow. cbn [negb]. rewrite app_nil_r.
  apply (db_remove_absent _ _ _ _ _ Habsent).
Qed.


(** A loop whose body always returns and keeps the reverter as it is does
    so too. *)
Lemma forM_returns {A} (f : A -> M D unit) (l : list A) (st : St D) :
  (forall x st, exists r w', f x st = Done r (mkSt w' (st_revert st))) ->
  exists r w', forM_ l f st = Done r (mkSt w' (st_revert st)).
Proof.
  intros Hf. revert st. induction l as [|x l IH]; intros st.
  - exists (Ok tt), (st_world st). now destruct st.
  - cbn [forM_]. unfold bind. destruct (Hf x st) as ([[]|e] & w1 & ->); cbn [bindO].
    + destruct (IH (mkSt w1 (st_revert st))) as (r & w' & ->). now exists r, w'.
    + now eexists _, _.
Qed.

Lemma deleteNamedSnapshots_returns b projectName volName names (st : St D) :
  exists r w',
    deleteNamedSnapshots b projectName volName names st
    = Done r (mkSt w' (st_revert st)).
Proof.
  apply forM_returns. intros x st'.
  destruct (DeleteCustomVolumeSnapshot_returns b projectName
              (volName +:+ "/" +:+ x) st') as (r & w' & Hrun & _).
  now exists r, w'.
Qed.

(** The callback over the instances that use the volume: it passes when
    all of them load and none is running, and stops at the first one that
    is running. *)
Lemma checkNotRunning_passes (usedBy : list (Res Instance)) (st : St D) :
  Forall (fun loaded => exists inst, loaded = Ok inst /\ inst_isRunning inst = false)
         usedBy ->
  forM_ usedBy checkNotRunning st = Done (Ok tt) st.
Proof.
  induction 1 as [|loaded usedBy (inst & -> & Hrun) _ IH]; [reflexivity|].
  cbn [forM_]. unfold bind at 1, checkNotRunning at 1. mcbn. munfold. mcbn.
  rewrite Hrun. exact IH.
Qed.

(** X13.  [RestoreCustomVolume] refuses to restore a volume that a running
    instance uses: it returns its error before the driver is called, and
    nothing has changed. *)
Theorem RestoreCustomVolume_refuses_volume_of_running_instance
    b projectName volName snapshotName w curVol before inst after :
  IsSnapshot volName = false ->
  IsSnapshot snapshotName = false ->
  db_lookup (b_name b) projectName volName VolumeTypeCustom (w_db w) = Some curVol ->
  VolumeUsedByInstanceDevices (w_drv w) (b_name b) projectName curVol
  = Ok (before ++ Ok inst :: after)%list ->
  Forall (fun loaded => exists i, loaded = Ok i /\ inst_isRunning i = false) before ->
  inst_isRunning inst = true ->
  run (RestoreCustomVolume b projectName volName snapshotName) w
  = (Err (ErrNew "Cannot restore custom volume used by running instances"), w).
Proof.
  intros Hvol Hsnap Hdb Hused Hbefore Hrunning.
  unfold RestoreCustomVolume. rewrite Hvol, Hsnap. mpath.
  assert (Hloop : forM_ (before ++ Ok inst :: after)%list checkNotRunning (mkSt w [])
                  = Done (Err (ErrNew "Cannot restore custom volume used by running instances"))
                         (mkSt w [])).
  { clear Hused. induction Hbefore as [|loaded before (i & -> & Hi) _ IH].
    - cbn [app forM_]. unfold bind at 1, checkNotRunning at 1. mcbn. munfold. mcbn.
      now rewrite Hrunning.
    - cbn [app forM_]. unfold bind at 1, checkNotRunning at 1. mcbn. munfold. mcbn.
      rewrite Hi. exact IH. }
  rewrite Hloop. reflexivity.
Qed.

(** X14.  [RestoreCustomVolume] on a volume no running instance uses.  When
    the first [RestoreVolume] succeeds the restore is announced with a
    lifecycle event.  When it fails with an error that is not
    [ErrDeleteSnapshots] that error is returned.  When it fails with
    [ErrDeleteSnapshots] the snapshots it names are deleted as custom volume
    snapshots of the volume, one after the other, and [RestoreVolume] is
    called a second time: the function returns what that call gives, and on
    this path announces nothing, also when the second call succeeds. *)
Theorem RestoreCustomVolume_retries_once_without_event
    b projectName volName snapshotName w curVol ct usedBy d1 r1 :
  let vol := GetVolume b VolumeTypeCustom ct
               (project_StorageVolume projectName volName) (sv_config curVol) in
  let restore := CallRestoreVolume vol snapshotName in
  let w1 := add_event (EvDriver restore r1) (set_drv d1 w) in
  IsSnapshot volName = false ->
  IsSnapshot snapshotName = false ->
  db_lookup (b_name b) projectName volName VolumeTypeCustom (w_db w) = Some curVol ->
  VolumeUsedByInstanceDevices (w_drv w) (b_name b) projectName curVol = Ok usedBy ->
  Forall (fun loaded => exists i, loaded = Ok i /\ inst_isRunning i = false) usedBy ->
  ContentTypeOfName (sv_contentType curVol) = Ok ct ->
  drv_exec (w_drv w) restore = (d1, r1) ->
  match r1 with
  | None =>
    run (RestoreCustomVolume b projectName volName snapshotName) w
    = (Ok tt, add_event (EvLifecycle "storage-volume-restored" vol) w1)
  | Some err =>
    match errors_As_DeleteSnapshots err with
    | None =>
      run (RestoreCustomVolume b projectName volName snapshotName) w = (Err err, w1)
    | Some names =>
      match run (deleteNamedSnapshots b projectName volName names) w1 with
      | (Err e, w2) =>
        run (RestoreCustomVolume b projectName volName snapshotName) w = (Err e, w2)
      | (Ok _, w2) =>
        let '(d3, r3) := drv_exec (w_drv w2) restore in
        run (RestoreCustomVolume b projectName volName snapshotName) w
        = (match r3 with Some e => Err e | None => Ok tt end,
           add_event (EvDriver restore r3) (set_drv d3 w2))
      end
    end
  end.
Proof.
  intros vol restore w1 Hvol Hsnap Hdb Hused Hall Hct Hexec. subst vol restore w1.
  unfold RestoreCustomVolume. rewrite Hvol, Hsnap.
  destruct r1 as [err|].
  - destruct (errors_As_DeleteSnapshots err) as [names|] eqn:Has.
    + unfold run at 1.
      match goal with
      | |- context [drive (deleteNamedSnapshots b projectName volName names ?st)] =>
        destruct (deleteNamedSnapshots_returns b projectName volName names st)
          as (rdel & w2 & Hdel)
      end.
      rewrite Hdel. cbn [drive st_world st_revert].
      mnorm. mpath. rewrite (checkNotRunning_passes usedBy _ Hall). mpath.
      try rewrite Hdel. destruct rdel as [[]|e]; mpath; [|reflexivity].
      destruct (drv_exec (w_drv w2) _) as [d3 [e3|]]; reflexivity.
    + mpath. rewrite (checkNotRunning_passes usedBy _ Hall). mpath. reflexivity.
  - mpath. rewrite (checkNotRunning_passes usedBy _ Hall). mpath. reflexivity.
Qed.


(** *** Mounting the pool *)

(** A loop whose body always returns, keeps the reverter and leaves the set
    of unavailable pools alone does so too. *)
Lemma forM_keeps_unavailablePools {A} (f : A -> M D unit) (l : list A) (st : St D) :
  (forall x st, exists r w',
      f x st = Done r (mkSt w' (st_revert st))
      /\ w_unavailablePools w' = w_unavailablePools (st_world st)) ->
  exists r w',
    forM_ l f st = Done r (mkSt w' (st_revert st))
    /\ w_unavailablePools w' = w_unavailablePools (st_world st).
Proof.
  intros Hf. revert st. induction l as [|x l IH]; intros st.
  - exists (Ok tt), (st_world st). now destruct st.
  - cbn [forM_]. unfold bind. destruct (Hf x st) as ([[]|e] & w1 & -> & Hw1); cbn [bindO].
    + destruct (IH (mkSt w1 (st_revert st))) as (r & w' & -> & Hw').
      exists r, w'. split; [reflexivity|]. now rewrite Hw'.
    + now eexists _, _.
Qed.

Lemma createStorageStructure_returns b path (st : St D) :
  exists r w',
    createStorageStructure b path st = Done r (mkSt w' (st_revert st))
    /\ w_unavailablePools w' = w_unavailablePools (st_world st).
Proof.
  unfold createStorageStructure.
  apply forM_keeps_unavailablePools. intros volType st1.
  apply forM_keeps_unavailablePools. intros name [w1 rv1].
  unfold createBaseDirectory. mpaths; eexists _, _; split; reflexivity.
Qed.

(** However the part of [Mount] under the reverter returns: with a result,
    the reverter is empty and the pool is off the set of unavailable pools;
    with an error, the set is as it was and the reverter holds the closure
    that marks the pool unavailable, followed at most by the unmount. *)
Lemma Mount_body_returns b w :
  exists body,
    Mount b = with_reverter body
    /\ exists r st',
         body (mkSt w []) = Done r st'
         /\ match r with
            | Ok _ =>
              st_revert st' = []
              /\ w_unavailablePools (st_world st')
                 = w_unavailablePools w ∖ {[ b_name b ]}
            | Err _ =>
              w_unavailablePools (st_world st') = w_unavailablePools w
              /\ (st_revert st' = [markUnavailable b]
                  \/ st_revert st' = [markUnavailable b; hook (Unmount b)])
            end.
Proof.
  eexists. split; [reflexivity|].
  remember (hook (Unmount b)) as hUnmount eqn:HhU.
  unfold driver_Mount. mpaths.
  all: repeat match goal with
       | |- context [createStorageStructure ?b0 ?p ?st] =>
         let rc := fresh "rc" in let wc := fresh "wc" in
         let Hc := fresh "Hc" in let Hun := fresh "Hun" in
         destruct (createStorageStructure_returns b0 p st) as (rc & wc & Hc & Hun);
         rewrite Hc; destruct rc as [[]|?]; mpaths
       end.
  all: eexists _, _; split; [reflexivity|];
       cbn [st_revert st_world w_unavailablePools set_unavailablePools set_drv
            add_event] in *.
  all: first [ split; [reflexivity|]; congruence
             | split; [first [reflexivity|congruence]|]; first [now left|now right] ].
Qed.

Lemma LocalStatus_available b w :
  b_name b ∉ w_unavailablePools w -> LocalStatus b w <> StoragePoolStatusUnvailable.
Proof.
  intros Hav. unfold LocalStatus, IsAvailable.
  rewrite bool_decide_eq_true_2 by exact Hav. cbn [negb].
  destruct (b_nodes b !! b_nodeID b) as [node|]; [|discriminate].
  unfold StoragePoolStateToAPIStatus. repeat case_match; discriminate.
Qed.

Lemma LocalStatus_unavailable b w :
  b_name b ∈ w_unavailablePools w -> LocalStatus b w = StoragePoolStatusUnvailable.
Proof.
  intros Hun. unfold LocalStatus, IsAvailable.
  rewrite bool_decide_eq_false_2 by (intros Hn; now apply Hn). reflexivity.
Qed.

(** X15.  [Mount] keeps the set of unavailable pools in step with its
    result.  When it fails, at whatever step, the pool is put on the set and
    the readiness check of a pool that is not pending then fails with the
    error for an unavailable pool; when it succeeds the pool is taken off
    the set, also when an earlier failure had put it there, and the
    readiness check passes.  No other pool is put on or taken off. *)
Theorem Mount_result_decides_availability b w :
  match run (Mount b) w with
  | (Ok _, w') =>
    w_unavailablePools w' = w_unavailablePools w ∖ {[ b_name b ]}
    /\ (Status b <> StoragePoolStatusPending ->
        run (isStatusReady b) w' = (Ok tt, w'))
  | (Err _, w') =>
    w_unavailablePools w' = {[ b_name b ]} ∪ w_unavailablePools w
    /\ (Status b <> StoragePoolStatusPending ->
        run (isStatusReady b) w' = (Err ErrPoolUnavailable, w'))
  end.
Proof.
  destruct (Mount_body_returns b w) as (body & -> & r & st' & Hbody & Hpost).
  unfold run at 1. rewrite (with_reverter_Done body w [] r st' Hbody).
  cbn [drive st_world].
  destruct r as [ourMount|e].
  - destruct Hpost as [-> Hun]. cbn [fold_right]. split; [exact Hun|].
    intros Hs. apply isStatusReady_passes. split; [exact Hs|].
    apply LocalStatus_available. rewrite Hun, elem_of_difference.
    intros [_ Hn]. apply Hn. now apply elem_of_singleton.
  - destruct Hpost as [Hun Hrv].
    assert (Hfinal : w_unavailablePools
                       (fold_right (fun h w => h w) (st_world st') (st_revert st'))
                     = {[ b_name b ]} ∪ w_unavailablePools w).
    { destruct Hrv as [-> | ->]; cbn [fold_right]; unfold markUnavailable;
        cbn [w_unavailablePools set_unavailablePools]; [now rewrite Hun|].
      unfold hook, Unmount, driver_Unmount. cbn [st_world].
      destruct (drv_Unmount _) as [d' ru]. cbn [world_of st_world w_unavailablePools set_drv].
      now rewrite Hun. }
    split; [exact Hfinal|].
    intros Hs. rewrite isStatusReady_run.
    rewrite decide_False by exact Hs.
    rewrite decide_True; [reflexivity|].
    apply LocalStatus_unavailable. rewrite Hfinal.
    apply elem_of_union_l. now apply elem_of_singleton.
Qed.


(** *** Restoring an instance snapshot *)

(** X16.  [RestoreInstanceSnapshot] writes the description and the config of
    the snapshot to the record of the instance before it calls the driver,
    and the first [RestoreVolume] decides what becomes of that: when it
    succeeds the record keeps them; when it fails with an error that is not
    [ErrDeleteSnapshots] the error is returned and the record is put back
    to the description and config it had. *)
Theorem RestoreInstanceSnapshot_record_follows_first_attempt
    b inst src w volType dbVol srcDBVol vol parent snapshotName d1 r1 :
  let restore := CallRestoreVolume vol snapshotName in
  let updated :=
    List.map (fun r => if row_is (b_name b) (inst_project inst) (inst_name inst) volType r
                       then sv_update (sv_description srcDBVol) (sv_config srcDBVol) r
                       else r) (w_db w) in
  let update := EvDBUpdate (b_name b) (inst_project inst) (inst_name inst) volType
                  (sv_description srcDBVol) (sv_config srcDBVol) in
  inst_type inst = inst_type src ->
  inst_isSnapshot inst = false ->
  inst_isSnapshot src = true ->
  inst_isRunning inst = false ->
  InstanceTypeToVolumeType (inst_type inst) = Ok volType ->
  db_lookup (b_name b) (inst_project inst) (inst_name inst) volType (w_db w)
  = Some dbVol ->
  applyInstanceRootDiskOverrides inst
    (GetVolume b volType (InstanceContentType inst)
       (project_Instance (inst_project inst) (inst_name inst)) (sv_config dbVol))
  = Ok vol ->
  GetParentAndSnapshotName (inst_name src) = (parent, snapshotName, true) ->
  db_lookup (b_name b) (inst_project src) (inst_name src) volType (w_db w)
  = Some srcDBVol ->
  (detectChangedConfig (sv_config dbVol) (sv_config srcDBVol)).1 <> ∅
  \/ sv_description dbVol <> sv_description srcDBVol ->
  drv_exec (w_drv w) restore = (d1, r1) ->
  match r1 with
  | None =>
    exists w',
      run (RestoreInstanceSnapshot b inst src) w = (Ok tt, w')
      /\ db_lookup (b_name b) (inst_project inst) (inst_name inst) volType (w_db w')
         = Some (sv_update (sv_description srcDBVol) (sv_config srcDBVol) dbVol)
      /\ w_trace w' = (w_trace w ++ [update; EvDriver restore None])%list
  | Some err =>
    errors_As_DeleteSnapshots err = None ->
    exists w',
      run (RestoreInstanceSnapshot b inst src) w = (Err err, w')
      /\ db_lookup (b_name b) (inst_project inst) (inst_name inst) volType (w_db w')
         = Some dbVol
      /\ w_trace w'
         = (w_trace w ++
            [update; EvDriver restore (Some err);
             EvDBUpdate (b_name b) (inst_project inst) (inst_name inst) volType
               (sv_description dbVol) (sv_config dbVol)])%list
  end.
Proof.
  intros restore updated update Htype Hnot Hsrc Hrun Hvt Hdb Hover Hname Hsdb Hchanged
         Hexec.
  subst restore updated update.
  assert (Hif : negb (bool_decide ((detectChangedConfig (sv_config dbVol)
                                      (sv_config srcDBVol)).1 = ∅))
                || negb (bool_decide (sv_description dbVol = sv_description srcDBVol))
                = true).
  { destruct Hchanged as [Hc|Hd].
    - now rewrite (bool_decide_eq_false_2 _ Hc).
    - rewrite (bool_decide_eq_false_2 _ Hd). apply orb_true_r. }
  assert (Hupd : forall desc config,
    db_lookup (b_name b) (inst_project inst) (inst_name inst) volType
      (List.map (fun r => if row_is (b_name b) (inst_project inst) (inst_name inst)
                                volType r
                          then sv_update desc config r else r) (w_db w))
    = Some (sv_update desc config dbVol)).
  { intros desc config. rewrite db_lookup_update, Hdb. reflexivity. }
  unfold RestoreInstanceSnapshot, RestoreInstanceSnapshot_restore.
  rewrite Htype, Hnot, Hsrc, Hrun, bool_decide_eq_true_2 by reflexivity.
  cbn [negb]. rewrite <- Htype, Hvt.
  destruct (detectChangedConfig (sv_config dbVol) (sv_config srcDBVol))
    as [changedConfig userOnly] eqn:Hdetect.
  cbn [fst] in Hif.
  destruct r1 as [err|].
  - intros Has. eexists. split; [|split].
    + repeat first [progress mpath | rewrite Hif | rewrite Hupd]. reflexivity.
    + mcbn. rewrite db_lookup_update, Hupd. cbn [option_map].
      now rewrite sv_update_twice, sv_update_same.
    + mcbn. rewrite <- !app_assoc. reflexivity.
  - eexists. split; [|split].
    + repeat first [progress mpath | rewrite Hif]. reflexivity.
    + mcbn. apply Hupd.
    + mcbn. rewrite <- !app_assoc. reflexivity.
Qed.


(** X17.  [RestoreInstanceSnapshot] returns from its second attempt without
    telling the reverter of its success.  When the first [RestoreVolume]
    fails with [ErrDeleteSnapshots], the blocking snapshots are deleted and
    the second [RestoreVolume] succeeds, the function returns nil and the
    compensating action still runs: the record of the instance is written
    back to the description and config it had before the restore. *)
Theorem RestoreInstanceSnapshot_retry_puts_record_back
    b inst src w volType dbVol srcDBVol vol parent snapshotName
    d1 err names snaps w2 d3 row2 :
  let restore := CallRestoreVolume vol snapshotName in
  let updated :=
    List.map (fun r => if row_is (b_name b) (inst_project inst) (inst_name inst) volType r
                       then sv_update (sv_description srcDBVol) (sv_config srcDBVol) r
                       else r) (w_db w) in
  let update := EvDBUpdate (b_name b) (inst_project inst) (inst_name inst) volType
                  (sv_description srcDBVol) (sv_config srcDBVol) in
  let w1 := add_event (EvDriver restore (Some err))
              (set_drv d1 (add_event update (set_db updated w))) in
  inst_type inst = inst_type src ->
  inst_isSnapshot inst = false ->
  inst_isSnapshot src = true ->
  inst_isRunning inst = false ->
  InstanceTypeToVolumeType (inst_type inst) = Ok volType ->
  db_lookup (b_name b) (inst_project inst) (inst_name inst) volType (w_db w)
  = Some dbVol ->
  applyInstanceRootDiskOverrides inst
    (GetVolume b volType (InstanceContentType inst)
       (project_Instance (inst_project inst) (inst_name inst)) (sv_config dbVol))
  = Ok vol ->
  GetParentAndSnapshotName (inst_name src) = (parent, snapshotName, true) ->
  db_lookup (b_name b) (inst_project src) (inst_name src) volType (w_db w)
  = Some srcDBVol ->
  (detectChangedConfig (sv_config dbVol) (sv_config srcDBVol)).1 <> ∅
  \/ sv_description dbVol <> sv_description srcDBVol ->
  drv_exec (w_drv w) restore = (d1, Some err) ->
  errors_As_DeleteSnapshots err = Some names ->
  host_Snapshots d1 inst = Ok snaps ->
  run (forM_ (blockingSnapshots names snaps) inst_Delete) w1 = (Ok tt, w2) ->
  drv_exec (w_drv w2) restore = (d3, None) ->
  db_lookup (b_name b) (inst_project inst) (inst_name inst) volType (w_db w2)
  = Some row2 ->
  exists w',
    run (RestoreInstanceSnapshot b inst src) w = (Ok tt, w')
    /\ db_lookup (b_name b) (inst_project inst) (inst_name inst) volType (w_db w')
       = Some (sv_update (sv_description dbVol) (sv_config dbVol) row2)
    /\ w_trace w'
       = (w_trace w2 ++
          [EvDriver restore None;
           EvDBUpdate (b_name b) (inst_project inst) (inst_name inst) volType
             (sv_description dbVol) (sv_config dbVol)])%list.
Proof.
  intros restore updated update w1 Htype Hnot Hsrc Hrun Hvt Hdb Hover Hname Hsdb
         Hchanged Hexec Has Hsnaps Hdel Hexec2 Hdb2.
  subst restore updated update w1.
  assert (Hif : negb (bool_decide ((detectChangedConfig (sv_config dbVol)
                                      (sv_config srcDBVol)).1 = ∅))
                || negb (bool_decide (sv_description dbVol = sv_description srcDBVol))
                = true).
  { destruct Hchanged as [Hc|Hd].
    - now rewrite (bool_decide_eq_false_2 _ Hc).
    - rewrite (bool_decide_eq_false_2 _ Hd). apply orb_true_r. }
  unfold RestoreInstanceSnapshot, RestoreInstanceSnapshot_restore.
  rewrite Htype, Hnot, Hsrc, Hrun, bool_decide_eq_true_2 by reflexivity.
  cbn [negb]. rewrite <- Htype, Hvt.
  destruct (detectChangedConfig (sv_config dbVol) (sv_config srcDBVol))
    as [changedConfig userOnly] eqn:Hdetect.
  cbn [fst] in Hif.
  mnorm.
  eexists. split; [|split].
  - repeat first [progress mpath | rewrite Hif].
    rewrite deleteBlockingSnapshots_filter.
    match goal with
    | |- context [forM_ (blockingSnapshots names snaps) inst_Delete (mkSt ?w1 ?rv)] =>
      destruct (forM_inst_Delete_returns (blockingSnapshots names snaps) w1 rv)
        as (rdel & wdel & Hst & Hrun' & _);
      pose proof (eq_trans (eq_sym Hrun') Hdel) as Hsame;
      injection Hsame as -> ->; rewrite Hst
    end.
    mpath. reflexivity.
  - mcbn. rewrite db_lookup_update, Hdb2. reflexivity.
  - mcbn. rewrite <- !app_assoc. reflexivity.
Qed.


(** *** Restoring an instance from a backup *)


End MoreFacts.
(** The container c1 with the record of its snapshot snap0. *)
Lemma DeleteInstance_refuses_instance_with_snapshots_witness :
  let w := testWorld [testInstanceRow "c1" "" ∅; testInstanceRow "c1/snap0" "" ∅]
                     (testMemInstance ["snap0"]) in
  run (DeleteInstance (testPool "p1") (testInstance "c1")) w
  = (Err (ErrNew "Cannot remove an instance volume that has snapshots"), w).
Proof.
  intros w.
  apply (DeleteInstance_refuses_instance_with_snapshots (testPool "p1")
           (testInstance "c1") w VolumeTypeContainer (testInstanceRow "c1/snap0" "" ∅)).
  - reflexivity.
  - reflexivity.
  - apply list_elem_of_further, list_elem_of_here.
  - vm_compute. reflexivity.
Defined.


(** The image fp with a size in its config: a new description with the same
    config is taken, and the config stays. *)
Lemma UpdateImage_changes_description_only_witness :
  let config : Config := {[ "size" := "1GiB" ]} in
  let w := testImageWorld config [] in
  let after := run (UpdateImage (testPool "p1") "fp" "cached image" (Some config)) w in
  after.1 = Ok tt
  /\ exists row,
       db_lookup "p1" ProjectDefaultName "fp" VolumeTypeImage (w_db after.2) = Some row
       /\ sv_config row = config
       /\ sv_description row = "cached image".
Proof.
  intros config w after.
  destruct (UpdateImage_changes_description_only (testPool "p1") "fp" "cached image"
              (Some config) w (testImageRow "fp" config) eq_refl)
    as (row & Hlookup & Hconfig & Hok).
  assert (Hrun : after.1 = Ok tt) by (vm_compute; reflexivity).
  split; [exact Hrun|].
  exists row. split; [exact Hlookup|]. split; [exact Hconfig|].
  destruct (Hok Hrun) as [-> _]. reflexivity.
Defined.

(** The volume vol1 has a record and is on storage. *)
Lemma CreateCustomVolume_keeps_existing_record_witness :
  let w := testWorld [testVolumeRow "p1" "vol1"]
                     (testMem [("p1", VolumeTypeCustom, "default_vol1")] []) in
  run (CreateCustomVolume (testPool "p1") ProjectDefaultName "vol1" "" ∅ ContentTypeFS) w
  = (Err ErrVolumeExists, w).
Proof.
  intros w.
  apply (CreateCustomVolume_keeps_existing_record (testPool "p1") ProjectDefaultName
           "vol1" "" ∅ ContentTypeFS w ContentTypeFS (testVolumeRow "p1" "vol1")).
  - discriminate.
  - vm_compute. discriminate.
  - vm_compute. apply list_elem_of_here.
  - reflexivity.
  - reflexivity.
  - reflexivity.
Defined.

(** Creating vol1 beside another volume and deleting it again. *)
Lemma create_then_delete_custom_volume_restores_records_witness :
  let w := testWorld [testVolumeRow "p1" "other"]
                     (testMem [("p1", VolumeTypeCustom, "default_other")] []) in
  let create :=
    run (CreateCustomVolume (testPool "p1") ProjectDefaultName "vol1" "" ∅ ContentTypeFS)
        w in
  let delete := run (DeleteCustomVolume (testPool "p1") ProjectDefaultName "vol1")
                    create.2 in
  create.1 = Ok tt /\ delete.1 = Ok tt
  /\ length (w_db create.2) = 2%nat
  /\ w_db delete.2 = w_db w.
Proof.
  intros w create delete.
  split; [vm_compute; reflexivity|]. split; [vm_compute; reflexivity|].
  split; [vm_compute; reflexivity|].
  apply (create_then_delete_custom_volume_restores_records (testPool "p1")
           ProjectDefaultName "vol1" "" ∅ ContentTypeFS w create.2 delete.2).
  - vm_compute. reflexivity.
  - vm_compute. reflexivity.
  - vm_compute. reflexivity.
Defined.

(** The volume vol1 is used by a stopped container and by a running one. *)
Lemma RestoreCustomVolume_refuses_volume_of_running_instance_witness :
  let w := testWorld [testVolumeRow "p1" "vol1"; testVolumeRow "p1" "vol1/s1"]
                     (testMem [("p1", VolumeTypeCustom, "default_vol1");
                               ("p1", VolumeTypeCustom, "default_vol1/s1")] []) in
  let usedBy := [Ok (testInstance "c1"); Ok (testRunningInstance "c2")] in
  @run Mem unit (@RestoreCustomVolume Mem MemDriver (MemPoolHostWith usedBy)
                   (testPool "p1") ProjectDefaultName "vol1" "s1") w
  = (Err (ErrNew "Cannot restore custom volume used by running instances"), w).
Proof.
  intros w usedBy.
  apply (@RestoreCustomVolume_refuses_volume_of_running_instance Mem MemDriver
           (MemPoolHostWith usedBy) (testPool "p1") ProjectDefaultName "vol1" "s1" w
           (testVolumeRow "p1" "vol1") [Ok (testInstance "c1")]
           (testRunningInstance "c2") []).
  - reflexivity.
  - reflexivity.
  - reflexivity.
  - reflexivity.
  - constructor; [|constructor]. exists (testInstance "c1"). split; reflexivity.
  - reflexivity.
Defined.

(** The volume vol1 with the snapshots s1 and s2; restoring s1 is blocked by
    s2 at the first attempt. *)
Lemma RestoreCustomVolume_retries_once_without_event_witness :
  let w := testWorld [testVolumeRow "p1" "vol1"; testVolumeRow "p1" "vol1/s1";
                      testVolumeRow "p1" "vol1/s2"]
                     (testMem [("p1", VolumeTypeCustom, "default_vol1");
                               ("p1", VolumeTypeCustom, "default_vol1/s1");
                               ("p1", VolumeTypeCustom, "default_vol1/s2")]
                              [Some (ErrDeleteSnapshots ["s2"])]) in
  let vol := GetVolume (testPool "p1") VolumeTypeCustom ContentTypeFS "default_vol1" ∅ in
  let snap := GetVolume (testPool "p1") VolumeTypeCustom ContentTypeFS
                "default_vol1/s2" ∅ in
  let restore := CallRestoreVolume vol "s1" in
  let after := run (RestoreCustomVolume (testPool "p1") ProjectDefaultName "vol1" "s1")
                   w in
  after.1 = Ok tt
  /\ w_trace after.2
     = [EvDriver restore (Some (ErrDeleteSnapshots ["s2"]));
        EvDriver (CallDeleteVolumeSnapshot snap) None;
        EvDBDelete "p1" ProjectDefaultName "vol1/s2" VolumeTypeCustom;
        EvLifecycle "storage-volume-snapshot-deleted" snap;
        EvDriver restore None]
  /\ map sv_name (w_db after.2) = ["vol1"; "vol1/s1"].
Proof.
  intros w vol snap restore after.
  pose proof (RestoreCustomVolume_retries_once_without_event (testPool "p1")
                ProjectDefaultName "vol1" "s1" w (testVolumeRow "p1" "vol1")
                ContentTypeFS [] (drv_exec (w_drv w) restore).1
                (Some (ErrDeleteSnapshots ["s2"]))
                eq_refl eq_refl eq_refl eq_refl (List.Forall_nil _) eq_refl eq_refl)
    as Hthm.
  cbv zeta in Hthm. cbn [errors_As_DeleteSnapshots] in Hthm.
  subst after.
  remember (run (RestoreCustomVolume (testPool "p1") ProjectDefaultName "vol1" "s1") w)
    as after eqn:Hafter in *.
  clear Hafter. vm_compute in Hthm. rewrite Hthm.
  split; [reflexivity|]. split; reflexivity.
Defined.

(** The container c1 and its snapshot snap0, whose record has a description
    and a config of its own; the driver refuses to restore. *)
Lemma RestoreInstanceSnapshot_record_follows_first_attempt_witness :
  let row := testInstanceRow "c1" "" ∅ in
  let snapRow := testInstanceRow "c1/snap0" "before upgrade" {[ "user.k" := "v" ]} in
  let w outcomes := testWorld [row; snapRow] (testMemSnapshots ["snap0"] outcomes) in
  let restored :=
    run (RestoreInstanceSnapshot (testPool "p1") (testInstance "c1")
           (testInstance "c1/snap0")) (w []) in
  let failed :=
    run (RestoreInstanceSnapshot (testPool "p1") (testInstance "c1")
           (testInstance "c1/snap0")) (w [Some ErrNotSupported]) in
  (restored.1 = Ok tt
   /\ db_lookup "p1" ProjectDefaultName "c1" VolumeTypeContainer (w_db restored.2)
      = Some (testInstanceRow "c1" "before upgrade" {[ "user.k" := "v" ]}))
  /\ (failed.1 = Err ErrNotSupported
      /\ db_lookup "p1" ProjectDefaultName "c1" VolumeTypeContainer (w_db failed.2)
         = Some row).
Proof.
  intros row snapRow w restored failed.
  pose (vol := GetVolume (testPool "p1") VolumeTypeContainer ContentTypeFS "c1" ∅).
  pose proof (RestoreInstanceSnapshot_record_follows_first_attempt (testPool "p1")
                (testInstance "c1") (testInstance "c1/snap0") (w [])
                VolumeTypeContainer row snapRow vol "c1" "snap0"
                (testMemSnapshots ["snap0"] []) None) as Hfirst.
  pose proof (RestoreInstanceSnapshot_record_follows_first_attempt (testPool "p1")
                (testInstance "c1") (testInstance "c1/snap0") (w [Some ErrNotSupported])
                VolumeTypeContainer row snapRow vol "c1" "snap0"
                (testMemSnapshots ["snap0"] []) (Some ErrNotSupported)) as Hfails.
  cbv zeta in Hfirst, Hfails.
  destruct Hfirst as (w1 & Hrun1 & Hdb1 & _);
    [ reflexivity | reflexivity | reflexivity | reflexivity | reflexivity
    | vm_compute; reflexivity | vm_compute; reflexivity | vm_compute; reflexivity
    | vm_compute; reflexivity | right; discriminate | vm_compute; reflexivity | ].
  destruct Hfails as (w2 & Hrun2 & Hdb2 & _);
    [ reflexivity | reflexivity | reflexivity | reflexivity | reflexivity
    | vm_compute; reflexivity | vm_compute; reflexivity | vm_compute; reflexivity
    | vm_compute; reflexivity | right; discriminate | vm_compute; reflexivity
    | reflexivity | ].
  subst restored failed. rewrite Hrun1, Hrun2. cbn [fst snd].
  split; (split; [reflexivity|]); assumption.
Defined.

(** The container c1 with the snapshots snap0 and snap1; restoring snap0 is
    blocked by snap1 at the first attempt and succeeds at the second. *)
Lemma RestoreInstanceSnapshot_retry_puts_record_back_witness :
  let row := testInstanceRow "c1" "" ∅ in
  let snapRow := testInstanceRow "c1/snap0" "before upgrade" {[ "user.k" := "v" ]} in
  let w := testWorld [row; snapRow]
             (testMemSnapshots ["snap0"; "snap1"] [Some (ErrDeleteSnapshots ["snap1"])]) in
  let after :=
    run (RestoreInstanceSnapshot (testPool "p1") (testInstance "c1")
           (testInstance "c1/snap0")) w in
  after.1 = Ok tt
  /\ db_lookup "p1" ProjectDefaultName "c1" VolumeTypeContainer (w_db after.2) = Some row.
Proof.
  intros row snapRow w after.
  pose (vol := GetVolume (testPool "p1") VolumeTypeContainer ContentTypeFS "c1" ∅).
  pose (restore := CallRestoreVolume vol "snap0").
  pose (blocked := ErrDeleteSnapshots ["snap1"]).
  pose (updatedRow := testInstanceRow "c1" "before upgrade" {[ "user.k" := "v" ]}).
  pose (d1 := testMemSnapshots ["snap0"; "snap1"] []).
  pose (w2 := (run (forM_ (blockingSnapshots ["snap1"] (mem_instSnapshots d1))
                          inst_Delete)
                   (add_event (EvDriver restore (Some blocked))
                      (set_drv d1
                         (add_event
                            (EvDBUpdate "p1" ProjectDefaultName "c1" VolumeTypeContainer
                               "before upgrade" {[ "user.k" := "v" ]})
                            (set_db [updatedRow; snapRow] w))))).2).
  pose proof (RestoreInstanceSnapshot_retry_puts_record_back (testPool "p1")
                (testInstance "c1") (testInstance "c1/snap0") w
                VolumeTypeContainer row snapRow vol "c1" "snap0"
                d1 blocked ["snap1"] (mem_instSnapshots d1) w2
                (testMemSnapshots ["snap0"] []) updatedRow) as Hthm.
  cbv zeta in Hthm.
  destruct Hthm as (w' & Hrun & Hdb & _);
    [ reflexivity | reflexivity | reflexivity | reflexivity | reflexivity
    | vm_compute; reflexivity | vm_compute; reflexivity | vm_compute; reflexivity
    | vm_compute; reflexivity | right; discriminate | vm_compute; reflexivity
    | reflexivity | reflexivity | vm_compute; reflexivity | vm_compute; reflexivity
    | vm_compute; reflexivity | ].
  subst after. rewrite Hrun. cbn [fst snd]. split; [reflexivity|].
  etransitivity; [exact Hdb|]. reflexivity.
Defined.


(** ** More on records: images, snapshots and migration *)

(** Removing the record that was just added to records that had none for
    its key gives the records before. *)
Lemma db_remove_added pool project name t (db : list StorageVolume)
    (row : StorageVolume) :
  db_lookup pool project name t db = None ->
  row_is pool project name t row = true ->
  db_remove pool project name t (db ++ [row]) = db.
Proof.
  intros Habsent Hrow. unfold db_remove. rewrite filter_app_eq. cbn [List.filter].
  rewrite Hrow. cbn [negb]. rewrite app_nil_r.
  apply (db_remove_absent _ _ _ _ _ Habsent).
Qed.

Lemma IsSnapshot_GetSnapshotVolumeName (v n : string) :
  IsSnapshot (GetSnapshotVolumeName v n) = true.
Proof.
  unfold GetSnapshotVolumeName. induction v as [|c v IH].
  - reflexivity.
  - change (String c v +:+ "/" +:+ n) with (String c (v +:+ "/" +:+ n)).
    rewrite IsSnapshot_cons, IH. apply orb_true_r.
Qed.

Section RecordFacts.
Context {D : Type} `{Driver D} `{Host D} `{Codec} `{PoolHost D}.
Implicit Types (b : backend) (w : World D).

(** X19.  [DeleteImage] deletes the record of the image volume exactly when
    it returns nil: whenever it returns an error, that of the driver that
    could not delete the volume included, the records are as they were, so
    that no image volume is left on storage without its record. *)
Theorem DeleteImage_record_deleted_on_success_only b fingerprint w :
  w_db (run (DeleteImage b fingerprint) w).2
  = match (run (DeleteImage b fingerprint) w).1 with
    | Ok _ => db_remove (b_name b) ProjectDefaultName fingerprint VolumeTypeImage (w_db w)
    | Err _ => w_db w
    end.
Proof. unfold DeleteImage. mpaths; reflexivity. Qed.

(** An operation that leaves the records alone up to every read and after
    it has done so when it has run to its end. *)
Lemma drive_keepsDB {A} (o : @Outcome D A) (db : list StorageVolume) :
  keepsDB o db -> w_db (drive o).2 = db.
Proof.
  revert db. induction o as [r st|c st k IH]; intros db; cbn [keepsDB drive].
  - intros Hdb. exact Hdb.
  - intros [Hdb Hk]. unfold deliver.
    destruct (inbox c (w_pipe (st_world st))) as [|frame rest].
    + apply IH. rewrite <- Hdb. apply Hk.
    + apply IH. rewrite <- Hdb.
      exact (Hk (Ok frame) (mkSt (set_pipe (pipe_pop c (w_pipe (st_world st)))
                                    (st_world st)) (st_revert st))).
Qed.

(** X20.  [MigrateCustomVolume], the sending side of a migration, never
    creates, changes or deletes a volume record, whatever its arguments are,
    whatever the receiver answers and whether or not the driver fails. *)
Theorem MigrateCustomVolume_never_changes_records b projectName conn args w :
  w_db (run (MigrateCustomVolume b projectName conn args) w).2 = w_db w.
Proof.
  unfold run. apply drive_keepsDB.
  exact (MigrateCustomVolume_keepsDB b projectName conn args (mkSt w [])).
Qed.

(** However [CreateCustomVolumeSnapshot] returns: with nil, the parent has
    a record, the snapshot had none, and the records are those before and
    the record of the snapshot; with an error the records are as before. *)
Lemma CreateCustomVolumeSnapshot_returns b projectName volName newSnapshotName
    newExpiryDate w (rv : list (@Hook D)) :
  let fullSnapshotName := GetSnapshotVolumeName volName newSnapshotName in
  exists r w',
    CreateCustomVolumeSnapshot b projectName volName newSnapshotName newExpiryDate
      (mkSt w rv) = Done r (mkSt w' rv)
    /\ match r with
       | Ok _ =>
         exists parentVol,
           db_lookup (b_name b) projectName volName VolumeTypeCustom (w_db w)
           = Some parentVol
           /\ db_lookup (b_name b) projectName fullSnapshotName VolumeTypeCustom (w_db w)
              = None
           /\ w_db w'
              = (w_db w ++ [snapshotRow b projectName fullSnapshotName parentVol
                              (w_clock w) newExpiryDate])%list
       | Err _ => w_db w' = w_db w
       end.
Proof.
  intros fullSnapshotName. subst fullSnapshotName.
  unfold CreateCustomVolumeSnapshot, CreateCustomVolumeSnapshot_create,
    driver_CreateVolumeSnapshot, snapshotRow.
  mpaths.
  all: eexists _, _; split; [reflexivity|]; cbn [w_db set_db set_drv add_event].
  all: try reflexivity.
  all: try (eexists; split; [first [eassumption|reflexivity]|];
            split; [first [eassumption|reflexivity]|]; reflexivity).
  all: apply db_remove_added;
       [ first [assumption|reflexivity]
       | unfold row_is; cbn; now rewrite !bool_decide_eq_true_2 ].
Qed.

(** X21.  [CreateCustomVolumeSnapshot].  When it returns nil the records are
    those before and the record of the snapshot, which has the description,
    the config and the content type of the record of the parent volume and
    the expiry date asked for.  When it returns an error, whatever the step
    that failed, the records are exactly as they were. *)
Theorem CreateCustomVolumeSnapshot_copies_parent_or_leaves_records
    b projectName volName newSnapshotName newExpiryDate w :
  match run (CreateCustomVolumeSnapshot b projectName volName newSnapshotName
               newExpiryDate) w with
  | (Ok _, w') =>
    exists parentVol,
      db_lookup (b_name b) projectName volName VolumeTypeCustom (w_db w) = Some parentVol
      /\ w_db w'
         = (w_db w ++
            [snapshotRow b projectName (GetSnapshotVolumeName volName newSnapshotName)
               parentVol (w_clock w) newExpiryDate])%list
  | (Err _, w') => w_db w' = w_db w
  end.
Proof.
  destruct (CreateCustomVolumeSnapshot_returns b projectName volName newSnapshotName
              newExpiryDate w []) as (r & w' & Hrun & Hpost).
  unfold run. rewrite Hrun. cbn [drive st_world].
  destruct r as [[]|e]; [|exact Hpost].
  destruct Hpost as (parentVol & Hparent & _ & Hdb). now exists parentVol.
Qed.

(** X22.  Taking a snapshot of a custom volume and deleting that snapshot
    again leaves the records exactly as they were before. *)
Theorem create_then_delete_custom_volume_snapshot_restores_records
    b projectName volName newSnapshotName newExpiryDate w w1 w2 :
  run (CreateCustomVolumeSnapshot b projectName volName newSnapshotName newExpiryDate) w
  = (Ok tt, w1) ->
  run (DeleteCustomVolumeSnapshot b projectName
         (GetSnapshotVolumeName volName newSnapshotName)) w1 = (Ok tt, w2) ->
  w_db w2 = w_db w.
Proof.
  intros Hcreate Hdelete.
  destruct (CreateCustomVolumeSnapshot_returns b projectName volName newSnapshotName
              newExpiryDate w []) as (r & w' & Hrun & Hpost).
  unfold run in Hcreate. rewrite Hrun in Hcreate. cbn [drive st_world] in Hcreate.
  injection Hcreate as -> ->.
  destruct Hpost as (parentVol & _ & Habsent & Hdb1).
  destruct (DeleteCustomVolumeSnapshot_returns b projectName
              (GetSnapshotVolumeName volName newSnapshotName) (mkSt w1 []))
    as (r2 & w2' & Hrun2 & Hdb2).
  unfold run in Hdelete. rewrite Hrun2 in Hdelete. cbn [drive st_world] in Hdelete.
  injection Hdelete as -> ->.
  rewrite Hdb2. cbn [st_world]. rewrite Hdb1.
  apply db_remove_added; [exact Habsent|].
  unfold row_is, snapshotRow. cbn. now rewrite !bool_decide_eq_true_2.
Qed.

End RecordFacts.

(** The volume vol1 of pool p1: a snapshot s1 is taken and deleted. *)
Lemma create_then_delete_custom_volume_snapshot_restores_records_witness :
  let w := testWorld [testVolumeRow "p1" "vol1"]
                     (testMem [("p1", VolumeTypeCustom, "default_vol1")] []) in
  let create :=
    run (CreateCustomVolumeSnapshot (testPool "p1") ProjectDefaultName "vol1" "s1" 0) w in
  let delete :=
    run (DeleteCustomVolumeSnapshot (testPool "p1") ProjectDefaultName "vol1/s1")
        create.2 in
  create.1 = Ok tt /\ delete.1 = Ok tt
  /\ map sv_name (w_db create.2) = ["vol1"; "vol1/s1"]
  /\ w_db delete.2 = w_db w.
Proof.
  intros w create delete.
  split; [vm_compute; reflexivity|]. split; [vm_compute; reflexivity|].
  split; [vm_compute; reflexivity|].
  apply (create_then_delete_custom_volume_snapshot_restores_records (testPool "p1")
           ProjectDefaultName "vol1" "s1" 0 w create.2 delete.2).
  - vm_compute. reflexivity.
  - vm_compute. reflexivity.
Defined.
